(** * The unegui.mn sales scraper (sales_scraper.py): crawl engine

    A shallow embedding of [UneguiScraper] and the properties of its
    retry, dedup-cache, extraction, pagination and checkpointing logic.

    - Python [str] values are lists of Unicode code points, and the
      string methods the scraper calls are functions on them.
    - The methods are functions in a state monad.  The state holds the
      scraper object ([scraped_urls]) and what it acts on: the cache
      file, the snapshot files of the working directory, the log, and
      the traces of the requests sent and of the snapshots written.
    - The site and the calendar are oracles ([World]): the answer to a
      request and the date may depend on the instant they are asked.
    - BeautifulSoup is a type class of queries, with the texts its
      parser rejects; [float] parsing is a parameter; [hashlib.md5] and
      UTF-8 are written out.
    - pandas is an oracle of the [World] too: what [read_csv] makes of
      the rows of a snapshot.
    - Time is not modelled: the delays before a request and before a
      retry do not appear, a log entry keeps only the exponential part of
      the backoff.  Writes to files succeed, and [session.get] raises
      nothing but [requests.RequestException].
    - Of the dashboard (app.py), the three helpers that read the
      location column of a snapshot are functions on an optional
      text. *)

From Stdlib Require Import Strings.Byte.
From stdpp Require Import gmap list.
From Equations Require Import Equations.

Local Open Scope N_scope.

(** ** Python strings *)

(** A [str] is a sequence of code points. *)
Abbreviation str := (list N).

(** String literals: a literal of this file stands for the code points
    its UTF-8 bytes decode to, so that the literals of the source can be
    written as they are. *)
Module PyLiteral.

Inductive literal := Lnil | Lcons (c : N) (rest : literal).

Fixpoint decode (fuel : nat) (bs : list N) : literal :=
  match fuel with
  | O => Lnil
  | S fuel =>
    match bs with
    | [] => Lnil
    | b0 :: r0 =>
      if b0 <? 0x80 then Lcons b0 (decode fuel r0)
      else if b0 <? 0xE0 then
        match r0 with
        | b1 :: r1 =>
          Lcons ((b0 - 0xC0) * 64 + (b1 - 0x80)) (decode fuel r1)
        | _ => Lnil
        end
      else if b0 <? 0xF0 then
        match r0 with
        | b1 :: b2 :: r2 =>
          Lcons ((b0 - 0xE0) * 4096 + (b1 - 0x80) * 64 + (b2 - 0x80))
                (decode fuel r2)
        | _ => Lnil
        end
      else
        match r0 with
        | b1 :: b2 :: b3 :: r3 =>
          Lcons ((b0 - 0xF0) * 262144 + (b1 - 0x80) * 4096
                 + (b2 - 0x80) * 64 + (b3 - 0x80)) (decode fuel r3)
        | _ => Lnil
        end
    end
  end.

Definition parse (bs : list byte) : literal :=
  decode (length bs) (map Byte.to_N bs).

Definition byte_of_N (n : N) : byte := default x00 (Byte.of_N n).

Definition utf8 (c : N) : list byte :=
  map byte_of_N
    (if c <? 0x80 then [c]
     else if c <? 0x800 then [0xC0 + c / 64; 0x80 + c mod 64]
     else if c <? 0x10000 then
       [0xE0 + c / 4096; 0x80 + (c / 64) mod 64; 0x80 + c mod 64]
     else [0xF0 + c / 262144; 0x80 + (c / 4096) mod 64;
           0x80 + (c / 64) mod 64; 0x80 + c mod 64]).

Fixpoint bytes (l : literal) : list byte :=
  match l with
  | Lnil => []
  | Lcons c rest => utf8 c ++ bytes rest
  end.

Fixpoint printable (l : literal) : bool :=
  match l with
  | Lnil => true
  | Lcons c rest => (32 <=? c) && (c <? 0xD800) && printable rest
  end.

(** Only a non-empty list of printable characters is shown as a
    literal. *)
Definition print (l : literal) : option (list byte) :=
  match l with
  | Lnil => None
  | Lcons _ _ => if printable l then Some (bytes l) else None
  end.

End PyLiteral.

Declare Scope py_scope.
Delimit Scope py_scope with py.
#[warnings="-via-type-mismatch"]
String Notation list PyLiteral.parse PyLiteral.print
  (via PyLiteral.literal mapping
     [[nil] => PyLiteral.Lnil, [cons] => PyLiteral.Lcons]) : py_scope.
Local Open Scope py_scope.

Module PyStr.

(** [str.isspace] on one character: the code points Python's
    [str.strip()] removes. *)
Definition isspace (c : N) : bool :=
  ((0x09 <=? c) && (c <=? 0x0D)) || ((0x1C <=? c) && (c <=? 0x20))
  || (c =? 0x85) || (c =? 0xA0) || (c =? 0x1680)
  || ((0x2000 <=? c) && (c <=? 0x200A))
  || (c =? 0x2028) || (c =? 0x2029) || (c =? 0x202F) || (c =? 0x205F)
  || (c =? 0x3000).

(** [s.lstrip()], [s.rstrip()], [s.strip()]. *)
Fixpoint lstrip (s : str) : str :=
  match s with
  | c :: s' => if isspace c then lstrip s' else s
  | [] => []
  end.

Definition rstrip (s : str) : str := rev (lstrip (rev s)).

Definition strip (s : str) : str := rstrip (lstrip s).

(** [s.startswith(p)] and [s.endswith(p)]. *)
Fixpoint startswith (s p : str) {struct p} : bool :=
  match p, s with
  | [], _ => true
  | c :: p', d :: s' => (c =? d) && startswith s' p'
  | _ :: _, [] => false
  end.

Definition endswith (s p : str) : bool := startswith (rev s) (rev p).

(** [sub in s]. *)
Fixpoint contains (sub s : str) : bool :=
  startswith s sub ||
  match s with
  | [] => false
  | _ :: s' => contains sub s'
  end.

(** [s.split(sep)] for a non-empty [sep]: a left-to-right scan for
    non-overlapping occurrences; [skip] counts the characters of a
    matched separator still to be passed over, [cur] is the current part
    in reverse. *)
Fixpoint split_go (sep : str) (skip : nat) (cur : str) (s : str) : list str :=
  match s with
  | [] => [rev cur]
  | c :: s' =>
    match skip with
    | S k => split_go sep k cur s'
    | O =>
      if startswith s sep
      then rev cur :: split_go sep (pred (length sep)) [] s'
      else split_go sep O (c :: cur) s'
    end
  end.

Definition split (sep s : str) : list str := split_go sep O [] s.

(** [s.replace(old, new)] for a non-empty [old]. *)
Fixpoint replace_go (old new : str) (skip : nat) (s : str) : str :=
  match s with
  | [] => []
  | c :: s' =>
    match skip with
    | S k => replace_go old new k s'
    | O =>
      if startswith s old
      then new ++ replace_go old new (pred (length old)) s'
      else c :: replace_go old new O s'
    end
  end.

Definition replace (old new s : str) : str := replace_go old new O s.

(** Comparison of strings, by code point ([<] of Python), and the
    [max] of a non-empty list of strings. *)
Fixpoint str_ltb (a b : str) : bool :=
  match a, b with
  | [], [] => false
  | [], _ :: _ => true
  | _ :: _, [] => false
  | x :: a', y :: b' => (x <? y) || ((x =? y) && str_ltb a' b')
  end.

Definition max_str (first : str) (others : list str) : str :=
  fold_left (fun m x => if str_ltb m x then x else m) others first.

(** [str(n)] for a non-negative integer, and a zero-padded field as
    [strftime] prints it. *)
Fixpoint digits_fuel (fuel : nat) (n : N) (acc : str) : str :=
  match fuel with
  | O => acc
  | S fuel =>
    let acc' := (48 + n mod 10) :: acc in
    if n <? 10 then acc' else digits_fuel fuel (n / 10) acc'
  end.

Definition str_of_N (n : N) : str := digits_fuel (S (N.to_nat (N.log2 n))) n [].

Definition zero_pad (width : nat) (s : str) : str :=
  repeat 48 (width - length s)%nat ++ s.

End PyStr.
Import PyStr.

(** ** hashlib.md5 and str.encode *)

Module Hash.

(** [s.encode()]: UTF-8; [None] stands for the [UnicodeEncodeError]
    raised on a surrogate (or a value that is no code point). *)
Definition encode_char (c : N) : option (list N) :=
  if c <? 0x80 then Some [c]
  else if c <? 0x800 then Some [0xC0 + c / 64; 0x80 + c mod 64]
  else if c <? 0x10000 then
    if (0xD800 <=? c) && (c <=? 0xDFFF) then None
    else Some [0xE0 + c / 4096; 0x80 + (c / 64) mod 64; 0x80 + c mod 64]
  else if c <? 0x110000 then
    Some [0xF0 + c / 262144; 0x80 + (c / 4096) mod 64;
          0x80 + (c / 64) mod 64; 0x80 + c mod 64]
  else None.

Fixpoint encode (s : str) : option (list N) :=
  match s with
  | [] => Some []
  | c :: s' =>
    match encode_char c, encode s' with
    | Some bs, Some r => Some (bs ++ r)
    | _, _ => None
    end
  end.

(** 32-bit words as [N] with the wrap-around written out. *)
Definition w32 (x : N) : N := x mod 0x100000000.
Definition add32 (x y : N) : N := w32 (x + y).
Definition not32 (x : N) : N := N.lxor (w32 x) 0xFFFFFFFF.
Definition rotl32 (x s : N) : N :=
  w32 (N.lor (N.shiftl x s) (N.shiftr (w32 x) (32 - s))).

Definition md5_shift : list N :=
  [7; 12; 17; 22; 7; 12; 17; 22; 7; 12; 17; 22; 7; 12; 17; 22;
   5; 9; 14; 20; 5; 9; 14; 20; 5; 9; 14; 20; 5; 9; 14; 20;
   4; 11; 16; 23; 4; 11; 16; 23; 4; 11; 16; 23; 4; 11; 16; 23;
   6; 10; 15; 21; 6; 10; 15; 21; 6; 10; 15; 21; 6; 10; 15; 21].

Definition md5_sine : list N :=
  [0xd76aa478; 0xe8c7b756; 0x242070db; 0xc1bdceee;
   0xf57c0faf; 0x4787c62a; 0xa8304613; 0xfd469501;
   0x698098d8; 0x8b44f7af; 0xffff5bb1; 0x895cd7be;
   0x6b901122; 0xfd987193; 0xa679438e; 0x49b40821;
   0xf61e2562; 0xc040b340; 0x265e5a51; 0xe9b6c7aa;
   0xd62f105d; 0x02441453; 0xd8a1e681; 0xe7d3fbc8;
   0x21e1cde6; 0xc33707d6; 0xf4d50d87; 0x455a14ed;
   0xa9e3e905; 0xfcefa3f8; 0x676f02d9; 0x8d2a4c8a;
   0xfffa3942; 0x8771f681; 0x6d9d6122; 0xfde5380c;
   0xa4beea44; 0x4bdecfa9; 0xf6bb4b60; 0xbebfbc70;
   0x289b7ec6; 0xeaa127fa; 0xd4ef3085; 0x04881d05;
   0xd9d4d039; 0xe6db99e5; 0x1fa27cf8; 0xc4ac5665;
   0xf4292244; 0x432aff97; 0xab9423a7; 0xfc93a039;
   0x655b59c3; 0x8f0ccc92; 0xffeff47d; 0x85845dd1;
   0x6fa87e4f; 0xfe2ce6e0; 0xa3014314; 0x4e0811a1;
   0xf7537e82; 0xbd3af235; 0x2ad7d2bb; 0xeb86d391].

(** Little-endian bytes of a word and back. *)
Definition le_bytes (n : nat) (x : N) : list N :=
  map (fun i => (x / 2 ^ (8 * N.of_nat i)) mod 256) (seq 0 n).

Fixpoint le_word (bs : list N) : N :=
  match bs with
  | [] => 0
  | b :: r => b + 256 * le_word r
  end.

Fixpoint words (n : nat) (bs : list N) : list N :=
  match n with
  | O => []
  | S n => le_word (take 4 bs) :: words n (drop 4 bs)
  end.

(** Padding: one 0x80 byte, zeros up to 56 mod 64, the bit length on
    eight bytes. *)
Definition md5_pad (msg : list N) : list N :=
  let len := N.of_nat (length msg) in
  let zeros := (119 - len mod 64) mod 64 in
  msg ++ [0x80] ++ repeat 0 (N.to_nat zeros)
      ++ le_bytes 8 ((8 * len) mod 2 ^ 64).

Record md5_state := MD5 { md5_a : N; md5_b : N; md5_c : N; md5_d : N }.

Definition md5_init : md5_state :=
  MD5 0x67452301 0xefcdab89 0x98badcfe 0x10325476.

Definition md5_round (m : list N) (st : md5_state) (i : nat) : md5_state :=
  let '(MD5 a b c d) := st in
  let '(f, g) :=
    if (i <? 16)%nat then
      (N.lor (N.land b c) (N.land (not32 b) d), i)
    else if (i <? 32)%nat then
      (N.lor (N.land d b) (N.land (not32 d) c), (5 * i + 1) mod 16)%nat
    else if (i <? 48)%nat then
      (N.lxor (N.lxor b c) d, (3 * i + 5) mod 16)%nat
    else
      (N.lxor c (N.lor b (not32 d)), (7 * i) mod 16)%nat in
  let f' := add32 (add32 (add32 f a) (nth i md5_sine 0)) (nth g m 0) in
  MD5 d (add32 b (rotl32 f' (nth i md5_shift 0))) b c.

Definition md5_block (st : md5_state) (block : list N) : md5_state :=
  let m := words 16 block in
  let '(MD5 a b c d) := fold_left (md5_round m) (seq 0 64) st in
  MD5 (add32 (md5_a st) a) (add32 (md5_b st) b)
      (add32 (md5_c st) c) (add32 (md5_d st) d).

Fixpoint md5_blocks (n : nat) (st : md5_state) (bs : list N) : md5_state :=
  match n with
  | O => st
  | S n => md5_blocks n (md5_block st (take 64 bs)) (drop 64 bs)
  end.

(** [hashlib.md5(msg).digest()]. *)
Definition md5 (msg : list N) : list N :=
  let padded := md5_pad msg in
  let '(MD5 a b c d) := md5_blocks (length padded / 64) md5_init padded in
  le_bytes 4 a ++ le_bytes 4 b ++ le_bytes 4 c ++ le_bytes 4 d.

(** [.hexdigest()]: two lower-case hexadecimal digits a byte. *)
Definition hex_digit (n : N) : N := if n <? 10 then 48 + n else 87 + n.

Definition hexdigest (bs : list N) : str :=
  flat_map (fun b => [hex_digit (b / 16); hex_digit (b mod 16)]) bs.

End Hash.

(** Text files: what iterating over a file opened in text mode yields.
    Universal newlines turn "\r\n" and "\r" into "\n"; every line keeps
    its newline, the last one may lack it. *)
Module TextIO.

Fixpoint universal_newlines (s : str) : str :=
  match s with
  | [] => []
  | c :: s' =>
    if c =? 13 then
      match s' with
      | d :: s'' => if d =? 10 then 10 :: universal_newlines s''
                    else 10 :: universal_newlines s'
      | [] => [10]
      end
    else c :: universal_newlines s'
  end.

Fixpoint lines_go (cur : str) (s : str) : list str :=
  match s with
  | [] => match cur with [] => [] | _ :: _ => [rev cur] end
  | c :: s' =>
    if c =? 10 then rev (c :: cur) :: lines_go [] s'
    else lines_go (c :: cur) s'
  end.

Definition readlines (content : str) : list str :=
  lines_go [] (universal_newlines content).

End TextIO.

(** ** The HTML parser as a capability

    BeautifulSoup is used through a handful of queries; the scraper is
    written against them.  A query names a tag and one criterion.  The
    parser raises on some texts ([html.parser] does on [<![x]>]):
    [parser_error] gives the message of the exception then, and
    [BeautifulSoup] is the document of a text the parser accepts. *)

Inductive criterion :=
| AnyTag                      (** [find('span')] *)
| WithText (s : str)          (** [text=key] *)
| WithClass (c : str)         (** [class_='...'] *)
| WithAttr (k v : str).       (** [itemprop="address"], [{'itemprop': 'price'}] *)

#[global] Instance criterion_eq_dec : EqDecision criterion.
Proof. solve_decision. Defined.

Class Soup (html tag : Type) := {
  parser_error : html -> option str;                      (** [str(e)] when [BeautifulSoup(text, 'html.parser')] raises [e] *)
  BeautifulSoup : html -> tag;                            (** [BeautifulSoup(text, 'html.parser')] *)
  tag_find : tag -> str -> criterion -> option tag;       (** [t.find(name, ...)] *)
  tag_find_all : tag -> str -> criterion -> list tag;     (** [t.find_all(name, ...)] *)
  tag_find_next : tag -> str -> criterion -> option tag;  (** [t.find_next(name, ...)] *)
  tag_text : tag -> str;                                  (** [t.text] *)
  tag_attrs : tag -> list (str * str);                    (** [t.attrs] *)
}.

(** ** Records, files, log *)

(** A record is a Python dict with string values; the order of the keys
    is the order of the columns. *)
Abbreviation row := (list (str * str)).

Fixpoint dict_get (k : str) (d : row) : option str :=
  match d with
  | [] => None
  | (k', v) :: d' => if decide (k' = k) then Some v else dict_get k d'
  end.

(** [d[k] = v]: an existing key keeps its place. *)
Fixpoint dict_set (k v : str) (d : row) : row :=
  match d with
  | [] => [(k, v)]
  | (k', v') :: d' =>
    if decide (k' = k) then (k, v) :: d' else (k', v') :: dict_set k v d'
  end.

Definition keys (d : row) : list str := d.*1.

(** A snapshot file of the working directory: a file [to_csv] wrote,
    given by the rows written (what [read_csv] reads from it is in the
    [World]), or a file of another origin, on which [read_csv] raises. *)
Inductive file :=
| Csv (rows : list row)
| Unreadable (cause : str).

Inductive level := INFO | WARNING | ERROR.

(** The exceptions the scraper catches without a network cause. *)
Inductive exn :=
| UnicodeEncodeError
| IndexError
| ReadError (cause : str)
| ParserError (cause : str).

(** One constructor for each [logger] call of the class, with the values
    its message interpolates. *)
Inductive message :=
| Retrying (url cause : str) (backoff : N)
| FailedToRetrieve (url : str) (retries : nat) (cause : str)
| FoundLinksOnPage (n : nat) (url : str)
| PageError (url : str) (e : exn)
| SkippingScraped (url : str)
| AddressError (url : str) (e : exn)
| AdError (url : str) (e : exn)
| LoadedExisting (n : nat)
| ScrapingPage (page_num : nat)
| NoMoreLinks
| FoundLinks (n : nat)
| ScrapingAd (i total : nat) (url : str)
| ProgressSaved (i total : nat)
| Completed (n : nat)
| NoData
| LoadedFrom (name : str) (n : nat)
| CouldNotLoad (e : exn)
| Saved (name : str) (n : nat).

Record date := Date { year : N; month : N; day : N }.

(** [strftime('%Y%m%d')] and [strftime('%d/%m/%Y')], for the four-digit
    years of [date.today()]. *)
Definition strftime_Ymd (d : date) : str :=
  zero_pad 4 (str_of_N (year d)) ++ zero_pad 2 (str_of_N (month d))
    ++ zero_pad 2 (str_of_N (day d)).

Definition strftime_dmY (d : date) : str :=
  zero_pad 2 (str_of_N (day d)) ++ "/" ++ zero_pad 2 (str_of_N (month d))
    ++ "/" ++ zero_pad 4 (str_of_N (year d)).

(** The name of the snapshot written on a given day. *)
Definition output_file_on (d : date) : str :=
  "unegui_sales_data_" ++ strftime_Ymd d ++ ".csv".

(** What [session.get] followed by [raise_for_status] comes to: a
    response, or a [requests.RequestException] (transport failure,
    timeout, error status) with its text. *)
Inductive outcome (html : Type) :=
| Response (text : html)
| RequestException (cause : str).
Arguments Response {html} text.
Arguments RequestException {html} cause.

(** The environment of a run: what the site answers to the request
    issued at a given instant, the date at that instant, and what
    [pd.read_csv] makes of the rows of a snapshot: the table it returns
    (a cell may come back as a missing value or as a number), or the
    message of the exception it raises (on the file of a batch without
    rows, for one).  Instants count the requests and clock reads made
    so far. *)
Record World (html : Type) := {
  net : nat -> str -> outcome html;
  today : nat -> date;
  read_csv : list row -> str + list row;
}.
Arguments net {html} _ _ _.
Arguments today {html} _ _.
Arguments read_csv {html} _ _.

(** The scraper object and the machine it runs on.  [requests] and
    [writes] are traces of the calls made: the URLs fetched and the
    snapshots written, oldest first. *)
Record state := State {
  scraped_urls : gset str;          (** [self.scraped_urls] *)
  cache_file : option str;          (** content of [CACHE_FILE], if it exists *)
  files : gmap str file;            (** the other entries of the directory *)
  log : list (level * message);
  requests : list str;
  writes : list (str * list row);
  clock : nat;
}.

Definition MAX_RETRIES : nat := 3.
Definition CACHE_FILE : str := "scraped_sales_urls.txt".
Definition NA : str := "N/A".
Definition SITE : str := "https://www.unegui.mn".

(** ** A state monad for the methods *)

Definition M (A : Type) : Type := state -> A * state.

Definition ret {A} (a : A) : M A := fun s => (a, s).

Definition bind {A B} (c : M A) (k : A -> M B) : M B :=
  fun s => let '(a, s') := c s in k a s'.

Notation "'let*' x ':=' c 'in' k" := (bind c (fun x => k))
  (at level 10, x pattern, c at level 100, k at level 200).

Definition get_state : M state := fun s => (s, s).

(** The elementary changes of the state. *)
Definition logged (l : level) (m : message) (s : state) : state :=
  State (scraped_urls s) (cache_file s) (files s) (log s ++ [(l, m)])
        (requests s) (writes s) (clock s).

Definition ticked (s : state) : state :=
  State (scraped_urls s) (cache_file s) (files s) (log s) (requests s)
        (writes s) (S (clock s)).

Definition fetched (url : str) (s : state) : state :=
  State (scraped_urls s) (cache_file s) (files s) (log s)
        (requests s ++ [url]) (writes s) (S (clock s)).

Definition cached (url : str) (s : state) : state :=
  State ({[url]} ∪ scraped_urls s)
        (Some (default [] (cache_file s) ++ url ++ [10]))
        (files s) (log s) (requests s) (writes s) (clock s).

Definition written (name : str) (df : list row) (s : state) : state :=
  State (scraped_urls s) (cache_file s) (<[name := Csv df]> (files s))
        (log s) (requests s) (writes s ++ [(name, df)]) (clock s).

Definition logger (l : level) (m : message) : M unit :=
  fun s => (tt, logged l m s).

(** ** The scraper *)

Section UneguiScraper.

Context {html tag : Type} `{!Soup html tag}.

(** [str(int(float(price)))]: the digits of the truncated value, [None]
    when [float] or [int] raises.  Binary floating point is outside of
    this development. *)
Variable int_float_str : str -> option str.

Variable W : World html.

(** [__init__] arguments. *)
Variable base_url : str.
Variable max_pages : nat.

(** [date.today()]. *)
Definition date_today : M date :=
  fun s => (today W (clock s), ticked s).

(** [self.session.get(url, timeout=30)] and [raise_for_status()].  The
    delays slept before and between attempts do not appear. *)
Definition session_get (url : str) : M (outcome html) :=
  fun s => (net W (clock s) url, fetched url s).

(** [load_scraped_urls] *)
Definition load_scraped_urls : M (gset str) :=
  let* s := get_state in
  match cache_file s with
  | Some content => ret (list_to_set (map strip (TextIO.readlines content)))
  | None => ret ∅
  end.

(** [save_scraped_url]: the line is appended to the file, which is
    created if need be, and the URL added to the set. *)
Definition save_scraped_url (url : str) : M unit :=
  fun s => (tt, cached url s).

(** [make_request] *)
Equations? make_request (url : str) (retry_count : nat) (s : state)
  : option html * state by wf (MAX_RETRIES - retry_count)%nat lt :=
make_request url retry_count s with session_get url s := {
  | (Response response, s1) := (Some response, s1)
  | (RequestException e, s1) with decide (retry_count < MAX_RETRIES)%nat := {
    | left _ :=
        let '(_, s2) :=
          logger WARNING (Retrying url e (2 ^ N.of_nat retry_count)) s1 in
        make_request url (retry_count + 1) s2
    | right _ :=
        let '(_, s2) :=
          logger ERROR (FailedToRetrieve url MAX_RETRIES e) s1 in
        (None, s2) } }.
Proof. lia. Qed.

(** [scrape_page]: the [href] of every [<a class="mask">] that has one.
    The [except] branch is taken when the parser raises; the queries on
    a document are total. *)
Definition scrape_page (url : str) : M (list str) :=
  let* response := make_request url 0 in
  match response with
  | None => ret []
  | Some text =>
    match parser_error text with
    | Some e =>
      let* _ := logger ERROR (PageError url (ParserError e)) in ret []
    | None =>
      let soup := BeautifulSoup text in
      let ad_links := tag_find_all soup "a" (WithClass "mask") in
      let links :=
        omap (fun link => dict_get "href" (tag_attrs link)) ad_links in
      let* _ := logger INFO (FoundLinksOnPage (length links) url) in
      ret links
    end
  end.

(** [get_value_chars] *)
Definition get_value_chars (soup : tag) (key : str) : str :=
  match tag_find soup "span" (WithText key) with
  | Some element =>
    match tag_find_next element "a" (WithClass "value-chars") with
    | Some value_chars => strip (tag_text value_chars)
    | None => NA
    end
  | None => NA
  end.

(** [get_text_value] *)
Definition get_text_value (soup : tag) (key : str) : str :=
  match tag_find soup "span" (WithText key) with
  | Some value =>
    match tag_find_next value "span" AnyTag with
    | Some next_span =>
      match tag_find next_span "a" (WithClass "value-chars") with
      | None => strip (tag_text next_span)
      | Some _ => NA
      end
    | None => NA
    end
  | None => NA
  end.

(** [generate_ad_id]; the scraper object plays no part in it. *)
Definition generate_ad_id (self : state) (url : str) : option str :=
  Hash.hexdigest <$> (Hash.md5 <$> Hash.encode url).

(** The dict literal of [scrape_ad]. *)
Definition ad_data_init (soup : tag) (url scraped_date ad_id : str) : row :=
  [ ("Шал", get_text_value soup "Шал:");
    ("Тагт", get_text_value soup "Тагт:");
    ("Гараж", get_text_value soup "Гараж:");
    ("Цонх", get_text_value soup "Цонх:");
    ("Хаалга", get_text_value soup "Хаалга:");
    ("Цонхнытоо", get_value_chars soup "Цонхны тоо:");
    ("Барилгынявц", get_text_value soup "Барилгынявц");
    ("Ашиглалтандорсонон", get_text_value soup "Ашиглалтандорсонон:");
    ("Барилгындавхар", get_value_chars soup "Барилгын давхар:");
    ("Талбай", get_value_chars soup "Талбай:");
    ("Хэдэндавхарт", get_value_chars soup "Хэдэн давхарт:");
    ("Лизингээравахболомж", get_text_value soup "Лизингээравахболомж:");
    ("Дүүрэг", NA);
    ("Байршил", NA);
    ("Үзсэн", NA);
    ("Scraped_date", scraped_date);
    ("link", url);
    ("Үнэ", NA);
    ("ӨрөөнийТоо", NA);
    ("Зарыг гарчиг", NA);
    ("Зарын тайлбар", NA);
    ("Нийтэлсэн", NA);
    ("ad_id", ad_id) ].

(** The address block of [scrape_ad], with its own [try]. *)
Definition handle_address (soup : tag) (url : str) (ad_data : row) : M row :=
  match tag_find soup "span" (WithAttr "itemprop" "address") with
  | Some address =>
    if contains "—" (tag_text address) then
      let parts := split "—" (tag_text address) in
      match parts !! 0%nat with
      | None =>
        let* _ := logger WARNING (AddressError url IndexError) in ret ad_data
      | Some part0 =>
        let ad_data := dict_set "Дүүрэг" (strip part0) ad_data in
        match parts !! 1%nat with
        | None =>
          let* _ := logger WARNING (AddressError url IndexError) in ret ad_data
        | Some part1 => ret (dict_set "Байршил" (strip part1) ad_data)
        end
      end
    else ret ad_data
  | None => ret ad_data
  end.

(** The remaining special fields of [scrape_ad], in the order of the
    source: views, price, room count, title, description, posted date. *)
Definition extract_rest (soup : tag) (ad_data : row) : row :=
  let ad_data :=
    match tag_find soup "span" (WithClass "counter-views") with
    | Some views_element =>
      dict_set "Үзсэн"
        (replace " " [] (strip (tag_text views_element))) ad_data
    | None => ad_data
    end in
  let ad_data :=
    match tag_find soup "meta" (WithAttr "itemprop" "price") with
    | Some price_meta =>
      let price := default NA (dict_get "content" (tag_attrs price_meta)) in
      let price := default price (int_float_str price) in
      dict_set "Үнэ" price ad_data
    | None => ad_data
    end in
  let ad_data :=
    match tag_find soup "div"
            (WithClass "wrap js-single-item__location") with
    | Some location_div =>
      match last (tag_find_all location_div "span" AnyTag) with
      | Some span => dict_set "ӨрөөнийТоо" (strip (tag_text span)) ad_data
      | None => ad_data
      end
    | None => ad_data
    end in
  let ad_data :=
    match tag_find soup "h1" (WithClass "title-announcement") with
    | Some title_element =>
      dict_set "Зарыг гарчиг"
        (replace [10] [] (strip (tag_text title_element))) ad_data
    | None => ad_data
    end in
  let ad_data :=
    match tag_find soup "div" (WithClass "announcement-description") with
    | Some desc_element =>
      dict_set "Зарын тайлбар"
        (replace [10] [] (strip (tag_text desc_element))) ad_data
    | None => ad_data
    end in
  match tag_find soup "span" (WithClass "date-meta") with
  | Some date_element =>
    dict_set "Нийтэлсэн"
      (replace "Нийтэлсэн: " [] (strip (tag_text date_element))) ad_data
  | None => ad_data
  end.

(** [scrape_ad].  The exceptions its outer [try] catches are the one
    of the parser, raised before anything else is done with the page,
    and the encoding error of [generate_ad_id]; both are logged, and
    [None] is returned before the URL is cached. *)
Definition scrape_ad (url : str) : M (option row) :=
  let* self := get_state in
  if decide (url ∈ scraped_urls self) then
    let* _ := logger INFO (SkippingScraped url) in ret None
  else
    let* response := make_request url 0 in
    match response with
    | None => ret None
    | Some text =>
      match parser_error text with
      | Some e =>
        let* _ := logger ERROR (AdError url (ParserError e)) in ret None
      | None =>
        let soup := BeautifulSoup text in
        let* d := date_today in
        match generate_ad_id self url with
        | None =>
          let* _ := logger ERROR (AdError url UnicodeEncodeError) in ret None
        | Some ad_id =>
          let ad_data := ad_data_init soup url (strftime_dmY d) ad_id in
          let* ad_data := handle_address soup url ad_data in
          let ad_data := extract_rest soup ad_data in
          let* _ := save_scraped_url url in
          ret (Some ad_data)
        end
      end
    end.

(** The [files] of [load_existing_data]: the names of [os.listdir('.')]
    that are those of snapshots. *)
Definition is_snapshot_name (f : str) : bool :=
  startswith f "unegui_sales_data_" && endswith f ".csv".

Definition snapshot_names (s : state) : list str :=
  filter (fun f => is_snapshot_name f = true) (map_to_list (files s)).*1.

(** [load_existing_data]: what [read_csv] makes of the snapshot with
    the greatest name; any failure to read it is logged and gives the
    empty table. *)
Definition load_existing_data : M (list row) :=
  let* s := get_state in
  match snapshot_names s with
  | [] => ret []
  | f :: fs =>
    let latest_file := max_str f fs in
    match files s !! latest_file with
    | Some (Csv rows) =>
      match read_csv W rows with
      | inr df =>
        let* _ := logger INFO (LoadedFrom latest_file (length df)) in ret df
      | inl cause =>
        let* _ := logger WARNING (CouldNotLoad (ReadError cause)) in ret []
      end
    | Some (Unreadable cause) =>
      let* _ := logger WARNING (CouldNotLoad (ReadError cause)) in ret []
    | None =>
      let* _ := logger WARNING (CouldNotLoad (ReadError latest_file)) in ret []
    end
  end.

(** [df.to_csv(output_file, ...)]: the file is replaced. *)
Definition to_csv (output_file : str) (df : list row) : M unit :=
  fun s => (tt, written output_file df s).

(** [save_data] *)
Definition save_data (all_data : list row) : M unit :=
  let df := all_data in
  let* d := date_today in
  let output_file := output_file_on d in
  let* _ := to_csv output_file df in
  logger INFO (Saved output_file (length df)).

(** The first loop of [run]: listing pages [page_num], [page_num + 1],
    ... in turn, until one of them gives no link. *)
Definition page_url (page_num : nat) : str :=
  if decide (page_num = 1%nat) then base_url
  else base_url ++ "?page=" ++ str_of_N (N.of_nat page_num).

Fixpoint run_pages (pages : list nat) (all_links : list str) : M (list str) :=
  match pages with
  | [] => ret all_links
  | page_num :: pages' =>
    let* _ := logger INFO (ScrapingPage page_num) in
    let* links := scrape_page (page_url page_num) in
    match links with
    | [] => let* _ := logger INFO NoMoreLinks in ret all_links
    | _ :: _ => run_pages pages' (all_links ++ links)
    end
  end.

(** The body of the second loop of [run], for the [i]-th link of
    [total]: the ad is scraped, its record (a dict that is never empty)
    joins the batch, and every twentieth turn saves the batch. *)
Definition run_ad (total : nat) (i : nat) (link : str)
    (all_data : list row) : M (list row) :=
  let full_url := SITE ++ link in
  let* _ := logger INFO (ScrapingAd i total full_url) in
  let* ad_data := scrape_ad full_url in
  let all_data :=
    match ad_data with
    | Some r => all_data ++ [r]
    | None => all_data
    end in
  let* _ :=
    if decide (i mod 20 = 0)%nat then
      let* _ := save_data all_data in
      logger INFO (ProgressSaved i total)
    else ret tt in
  ret all_data.

(** The second loop of [run]: [links] are the links still to do, [i] is
    the number of the first of them, [total] is [len(all_links)]. *)
Fixpoint run_ads (total : nat) (i : nat) (links : list str)
    (all_data : list row) : M (list row) :=
  match links with
  | [] => ret all_data
  | link :: links' =>
    let* all_data := run_ad total i link all_data in
    run_ads total (S i) links' all_data
  end.

(** The end of [run]: the final save, for a batch that is not empty. *)
Definition run_finish (all_data : list row) : M unit :=
  match all_data with
  | _ :: _ =>
    let* _ := save_data all_data in
    logger INFO (Completed (length all_data))
  | [] => logger WARNING NoData
  end.

(** [run] *)
Definition run : M unit :=
  let* existing_data := load_existing_data in
  let* all_data :=
    match existing_data with
    | [] => ret []
    | _ :: _ =>
      let* _ := logger INFO (LoadedExisting (length existing_data)) in
      ret existing_data
    end in
  let* all_links := run_pages (seq 1 max_pages) [] in
  let* _ := logger INFO (FoundLinks (length all_links)) in
  let* all_data := run_ads (length all_links) 1 all_links all_data in
  run_finish all_data.

(** [UneguiScraper(base_url, max_pages)] on a machine with the given
    cache file and directory: [__init__] loads the cache. *)
Definition boot (cache : option str) (dir : gmap str file) : state :=
  State ∅ cache dir [] [] [] 0.

Definition init (cache : option str) (dir : gmap str file) : state :=
  let s := boot cache dir in
  let '(urls, s) := load_scraped_urls s in
  State urls (cache_file s) (files s) (log s) (requests s) (writes s) (clock s).

End UneguiScraper.

Arguments make_request {html} W url retry_count s.

(** ** A small document model

    An instance of the parser capability on trees of elements and text,
    enough to run the scraper on pages written by hand. *)

Module MiniSoup.

#[warnings="-register-all"]
Inductive node :=
| Text (s : str)
| Elem (name : str) (attrs : list (str * str)) (children : list node)
| Broken (cause : str).
(** [Broken cause] is a piece of markup the parser raises on, with the
    message of its exception. *)

(** The elements of a forest in document order, each with its subtree. *)
Fixpoint elements (n : node) : list node :=
  match n with
  | Text _ | Broken _ => []
  | Elem _ _ children => n :: flat_map elements children
  end.

(** A tag is a place in the document: the element and, after it, every
    element that follows it in document order (its descendants first). *)
Definition tag : Type := list node.

Definition children_of (n : node) : list node :=
  match n with
  | Text _ | Broken _ => []
  | Elem _ _ children => children
  end.

Definition attrs_of (n : node) : list (str * str) :=
  match n with
  | Text _ | Broken _ => []
  | Elem _ attrs _ => attrs
  end.

(** [.text]: all the text below the element. *)
Fixpoint text_of (n : node) : str :=
  match n with
  | Text s => s
  | Elem _ _ children => flat_map text_of children
  | Broken _ => []
  end.

(** [.string]: the text of an element whose only child is a text, or
    an element that has a [.string]. *)
Fixpoint string_of (n : node) : option str :=
  match n with
  | Text s => Some s
  | Elem _ _ [c] => string_of c
  | Elem _ _ _ | Broken _ => None
  end.

(** The classes of a [class] attribute. *)
Definition class_tokens (v : str) : list str :=
  filter (fun t => t <> []) (split " " v).

Definition matches (name : str) (c : criterion) (n : node) : bool :=
  match n with
  | Text _ | Broken _ => false
  | Elem name' attrs children =>
    bool_decide (name' = name) &&
    match c with
    | AnyTag => true
    | WithText s => bool_decide (string_of n = Some s)
    | WithClass cl =>
      match dict_get "class" attrs with
      | Some v => bool_decide (cl ∈ class_tokens v) || bool_decide (cl = v)
      | None => false
      end
    | WithAttr k v => bool_decide (dict_get k attrs = Some v)
    end
  end.

(** The places of [t] among its first [n] followers that match. *)
Fixpoint places (name : str) (c : criterion) (n : nat) (t : tag) : list tag :=
  match n, t with
  | S n, x :: t' =>
    (if matches name c x then [t] else []) ++ places name c n t'
  | _, _ => []
  end.

Definition descendants (t : tag) : nat :=
  match t with
  | x :: _ => length (flat_map elements (children_of x))
  | [] => O
  end.

Definition find_all (t : tag) (name : str) (c : criterion) : list tag :=
  places name c (descendants t) (tail t).

Definition find_next_all (t : tag) (name : str) (c : criterion) : list tag :=
  places name c (length t) (tail t).

Definition text (t : tag) : str :=
  match t with
  | x :: _ => text_of x
  | [] => []
  end.

Definition attrs (t : tag) : list (str * str) :=
  match t with
  | x :: _ => attrs_of x
  | [] => []
  end.

(** The document is the element [[document]] around the page. *)
Definition parse (page : list node) : tag :=
  elements (Elem "[document]" [] page).

(** The first piece of a page the parser raises on. *)
Fixpoint broken (n : node) : option str :=
  match n with
  | Text _ => None
  | Elem _ _ children =>
    (fix first (cs : list node) : option str :=
       match cs with
       | [] => None
       | c :: cs' =>
         match broken c with
         | Some cause => Some cause
         | None => first cs'
         end
       end) children
  | Broken cause => Some cause
  end.

Definition rejected (page : list node) : option str :=
  broken (Elem "[document]" [] page).

#[export] Instance soup : Soup (list node) tag := {|
  parser_error := rejected;
  BeautifulSoup := parse;
  tag_find t name c := head (find_all t name c);
  tag_find_all := find_all;
  tag_find_next t name c := head (find_next_all t name c);
  tag_text := text;
  tag_attrs := attrs;
|}.

(** [str(int(float(price)))] on the literals [digits] and
    [digits.00...0] below 2^53, where it is exact; the sample pages
    carry no other price, and every other text counts as not numeric. *)
Definition is_digit (c : N) : bool := (48 <=? c) && (c <=? 57).

Definition number (ds : str) : N := fold_left (fun n d => 10 * n + (d - 48)) ds 0.

Definition int_float_str (price : str) : option str :=
  match split "." price with
  | [ds] | [ds; []] =>
    if forallb is_digit ds && negb (bool_decide (ds = [])) && (number ds <? 2 ^ 53)
    then Some (str_of_N (number ds)) else None
  | [ds; zs] =>
    if forallb is_digit ds && negb (bool_decide (ds = []))
       && forallb (N.eqb 48) zs && (number ds <? 2 ^ 53)
    then Some (str_of_N (number ds)) else None
  | _ => None
  end.

End MiniSoup.

(** ** Predicates of the specification *)

Section Specification.

Context {html tag : Type} `{!Soup html tag}.

(** What a method that only fetches [url] and logs may change. *)
Definition only_fetches (url : str) (s s' : state) : Prop :=
  scraped_urls s' = scraped_urls s ∧ cache_file s' = cache_file s
  ∧ files s' = files s ∧ writes s' = writes s
  ∧ ∃ k, requests s' = requests s ++ replicate k url.

(** The listing pages announced in a log. *)
Definition pages_logged (l : list (level * message)) : list nat :=
  omap (fun e => match e.2 with ScrapingPage p => Some p | _ => None end) l.

(** The number of links announced when the listing pages are done. *)
Definition links_found (l : list (level * message)) : list nat :=
  omap (fun e => match e.2 with FoundLinks n => Some n | _ => None end) l.

(** A method that fetches [url] and logs no page. *)
Definition fetches_quietly (url : str) (s s' : state) : Prop :=
  only_fetches url s s' ∧ pages_logged (log s') = pages_logged (log s).

(** Pagination as the specification words it: pages are taken in turn;
    a page without links ends it, a page with links adds them and the
    next page is taken, until no page is left.  [visited] lists the
    pages fetched. *)
Inductive paginates (W : World html) (base_url : str) :
  list nat -> list str -> state -> list nat -> list str -> state -> Prop :=
| paginates_exhausted acc s :
    paginates W base_url [] acc s [] acc s
| paginates_no_links p rest acc s s1 :
    scrape_page W (page_url base_url p) (logged INFO (ScrapingPage p) s) = ([], s1) ->
    paginates W base_url (p :: rest) acc s [p] acc (logged INFO NoMoreLinks s1)
| paginates_links p rest acc s link links s1 visited out s' :
    scrape_page W (page_url base_url p) (logged INFO (ScrapingPage p) s)
    = (link :: links, s1) ->
    paginates W base_url rest (acc ++ link :: links) s1 visited out s' ->
    paginates W base_url (p :: rest) acc s (p :: visited) out s'.

(** The columns of a record, in order. *)
Definition columns : list str :=
  ["Шал"; "Тагт"; "Гараж"; "Цонх"; "Хаалга"; "Цонхнытоо";
   "Барилгынявц"; "Ашиглалтандорсонон"; "Барилгындавхар";
   "Талбай"; "Хэдэндавхарт"; "Лизингээравахболомж"; "Дүүрэг";
   "Байршил"; "Үзсэн"; "Scraped_date"; "link"; "Үнэ";
   "ӨрөөнийТоо"; "Зарыг гарчиг"; "Зарын тайлбар"; "Нийтэлсэн";
   "ad_id"].

(** The element each extracted column is anchored on: the label of a
    characteristic, or the element of a special field. *)
Definition anchors : list (str * (str * criterion)) :=
  [("Шал", ("span", WithText "Шал:"));
   ("Тагт", ("span", WithText "Тагт:"));
   ("Гараж", ("span", WithText "Гараж:"));
   ("Цонх", ("span", WithText "Цонх:"));
   ("Хаалга", ("span", WithText "Хаалга:"));
   ("Цонхнытоо", ("span", WithText "Цонхны тоо:"));
   ("Барилгынявц", ("span", WithText "Барилгынявц"));
   ("Ашиглалтандорсонон", ("span", WithText "Ашиглалтандорсонон:"));
   ("Барилгындавхар", ("span", WithText "Барилгын давхар:"));
   ("Талбай", ("span", WithText "Талбай:"));
   ("Хэдэндавхарт", ("span", WithText "Хэдэн давхарт:"));
   ("Лизингээравахболомж", ("span", WithText "Лизингээравахболомж:"));
   ("Дүүрэг", ("span", WithAttr "itemprop" "address"));
   ("Байршил", ("span", WithAttr "itemprop" "address"));
   ("Үзсэн", ("span", WithClass "counter-views"));
   ("Үнэ", ("meta", WithAttr "itemprop" "price"));
   ("ӨрөөнийТоо", ("div", WithClass "wrap js-single-item__location"));
   ("Зарыг гарчиг", ("h1", WithClass "title-announcement"));
   ("Зарын тайлбар", ("div", WithClass "announcement-description"));
   ("Нийтэлсэн", ("span", WithClass "date-meta"))].

End Specification.

(** ** A sample site *)

Module Sample.
Import MiniSoup.

Definition base_url : str :=
  "https://www.unegui.mn/l-hdlh/l-hdlh-zarna/oron-suuts-zarna/".

(** A listing page with one masked link for every [href]. *)
Definition listing (hrefs : list str) : list node :=
  [Elem "ul" []
     (map (fun href =>
             Elem "li" []
               [Elem "a" [("class", "mask"); ("href", href)] []]) hrefs)].

(** The page of an ad with the given address line. *)
Definition ad_page (address : str) : list node :=
  [Elem "h1" [("class", "title-announcement")] [Text "2 өрөө байр"];
   Elem "span" [("itemprop", "address")] [Text address];
   Elem "meta" [("itemprop", "price"); ("content", "85000000.00")] [];
   Elem "ul" []
     [Elem "li" []
        [Elem "span" [] [Text "Шал:"]; Elem "span" [] [Text " Паркет "]];
      Elem "li" []
        [Elem "span" [] [Text "Талбай:"];
         Elem "span" []
           [Elem "a" [("class", "value-chars")] [Text "45 м²"]]]]].

Definition the_day : nat -> date := fun _ => Date 2026 11 3.

(** [read_csv] on the snapshots of the samples.  The file of a batch
    without rows has no columns, and [read_csv] raises on it; a cell
    "N/A" or "" is a missing value, which prints as "nan"; the other
    cells of the samples come back as they were written. *)
Definition read_cell (v : str) : str :=
  if bool_decide (v = "N/A") || bool_decide (v = []) then "nan" else v.

Definition pandas (rows : list row) : str + list row :=
  match rows with
  | [] => inl "No columns to parse from file"
  | _ :: _ => inr (map (map (fun kv => (kv.1, read_cell kv.2))) rows)
  end.

(** A site that is down. *)
Definition down : World (list node) :=
  {| net := fun _ _ => RequestException "timed out"; today := the_day;
     read_csv := pandas |}.

(** A site with two ads on its first listing page and none on the
    second. *)
Definition site (address : str) : World (list node) :=
  {| net := fun _ url =>
       if bool_decide (url = base_url) then Response (listing ["/adv/1/"; "/adv/2/"])
       else if bool_decide (url = base_url ++ "?page=2") then Response (listing [])
       else if bool_decide (url = "https://www.unegui.mn/adv/1/") then Response (ad_page address)
       else if bool_decide (url = "https://www.unegui.mn/adv/2/") then Response (ad_page address)
       else RequestException "404 Client Error";
     today := the_day;
     read_csv := pandas |}.

(** A site whose listing has 45 links while no ad page answers. *)
Definition links45 : list str :=
  map (fun n => "/adv/" ++ str_of_N (N.of_nat n) ++ "/") (seq 1 45).

Definition site45 : World (list node) :=
  {| net := fun _ url =>
       if bool_decide (url = base_url) then Response (listing links45)
       else RequestException "timed out";
     today := the_day;
     read_csv := pandas |}.

(** A site whose listing has one link, which ends with a space. *)
Definition spaced : World (list node) :=
  {| net := fun _ url =>
       if bool_decide (url = base_url) then Response (listing ["/adv/1/ "])
       else if bool_decide (url = "https://www.unegui.mn/adv/1/ ")
       then Response (ad_page "Chingeltei —  64th khoroolol, unit 5")
       else RequestException "404 Client Error";
     today := the_day;
     read_csv := pandas |}.

(** A scraper started in an empty directory, one that has seen the
    first ad, and one that finds an unreadable snapshot. *)
Definition fresh : state := init None ∅.

Definition ad1 : str := "https://www.unegui.mn/adv/1/".
Definition ad1_spaced : str := "https://www.unegui.mn/adv/1/ ".
Definition addr : str := "Chingeltei —  64th khoroolol, unit 5".

Definition seen : state := init (Some (ad1 ++ [10])) ∅.


Definition ifs : str -> option str := MiniSoup.int_float_str.

(** The record a call of [scrape_ad] returned. *)
Definition record_of (x : option row * state) : row := default [] x.1.

End Sample.

Import MiniSoup Sample.

(** ** The cache file, the batch and the store

    Notions in which the invariants of the run are stated. *)

(** The URL of a record. *)
Definition link_of (r : row) : str := default [] (dict_get "link" r).

(** The lines [save_scraped_url] writes for a list of URLs. *)
Definition cache_lines (urls : list str) : str :=
  flat_map (fun url => url ++ [10]) urls.

(** The set a scraper created now would load from the cache file. *)
Definition reloaded (s : state) : gset str :=
  scraped_urls (init (cache_file s) (files s)).

(** A URL that the cache file gives back as it was written: no white
    space at either end, no line break. *)
Definition clean (url : str) : Prop :=
  strip url = url ∧ (10 ∉ url) ∧ (13 ∉ url).

(** A cache file, possibly absent or empty, that ends a line. *)
Definition ends_line (content : str) : Prop :=
  content = [] ∨ last content = Some 10.

(** The batches of successive saves: each begins with the one before. *)
Fixpoint growing (batches : list (list row)) : Prop :=
  match batches with
  | a :: (b :: _) as rest => a `prefix_of` b ∧ growing rest
  | _ => True
  end.

(** The directory after a list of writes. *)
Definition replay (ws : list (str * list row)) (dir : gmap str file)
  : gmap str file :=
  foldl (fun m w => <[w.1 := Csv w.2]> m) dir ws.

Section Advertised.

Context {html tag : Type} `{!Soup html tag}.

(** [link] is the [href] of an ad anchor of a page the site serves, at
    some instant, at [url], and the parser takes. *)
Definition advertised (W : World html) (url link : str) : Prop :=
  ∃ t text a,
    net W t url = Response text
    ∧ a ∈ tag_find_all (BeautifulSoup text) "a" (WithClass "mask")
    ∧ dict_get "href" (tag_attrs a) = Some link
    ∧ parser_error text = None.

End Advertised.

(** The requests of a loop over [urls] that sends [counts !! i] requests
    for the URL [urls !! i], one URL after the other, and none for the
    URLs past the end of [counts]. *)
Definition requests_for (counts : list nat) (urls : list str) : list str :=
  concat (zip_with replicate counts urls).

(** The columns whose value is the result of [strip()]. *)
Definition stripped_columns : list str := take 14 columns ++ ["ӨрөөнийТоо"].

(** The code points [str.encode()] accepts: all but the surrogates. *)
Definition encodable (c : N) : Prop :=
  c < 0xD800 ∨ (0xDFFF < c ∧ c < 0x110000).

(** A lower-case hexadecimal digit. *)
Definition is_hex (c : N) : Prop := (48 <= c ∧ c <= 57) ∨ (97 <= c ∧ c <= 102).

(** The dates [strftime] prints with a four-digit year. *)
Definition valid_date (d : date) : Prop :=
  (1000 <= year d ∧ year d <= 9999) ∧ (1 <= month d ∧ month d <= 12)
  ∧ (1 <= day d ∧ day d <= 31).

(** The order of the calendar. *)
Definition date_lt (d1 d2 : date) : Prop :=
  year d1 < year d2
  ∨ (year d1 = year d2
     ∧ (month d1 < month d2 ∨ (month d1 = month d2 ∧ day d1 < day d2))).

(** A field of [strftime]: the number on [width] digits. *)
Definition field (width : nat) (n : N) : str := zero_pad width (str_of_N n).

(** Two consecutive numbers have fields of [width] characters, in
    order. *)
Definition increases_at (width : nat) (n : N) : bool :=
  (length (field width n) =? width)%nat
  && (length (field width (n + 1)) =? width)%nat
  && str_ltb (field width n) (field width (n + 1)).

(** So it is for [lo], ..., [lo + count - 1]. *)
Definition fields_increase (width : nat) (lo count : N) : bool :=
  N.peano_rect (fun _ => bool) true
    (fun k acc => acc && increases_at width (lo + k)) count.

(** ** The dashboard's reading of the location column (app.py)

    The three helpers [load_data] applies to the column "Байршил" of
    the snapshot.  A cell of the column is a text or a missing value,
    for which [pd.isna] holds; a result is a text or [None]. *)
Module Dashboard.

(** [extract_location_details]: the pair of the [pd.Series]. *)
Definition extract_location_details (location : option str)
  : option str * option str :=
  match location with
  | None => (None, None)
  | Some location =>
    let parts := split "," location in
    let district :=
      match parts with
      | [] => None
      | _ :: _ => strip <$> parts !! 0%nat
      end in
    let subdistrict :=
      if decide (1 < length parts)%nat then strip <$> parts !! 1%nat else None in
    (district, subdistrict)
  end.

(** [extract_primary_district]; [inl IndexError] is [parts[0]] on an
    empty list. *)
Definition extract_primary_district (location : option str)
  : exn + option str :=
  match location with
  | None => inr None
  | Some location =>
    match split "," location !! 0%nat with
    | Some part => inr (Some (strip part))
    | None => inl IndexError
    end
  end.

(** [clean_sub_district] *)
Definition clean_sub_district (location : option str) : option str :=
  match location with
  | None => None
  | Some location =>
    let parts := split "," location in
    if decide (1 < length parts)%nat then strip <$> last parts else None
  end.

End Dashboard.

(** ** Further samples *)

Module Trials.

(** A site whose first two answers are failures. *)
Definition flaky : World (list node) :=
  {| net := fun t url =>
       if (t <? 2)%nat then RequestException "timed out"
       else net (site addr) t url;
     today := the_day;
     read_csv := pandas |}.

Definition ad2 : str := "https://www.unegui.mn/adv/2/".

(** The sample site with [<![x]>] at the end of every page: a marked
    section of a kind that [html.parser] does not know, and raises on. *)
Definition garbled : World (list node) :=
  {| net := fun t url =>
       match net (site addr) t url with
       | Response page =>
         Response
           (page ++ [Broken "unknown status keyword 'x' in marked section"])
       | RequestException cause => RequestException cause
       end;
     today := the_day;
     read_csv := pandas |}.

(** A directory with the snapshots of two days. *)
Definition two_days : state :=
  State ∅ None
        {["unegui_sales_data_20261102.csv" := Csv [[("link", ad1)]];
          "unegui_sales_data_20261103.csv"
            := Csv [[("link", ad1)]; [("link", ad2)]]]}
        [] [] [] 0.

End Trials.

Import Trials.

(** ** The definitions on concrete inputs *)

Example literal_ascii : "N/A" = [78; 47; 65].
Proof. reflexivity. Qed.
Example literal_cyrillic : "Шал:" = [1064; 1072; 1083; 58].
Proof. reflexivity. Qed.
Example literal_emdash : "—" = [8212].
Proof. reflexivity. Qed.
Example split_emdash :
  split "—" "Chingeltei —  64th khoroolol, unit 5"
  = ["Chingeltei "; "  64th khoroolol, unit 5"].
Proof. reflexivity. Qed.
Example strip_ex : strip "  64th khoroolol, unit 5 " = "64th khoroolol, unit 5".
Proof. reflexivity. Qed.
Example replace_ex : replace "ab" "X" "aababab" = "aXXX".
Proof. reflexivity. Qed.
Example str_of_N_ex : str_of_N 2026 = "2026" /\ str_of_N 0 = "0" /\ str_of_N 10 = "10".
Proof. repeat split; reflexivity. Qed.
Example md5_empty :
  Hash.hexdigest (Hash.md5 []) = "d41d8cd98f00b204e9800998ecf8427e".
Proof. vm_compute. reflexivity. Qed.
Example md5_abc :
  (Hash.hexdigest ∘ Hash.md5) <$> Hash.encode "abc"
  = Some "900150983cd24fb0d6963f7d28e17f72".
Proof. vm_compute. reflexivity. Qed.
Example md5_utf8 :
  (Hash.hexdigest ∘ Hash.md5) <$> Hash.encode "Шал—"
  = Some "dbe2fd43b8f1fea7d1948ca291adfffb".
Proof. vm_compute. reflexivity. Qed.
Example md5_two_blocks :
  (Hash.hexdigest ∘ Hash.md5) <$> Hash.encode (repeat 97 120)
  = Some "5f61c0ccad4cac44c75ff505e1f1e537".
Proof. vm_compute. reflexivity. Qed.
Example md5_56 :
  (Hash.hexdigest ∘ Hash.md5) <$> Hash.encode (repeat 97 56)
  = Some "3b0c8ac703f828b04c6c197006d17218".
Proof. vm_compute. reflexivity. Qed.
Example readlines_ex :
  TextIO.readlines ("a" ++ [13; 10] ++ "b" ++ [10; 10] ++ "c")
  = ["a" ++ [10]; "b" ++ [10]; [10]; "c"].
Proof. reflexivity. Qed.
Example strftime_ex :
  strftime_Ymd (Date 2026 3 7) = "20260307"
  /\ strftime_dmY (Date 2026 3 7) = "07/03/2026".
Proof. split; reflexivity. Qed.

(** The record of the first ad of the sample site. *)
Example sample_record :
  (scrape_ad ifs (site addr) ad1 fresh).1
  = Some
      [("Шал", "Паркет"); ("Тагт", "N/A"); ("Гараж", "N/A");
       ("Цонх", "N/A"); ("Хаалга", "N/A"); ("Цонхнытоо", "N/A");
       ("Барилгынявц", "N/A"); ("Ашиглалтандорсонон", "N/A");
       ("Барилгындавхар", "N/A"); ("Талбай", "45 м²");
       ("Хэдэндавхарт", "N/A"); ("Лизингээравахболомж", "N/A");
       ("Дүүрэг", "Chingeltei"); ("Байршил", "64th khoroolol, unit 5");
       ("Үзсэн", "N/A"); ("Scraped_date", "03/11/2026");
       ("link", "https://www.unegui.mn/adv/1/"); ("Үнэ", "85000000");
       ("ӨрөөнийТоо", "N/A"); ("Зарыг гарчиг", "2 өрөө байр");
       ("Зарын тайлбар", "N/A"); ("Нийтэлсэн", "N/A");
       ("ad_id", "0e5e304352551f88d25fe9218c8dc20b")].
Proof. vm_compute. reflexivity. Qed.

(** A run on the sample site: two listing pages, two ads, one save. *)
Example sample_run :
  requests (run ifs (site addr) base_url 5 fresh).2
  = [base_url; base_url ++ "?page=2";
     "https://www.unegui.mn/adv/1/"; "https://www.unegui.mn/adv/2/"]
  /\ log (run ifs (site addr) base_url 5 fresh).2
     = [(INFO, ScrapingPage 1); (INFO, FoundLinksOnPage 2 base_url);
        (INFO, ScrapingPage 2);
        (INFO, FoundLinksOnPage 0 (base_url ++ "?page=2"));
        (INFO, NoMoreLinks); (INFO, FoundLinks 2);
        (INFO, ScrapingAd 1 2 "https://www.unegui.mn/adv/1/");
        (INFO, ScrapingAd 2 2 "https://www.unegui.mn/adv/2/");
        (INFO, Saved "unegui_sales_data_20261103.csv" 2);
        (INFO, Completed 2)]
  /\ cache_file (run ifs (site addr) base_url 5 fresh).2
     = Some ("https://www.unegui.mn/adv/1/" ++ [10]
             ++ "https://www.unegui.mn/adv/2/" ++ [10]).
Proof. repeat split; vm_compute; reflexivity. Qed.

(** An address without an em-dash. *)
Example address_without_em_dash :
  dict_get "Дүүрэг" (record_of (scrape_ad ifs (site "Sukhbaatar") ad1 fresh))
  = Some "N/A"
  /\ dict_get "Байршил" (record_of (scrape_ad ifs (site "Sukhbaatar") ad1 fresh))
     = Some "N/A".
Proof. split; vm_compute; reflexivity. Qed.

(** The location columns the dashboard derives from the location of
    the sample ad, from a location in three parts, and from a missing
    value. *)
Example location_columns_ex :
  Dashboard.extract_location_details (Some "64th khoroolol, unit 5")
  = (Some "64th khoroolol", Some "unit 5")
  /\ Dashboard.extract_location_details (Some "Хан-Уул, 19-р хороолол , Зайсан")
     = (Some "Хан-Уул", Some "19-р хороолол")
  /\ Dashboard.clean_sub_district (Some "Хан-Уул, 19-р хороолол , Зайсан")
     = Some "Зайсан"
  /\ Dashboard.extract_primary_district (Some " Баянзүрх ") = inr (Some "Баянзүрх")
  /\ Dashboard.clean_sub_district (Some " Баянзүрх ") = None
  /\ Dashboard.extract_location_details None = (None, None).
Proof. repeat split; vm_compute; reflexivity. Qed.

(** The site that fails twice answers the third request; the warnings
    carry the backoffs 1 and 2. *)
Example flaky_request :
  make_request flaky ad1 0 fresh
  = (Some (ad_page addr),
     State ∅ None ∅
       [(WARNING, Retrying ad1 "timed out" 1);
        (WARNING, Retrying ad1 "timed out" 2)]
       [ad1; ad1; ad1] [] 3).
Proof. vm_compute. reflexivity. Qed.

(** The lines of the cache file for the two sample ads, and the page
    number read back from the address of page 12. *)
Example rejected_pages :
  (scrape_ad ifs garbled ad1 fresh).1 = None
  ∧ cache_file (scrape_ad ifs garbled ad1 fresh).2 = None
  ∧ scraped_urls (scrape_ad ifs garbled ad1 fresh).2 = ∅
  ∧ log (scrape_ad ifs garbled ad1 fresh).2
    = [(ERROR, AdError ad1
                 (ParserError "unknown status keyword 'x' in marked section"))]
  ∧ requests (scrape_ad ifs garbled ad1 (scrape_ad ifs garbled ad1 fresh).2).2
    = [ad1; ad1]
  ∧ (scrape_page garbled base_url fresh).1 = []
  ∧ log (scrape_page garbled base_url fresh).2
    = [(ERROR, PageError base_url
                 (ParserError "unknown status keyword 'x' in marked section"))].
Proof. repeat split; vm_compute; reflexivity. Qed.
Example cache_lines_ex :
  cache_lines [ad1; ad2]
  = "https://www.unegui.mn/adv/1/" ++ [10]
    ++ "https://www.unegui.mn/adv/2/" ++ [10]
  /\ page_url base_url 12 = base_url ++ "?page=12"
  /\ number (drop (length (base_url ++ "?page=")) (page_url base_url 12)) = 12.
Proof. repeat split; vm_compute; reflexivity. Qed.

(** * Properties *)

(** Equalities and memberships between literals, by evaluation. *)
Ltac literals := apply (bool_decide_unpack _); vm_compute; exact I.

(** ** Facts on strings *)

Section Strings.

Lemma startswith_single (c : N) (s : str) :
  startswith s [c] = match s with d :: _ => c =? d | [] => false end.
Proof. destruct s; simpl; [reflexivity | apply andb_true_r]. Qed.

Lemma contains_single (c : N) (s : str) : contains [c] s = true <-> c ∈ s.
Proof.
  induction s as [|d s IH]; simpl.
  - split; [discriminate | intros H; inversion H].
  - rewrite andb_true_r, orb_true_iff, IH, N.eqb_eq, elem_of_cons. tauto.
Qed.

Lemma split_go_single_last (c : N) (a cur : str) :
  c ∉ a -> split_go [c] 0 cur a = [rev cur ++ a].
Proof.
  revert cur. induction a as [|d a IH]; intros cur Hc; simpl.
  - by rewrite app_nil_r.
  - apply not_elem_of_cons in Hc as [Hd Ha].
    rewrite andb_true_r. destruct (N.eqb_spec c d) as [->|_]; [done|].
    rewrite IH by done. simpl. by rewrite <- app_assoc.
Qed.

Lemma split_go_single_cut (c : N) (a cur rest : str) :
  c ∉ a ->
  split_go [c] 0 cur (a ++ c :: rest) = (rev cur ++ a) :: split_go [c] 0 [] rest.
Proof.
  revert cur. induction a as [|d a IH]; intros cur Hc; simpl.
  - by rewrite N.eqb_refl, app_nil_r.
  - apply not_elem_of_cons in Hc as [Hd Ha].
    rewrite andb_true_r. destruct (N.eqb_spec c d) as [->|_]; [done|].
    rewrite IH by done. simpl. by rewrite <- app_assoc.
Qed.

(** The parts of a text around its first separator, and up to the next. *)
Lemma split_single_first (c : N) (a rest : str) :
  c ∉ a -> ∃ parts, split [c] (a ++ c :: rest) = a :: parts
                    ∧ parts = split [c] rest.
Proof. intros Hc. eexists. unfold split. by rewrite split_go_single_cut. Qed.

Lemma lstrip_length (s : str) : (length (lstrip s) <= length s)%nat.
Proof. induction s as [|c s IH]; simpl; [lia|]. destruct (isspace c); simpl; lia. Qed.

Lemma lstrip_fixed (s : str) :
  lstrip s = s <-> match s with c :: _ => isspace c = false | [] => True end.
Proof.
  destruct s as [|c s]; simpl; [tauto|].
  destruct (isspace c) eqn:E; [|tauto].
  split; [|discriminate]. intros H.
  pose proof (lstrip_length s) as Hl. rewrite H in Hl. simpl in Hl. lia.
Qed.

Lemma strip_fixed (s : str) : strip s = s -> lstrip s = s ∧ rstrip s = s.
Proof.
  unfold strip, rstrip. intros H.
  assert (length (lstrip s) = length s) as Hlen.
  { apply Nat.le_antisymm; [apply lstrip_length|].
    rewrite <- H at 1. rewrite length_rev.
    etrans; [apply lstrip_length|]. by rewrite length_rev. }
  assert (lstrip s = s) as Hl.
  { destruct s as [|c s]; [done|]. simpl in *.
    destruct (isspace c); [|done].
    pose proof (lstrip_length s). lia. }
  split; [done|]. by rewrite Hl in H.
Qed.

(** A line read back from a file: the newline goes, the rest stays. *)
Lemma strip_line (u : str) : strip u = u -> strip (u ++ [10]) = u.
Proof.
  intros H. apply strip_fixed in H as [Hl Hr].
  destruct u as [|c u]; [done|].
  apply lstrip_fixed in Hl.
  unfold strip. replace (lstrip ((c :: u) ++ [10])) with ((c :: u) ++ [10])
    by (simpl; by rewrite Hl).
  unfold rstrip in *. rewrite rev_app_distr. simpl rev at 1. simpl app.
  simpl lstrip. exact Hr.
Qed.

End Strings.

(** ** Facts on text files *)

Section Lines.
Import TextIO.

Lemma universal_newlines_cons (c : N) (s : str) :
  universal_newlines (c :: s)
  = if c =? 13 then
      match s with
      | d :: s' => if d =? 10 then 10 :: universal_newlines s'
                   else 10 :: universal_newlines s
      | [] => [10]
      end
    else c :: universal_newlines s.
Proof. reflexivity. Qed.

Lemma universal_newlines_app (old rest : str) :
  last old = Some 10 ->
  universal_newlines (old ++ rest) = universal_newlines old ++ universal_newlines rest.
Proof.
  remember (length old) as n eqn:Hn. revert old Hn.
  induction (lt_wf n) as [n _ IH]. intros old -> Hlast.
  assert (forall o, (length o < length old)%nat -> last o = Some 10 ->
            universal_newlines (o ++ rest)
            = universal_newlines o ++ universal_newlines rest) as Hrec
    by (intros o Ho Hl; by eapply IH).
  clear IH.
  destruct old as [|c [|d old]]; [done| |].
  { simpl in Hlast. injection Hlast as ->. reflexivity. }
  rewrite last_cons_cons in Hlast.
  change ((c :: d :: old) ++ rest) with (c :: (d :: old) ++ rest).
  rewrite (universal_newlines_cons c ((d :: old) ++ rest)).
  rewrite (universal_newlines_cons c (d :: old)).
  rewrite (Hrec (d :: old)) by (simpl; lia || done).
  destruct (c =? 13); [|done].
  change ((d :: old) ++ rest) with (d :: (old ++ rest)). cbv iota.
  destruct (d =? 10); [|done].
  destruct old as [|e old]; [reflexivity|].
  rewrite last_cons_cons in Hlast.
  rewrite Hrec; [done|simpl; lia|done].
Qed.

Lemma universal_newlines_last (old : str) :
  last old = Some 10 -> last (universal_newlines old) = Some 10.
Proof.
  remember (length old) as n eqn:Hn. revert old Hn.
  induction (lt_wf n) as [n _ IH]. intros old -> Hlast.
  assert (forall o, (length o < length old)%nat -> last o = Some 10 ->
            last (universal_newlines o) = Some 10) as Hrec
    by (intros o Ho Hl; by eapply IH).
  clear IH.
  destruct old as [|c [|d old]]; [done| |].
  { simpl in Hlast. injection Hlast as ->. reflexivity. }
  rewrite last_cons_cons in Hlast.
  rewrite (universal_newlines_cons c (d :: old)).
  assert (last (universal_newlines (d :: old)) = Some 10) as Hd
    by (apply Hrec; [simpl; lia|done]).
  assert (forall x, last (x :: universal_newlines (d :: old)) = Some 10) as Hd'.
  { intros x. rewrite last_cons. by rewrite Hd. }
  destruct (c =? 13); [|done].
  destruct (d =? 10); [|done].
  destruct old as [|e old]; [done|].
  rewrite last_cons_cons in Hlast.
  rewrite last_cons, Hrec; [done|simpl; lia|done].
Qed.

Lemma universal_newlines_id (u : str) : 13 ∉ u -> universal_newlines u = u.
Proof.
  induction u as [|c u IH]; [done|]. intros [Hc Hu]%not_elem_of_cons.
  rewrite universal_newlines_cons. destruct (N.eqb_spec c 13); [congruence|].
  by rewrite IH.
Qed.

Lemma lines_go_app (x y cur : str) :
  last x = Some 10 -> lines_go cur (x ++ y) = lines_go cur x ++ lines_go [] y.
Proof.
  revert cur. induction x as [|c x IH]; intros cur Hlast; [done|].
  destruct x as [|d x].
  - simpl in Hlast. injection Hlast as ->. reflexivity.
  - rewrite last_cons_cons in Hlast.
    change ((c :: d :: x) ++ y) with (c :: ((d :: x) ++ y)).
    cbn [lines_go]. destruct (c =? 10); rewrite IH by done; reflexivity.
Qed.

Lemma lines_go_line (u cur : str) :
  10 ∉ u -> lines_go cur (u ++ [10]) = [rev cur ++ u ++ [10]].
Proof.
  revert cur. induction u as [|c u IH]; intros cur Hu.
  - reflexivity.
  - apply not_elem_of_cons in Hu as [Hc Hu]. simpl.
    destruct (N.eqb_spec c 10); [congruence|].
    rewrite IH by done. simpl. by rewrite <- app_assoc.
Qed.

Lemma readlines_app (old rest : str) :
  last old = Some 10 -> readlines (old ++ rest) = readlines old ++ readlines rest.
Proof.
  intros H. unfold readlines. rewrite universal_newlines_app by done.
  apply lines_go_app. by apply universal_newlines_last.
Qed.

Lemma readlines_line (u : str) :
  10 ∉ u -> 13 ∉ u -> readlines (u ++ [10]) = [u ++ [10]].
Proof.
  intros H10 H13. unfold readlines.
  rewrite universal_newlines_id.
  - by rewrite lines_go_line.
  - rewrite elem_of_app, list_elem_of_singleton. intros [?|?]; [done|lia].
Qed.

(** A URL written on a line of its own is read back as it is, whatever
    is written after it. *)
Lemma cache_line_read (old u extra : str) :
  old = [] ∨ last old = Some 10 ->
  strip u = u -> 10 ∉ u -> 13 ∉ u ->
  u ∈ map strip (readlines (old ++ u ++ [10] ++ extra)).
Proof.
  intros Hold Hs H10 H13.
  assert (readlines ((u ++ [10]) ++ extra) = (u ++ [10]) :: readlines extra) as E.
  { rewrite readlines_app by apply last_snoc. by rewrite readlines_line. }
  rewrite (app_assoc u). 
  destruct Hold as [->|Hold].
  - simpl app. rewrite E. simpl. rewrite strip_line by done. left.
  - rewrite readlines_app by done. rewrite E, map_app. simpl.
    rewrite strip_line by done. apply elem_of_app. right. left.
Qed.

End Lines.

(** ** Facts on records *)

Section Dicts.

Lemma dict_get_set_eq (k v : str) (d : row) : dict_get k (dict_set k v d) = Some v.
Proof.
  induction d as [|[k' v'] d IH]; simpl.
  - by rewrite decide_True.
  - destruct (decide (k' = k)) as [->|Hne]; simpl.
    + by rewrite decide_True.
    + by rewrite decide_False.
Qed.

Lemma dict_get_set_ne (k k0 v : str) (d : row) :
  k0 ≠ k -> dict_get k (dict_set k0 v d) = dict_get k d.
Proof.
  intros Hne. induction d as [|[k' v'] d IH]; simpl.
  - by rewrite decide_False.
  - destruct (decide (k' = k0)) as [->|Hne']; simpl.
    + by rewrite !decide_False.
    + destruct (decide (k' = k)); done.
Qed.

Lemma keys_dict_set (k v : str) (d : row) :
  k ∈ keys d -> keys (dict_set k v d) = keys d.
Proof.
  unfold keys. induction d as [|[k' v'] d IH]; simpl.
  - intros H; inversion H.
  - intros H. destruct (decide (k' = k)) as [->|Hne]; simpl; [done|].
    f_equal. apply IH. apply elem_of_cons in H as [?|?]; [congruence|done].
Qed.

End Dicts.

(** ** Facts on the methods *)

Section Methods.

Context {html tag : Type} `{!Soup html tag}.
Variable int_float_str : str -> option str.

Lemma only_fetches_refl url s : only_fetches url s s.
Proof. repeat split. exists O. by rewrite app_nil_r. Qed.

Lemma only_fetches_trans url s1 s2 s3 :
  only_fetches url s1 s2 -> only_fetches url s2 s3 -> only_fetches url s1 s3.
Proof.
  intros (?&?&?&?&k1&E1) (?&?&?&?&k2&E2). repeat split; try congruence.
  exists (k1 + k2)%nat. by rewrite E2, E1, replicate_add, app_assoc.
Qed.

Lemma only_fetches_logged url l m s : only_fetches url s (logged l m s).
Proof. repeat split. exists O. simpl. by rewrite app_nil_r. Qed.

Lemma only_fetches_ticked url s : only_fetches url s (ticked s).
Proof. repeat split. exists O. simpl. by rewrite app_nil_r. Qed.

Lemma only_fetches_fetched url s : only_fetches url s (fetched url s).
Proof. repeat split. by exists 1%nat. Qed.

Lemma make_request_ok (W : World html) url rc s text :
  net W (clock s) url = Response text ->
  make_request W url rc s = (Some text, fetched url s).
Proof.
  intros E. rewrite make_request_equation_1. unfold session_get.
  rewrite E. reflexivity.
Qed.

Lemma make_request_retry (W : World html) url rc s e :
  net W (clock s) url = RequestException e ->
  (rc < MAX_RETRIES)%nat ->
  make_request W url rc s
  = make_request W url (rc + 1)
      (logged WARNING (Retrying url e (2 ^ N.of_nat rc)) (fetched url s)).
Proof.
  intros E Hlt. rewrite make_request_equation_1. unfold session_get.
  rewrite E. simpl.
  destruct (decide (rc < MAX_RETRIES)%nat); [reflexivity | lia].
Qed.

Lemma make_request_give_up (W : World html) url rc s e :
  net W (clock s) url = RequestException e ->
  ¬ (rc < MAX_RETRIES)%nat ->
  make_request W url rc s
  = (None, logged ERROR (FailedToRetrieve url MAX_RETRIES e) (fetched url s)).
Proof.
  intros E Hlt. rewrite make_request_equation_1. unfold session_get.
  rewrite E. simpl.
  destruct (decide (rc < MAX_RETRIES)%nat); [lia | reflexivity].
Qed.

Lemma make_request_only_fetches (W : World html) url rc s :
  only_fetches url s (make_request W url rc s).2.
Proof.
  remember (MAX_RETRIES - rc)%nat as n eqn:Hn. revert rc s Hn.
  induction n as [|n IH]; intros rc s Hn.
  - destruct (net W (clock s) url) as [text|e] eqn:E.
    + rewrite (make_request_ok _ _ _ _ _ E). apply only_fetches_fetched.
    + rewrite (make_request_give_up _ _ _ _ _ E) by lia. simpl.
      eapply only_fetches_trans; [apply only_fetches_fetched|].
      apply only_fetches_logged.
  - destruct (net W (clock s) url) as [text|e] eqn:E.
    + rewrite (make_request_ok _ _ _ _ _ E). apply only_fetches_fetched.
    + rewrite (make_request_retry _ _ _ _ _ E) by lia.
      eapply only_fetches_trans; [apply only_fetches_fetched|].
      eapply only_fetches_trans; [apply only_fetches_logged|].
      apply IH. lia.
Qed.

Lemma make_request_always_failing (W : World html) url s (cause : nat -> str) :
  (forall t, net W t url = RequestException (cause t)) ->
  make_request W url 0 s
  = (None,
     logged ERROR (FailedToRetrieve url MAX_RETRIES (cause (clock s + 3)%nat))
       (fetched url
         (logged WARNING (Retrying url (cause (clock s + 2)%nat) 4)
           (fetched url
             (logged WARNING (Retrying url (cause (clock s + 1)%nat) 2)
               (fetched url
                 (logged WARNING (Retrying url (cause (clock s)) 1)
                   (fetched url s)))))))).
Proof.
  intros Hfail.
  rewrite (make_request_retry W url 0 s (cause (clock s)))
    by (apply Hfail || (unfold MAX_RETRIES; lia)).
  rewrite (make_request_retry W url _ _ (cause (clock s + 1)%nat));
    [|simpl; replace (S (clock s)) with (clock s + 1)%nat by lia; apply Hfail
     |unfold MAX_RETRIES; lia].
  rewrite (make_request_retry W url _ _ (cause (clock s + 2)%nat));
    [|simpl; replace (S (S (clock s))) with (clock s + 2)%nat by lia; apply Hfail
     |unfold MAX_RETRIES; simpl; lia].
  rewrite (make_request_give_up W url _ _ (cause (clock s + 3)%nat));
    [|simpl; replace (S (S (S (clock s)))) with (clock s + 3)%nat by lia;
      apply Hfail
     |unfold MAX_RETRIES; simpl; lia].
  reflexivity.
Qed.

(** *** [scrape_ad] *)

Lemma scrape_ad_cached (W : World html) url s :
  url ∈ scraped_urls s ->
  scrape_ad int_float_str W url s = (None, logged INFO (SkippingScraped url) s).
Proof.
  intros Hin. unfold scrape_ad, bind, get_state. simpl.
  by rewrite decide_True.
Qed.

(** A separator that occurs in a text cuts it in two parts at least. *)
Lemma split_go_not_nil (sep : str) skip cur (t : str) : split_go sep skip cur t ≠ [].
Proof.
  revert skip cur. induction t as [|c t IH]; intros skip cur; simpl; [done|].
  destruct skip; [|apply IH]. destruct (startswith _ _); [done|apply IH].
Qed.

Lemma split_emdash_parts (t : str) :
  contains "—" t = true ->
  ∃ part0 part1 parts, split "—" t = part0 :: part1 :: parts.
Proof.
  change "—" with [8212]. intros Hc%contains_single.
  apply list_elem_of_split_l in Hc as (a & rest & -> & Ha).
  destruct (split_single_first 8212 a rest Ha) as (parts & E & ->).
  rewrite E. pose proof (split_go_not_nil [8212] 0 [] rest) as Hne.
  unfold split. destruct (split_go [8212] 0 [] rest); [done|eauto].
Qed.

Lemma handle_address_state soup url ad_data s :
  (handle_address soup url ad_data s).2 = s.
Proof.
  unfold handle_address.
  destruct (tag_find soup _ _) as [address|]; [|done].
  destruct (contains _ _) eqn:Hc; [|done].
  destruct (split_emdash_parts _ Hc) as (p0 & p1 & ps & ->). done.
Qed.

Lemma scrape_ad_inv (W : World html) url s r s' :
  scrape_ad int_float_str W url s = (Some r, s') ->
  (url ∉ scraped_urls s) ∧
  ∃ text s1 ad_id,
    make_request W url 0 s = (Some text, s1)
    ∧ generate_ad_id s url = Some ad_id
    ∧ r = extract_rest int_float_str (BeautifulSoup text)
            (handle_address (BeautifulSoup text) url
               (ad_data_init (BeautifulSoup text) url
                  (strftime_dmY (today W (clock s1))) ad_id) (ticked s1)).1
    ∧ s' = cached url (ticked s1)
    ∧ parser_error text = None.
Proof.
  unfold scrape_ad, bind, get_state. simpl.
  destruct (decide (url ∈ scraped_urls s)) as [|Hnin]; [done|].
  destruct (make_request W url 0 s) as [[text|] s1] eqn:Hreq; [|done].
  destruct (parser_error text) as [e|] eqn:Hparse; [done|].
  unfold date_today. simpl.
  destruct (generate_ad_id s url) as [ad_id|] eqn:Hid; [|done].
  pose proof (handle_address_state (BeautifulSoup text) url
    (ad_data_init (BeautifulSoup text) url (strftime_dmY (today W (clock s1))) ad_id)
    (ticked s1)) as Hs.
  destruct (handle_address _ _ _ _) as [r0 s2] eqn:Hh. simpl in Hs. subst s2.
  unfold save_scraped_url, ret. intros [= <- <-].
  split; [done|]. exists text, s1, ad_id. by rewrite Hh.
Qed.

(** A page the parser raises on: the error is logged, no record comes
    back and the URL is not cached. *)
Lemma scrape_ad_rejected (W : World html) url s text s1 e :
  url ∉ scraped_urls s ->
  make_request W url 0 s = (Some text, s1) ->
  parser_error text = Some e ->
  scrape_ad int_float_str W url s
  = (None, logged ERROR (AdError url (ParserError e)) s1).
Proof.
  intros Hnin Hreq Hparse. unfold scrape_ad, bind, get_state. simpl.
  rewrite decide_False by done. by rewrite Hreq, Hparse.
Qed.

(** Conversely: once the page is fetched and parsed and the URL
    encodes, whatever the page holds, a record comes back and the URL
    is cached. *)
Lemma scrape_ad_success (W : World html) url s text s1 ad_id :
  url ∉ scraped_urls s ->
  make_request W url 0 s = (Some text, s1) ->
  parser_error text = None ->
  generate_ad_id s url = Some ad_id ->
  scrape_ad int_float_str W url s
  = (Some (extract_rest int_float_str (BeautifulSoup text)
             (handle_address (BeautifulSoup text) url
                (ad_data_init (BeautifulSoup text) url
                   (strftime_dmY (today W (clock s1))) ad_id) (ticked s1)).1),
     cached url (ticked s1)).
Proof.
  intros Hnin Hreq Hparse Hid. unfold scrape_ad, bind, get_state. simpl.
  rewrite decide_False by done. rewrite Hreq, Hparse. unfold date_today.
  simpl. rewrite Hid.
  pose proof (handle_address_state (BeautifulSoup text) url
    (ad_data_init (BeautifulSoup text) url (strftime_dmY (today W (clock s1))) ad_id)
    (ticked s1)) as Hs.
  destruct (handle_address _ _ _ _) as [r0 s2]. simpl in Hs. by subst s2.
Qed.

(** *** Records *)

Lemma get_text_value_absent soup key :
  tag_find soup "span" (WithText key) = None -> get_text_value soup key = NA.
Proof. unfold get_text_value. by intros ->. Qed.

Lemma get_value_chars_absent soup key :
  tag_find soup "span" (WithText key) = None -> get_value_chars soup key = NA.
Proof. unfold get_value_chars. by intros ->. Qed.

Lemma keys_ad_data_init soup url scraped_date ad_id :
  keys (ad_data_init soup url scraped_date ad_id) = columns.
Proof. reflexivity. Qed.

Lemma keys_dict_set_columns k v d :
  keys d = columns -> k ∈ columns -> keys (dict_set k v d) = columns.
Proof. intros E Hk. rewrite keys_dict_set; [done|by rewrite E]. Qed.

Lemma keys_handle_address soup url d s :
  keys d = columns -> keys (handle_address soup url d s).1 = columns.
Proof.
  intros E. unfold handle_address.
  destruct (tag_find _ _ _); [|done].
  destruct (contains _ _); [|done].
  destruct (_ !! 0%nat); [|done].
  destruct (_ !! 1%nat); simpl;
    repeat (apply keys_dict_set_columns; [|literals]); done.
Qed.

Lemma keys_extract_rest soup d :
  keys d = columns -> keys (extract_rest int_float_str soup d) = columns.
Proof.
  intros E. unfold extract_rest.
  repeat match goal with
  | |- context [tag_find ?a ?b ?c] => destruct (tag_find a b c)
  | |- context [last ?l] => destruct (last l)
  end;
  repeat (apply keys_dict_set_columns; [|literals]); done.
Qed.

Lemma handle_address_get_other k soup url d s :
  "Дүүрэг" ≠ k -> "Байршил" ≠ k ->
  dict_get k (handle_address soup url d s).1 = dict_get k d.
Proof.
  intros H1 H2. unfold handle_address.
  destruct (tag_find _ _ _); [|done].
  destruct (contains _ _); [|done].
  destruct (_ !! 0%nat); [|done].
  destruct (_ !! 1%nat); simpl; by rewrite !dict_get_set_ne.
Qed.

Lemma handle_address_absent k soup url d s :
  tag_find soup "span" (WithAttr "itemprop" "address") = None ->
  dict_get k (handle_address soup url d s).1 = dict_get k d.
Proof. unfold handle_address. by intros ->. Qed.

Lemma extract_rest_get_other k soup d :
  "Үзсэн" ≠ k -> "Үнэ" ≠ k -> "ӨрөөнийТоо" ≠ k ->
  "Зарыг гарчиг" ≠ k -> "Зарын тайлбар" ≠ k -> "Нийтэлсэн" ≠ k ->
  dict_get k (extract_rest int_float_str soup d) = dict_get k d.
Proof.
  intros. unfold extract_rest.
  repeat match goal with
  | |- context [tag_find ?a ?b ?c] => destruct (tag_find a b c)
  | |- context [last ?l] => destruct (last l)
  end; by rewrite ?dict_get_set_ne.
Qed.

Ltac absent_field H :=
  unfold extract_rest; rewrite H;
  repeat match goal with
  | |- context [tag_find ?a ?b ?c] => destruct (tag_find a b c)
  | |- context [last ?l] => destruct (last l)
  end; rewrite ?dict_get_set_ne by literals; reflexivity.

Lemma extract_rest_absent col name c soup d :
  (col, (name, c)) ∈ drop 14 anchors ->
  tag_find soup name c = None ->
  dict_get col (extract_rest int_float_str soup d) = dict_get col d.
Proof.
  intros Hin Habs. unfold anchors in Hin. simpl drop in Hin.
  repeat (apply elem_of_cons in Hin as [[= -> -> ->]|Hin]; [absent_field Habs|]).
  inversion Hin.
Qed.

(** The value of a column of the record which [scrape_ad] builds from a
    page on which the anchor of the column is absent. *)
Lemma absent_anchor_NA col name c soup url scraped_date ad_id s :
  (col, (name, c)) ∈ anchors ->
  tag_find soup name c = None ->
  dict_get col
    (extract_rest int_float_str soup
       (handle_address soup url (ad_data_init soup url scraped_date ad_id) s).1)
  = Some NA.
Proof.
  intros Hin Habs.
  rewrite <- (take_drop 14 anchors) in Hin. apply elem_of_app in Hin as [Hin|Hin].
  - rewrite <- (take_drop 12 (take 14 anchors)) in Hin.
    apply elem_of_app in Hin as [Hin|Hin].
    + (* a characteristic: the label is absent *)
      assert (dict_get col (ad_data_init soup url scraped_date ad_id) = Some NA) as E.
      { unfold anchors in Hin. simpl take in Hin.
        repeat (apply elem_of_cons in Hin as [[= -> -> ->]|Hin];
                [first [ rewrite <- (get_text_value_absent _ _ Habs); reflexivity
                       | rewrite <- (get_value_chars_absent _ _ Habs); reflexivity ]
                |]).
        inversion Hin. }
      assert ("Дүүрэг" ≠ col ∧ "Байршил" ≠ col ∧ "Үзсэн" ≠ col
              ∧ "Үнэ" ≠ col ∧ "ӨрөөнийТоо" ≠ col
              ∧ "Зарыг гарчиг" ≠ col ∧ "Зарын тайлбар" ≠ col
              ∧ "Нийтэлсэн" ≠ col) as (?&?&?&?&?&?&?&?).
      { unfold anchors in Hin. simpl take in Hin.
        repeat (apply elem_of_cons in Hin as [[= -> -> ->]|Hin];
                [repeat split; literals|]).
        inversion Hin. }
      rewrite extract_rest_get_other by done.
      by rewrite handle_address_get_other.
    + (* district and location: the address is absent *)
      unfold anchors in Hin. simpl in Hin.
      repeat (apply elem_of_cons in Hin as [[= -> -> ->]|Hin];
              [rewrite extract_rest_get_other by literals;
               rewrite handle_address_absent by done; reflexivity|]).
      inversion Hin.
  - rewrite (extract_rest_absent _ _ _ _ _ Hin Habs).
    rewrite handle_address_get_other.
    + unfold anchors in Hin. simpl in Hin.
      repeat (apply elem_of_cons in Hin as [[= -> -> ->]|Hin];
              [reflexivity|]).
      inversion Hin.
    + unfold anchors in Hin. simpl in Hin.
      repeat (apply elem_of_cons in Hin as [[= -> -> ->]|Hin]; [literals|]).
      inversion Hin.
    + unfold anchors in Hin. simpl in Hin.
      repeat (apply elem_of_cons in Hin as [[= -> -> ->]|Hin]; [literals|]).
      inversion Hin.
Qed.

Lemma scrape_ad_link (W : World html) url s r s' :
  scrape_ad int_float_str W url s = (Some r, s') ->
  dict_get "link" r = Some url ∧ keys r = columns.
Proof.
  intros (_ & text & s1 & ad_id & _ & _ & -> & _)%scrape_ad_inv. split.
  - rewrite extract_rest_get_other by literals.
    rewrite handle_address_get_other by literals. reflexivity.
  - apply keys_extract_rest, keys_handle_address, keys_ad_data_init.
Qed.

(** What [scrape_ad] may change: it fetches [url] only, and only a URL
    that is not cached; the cache grows; the directory is left alone. *)
Lemma scrape_ad_effect (W : World html) url s :
  let s' := (scrape_ad int_float_str W url s).2 in
  files s' = files s ∧ writes s' = writes s
  ∧ scraped_urls s ⊆ scraped_urls s'
  ∧ ∃ k, requests s' = requests s ++ replicate k url
         ∧ (url ∈ scraped_urls s -> k = 0%nat).
Proof.
  unfold scrape_ad, bind, get_state. simpl.
  destruct (decide (url ∈ scraped_urls s)) as [Hin|Hnin].
  { simpl. repeat split; [done|]. exists 0%nat. by rewrite app_nil_r. }
  pose proof (make_request_only_fetches W url 0 s) as (Eu & Ec & Ef & Ew & k & Er).
  destruct (make_request W url 0 s) as [[text|] s1]; simpl in *.
  2: { repeat split; [done|done|by rewrite Eu|]. exists k. done. }
  destruct (parser_error text) as [e|]; simpl.
  { repeat split; [done|done|by rewrite Eu|]. exists k. done. }
  destruct (generate_ad_id s url) as [ad_id|]; simpl.
  2: { repeat split; [done|done|by rewrite Eu|]. exists k. done. }
  pose proof (handle_address_state (BeautifulSoup text) url
    (ad_data_init (BeautifulSoup text) url (strftime_dmY (today W (clock s1))) ad_id)
    (ticked s1)) as Hs.
  destruct (handle_address _ _ _ _) as [r0 s2]. simpl in Hs. subst s2. simpl.
  repeat split; [done|done|rewrite Eu; apply union_subseteq_r|]. exists k. done.
Qed.

(** *** The ad loop *)

Lemma run_ads_cons (W : World html) total i link links d s :
  run_ads int_float_str W total i (link :: links) d s
  = let '(d1, s1) := run_ad int_float_str W total i link d s in
    run_ads int_float_str W total (S i) links d1 s1.
Proof. reflexivity. Qed.

Lemma run_ads_app (W : World html) total i l1 l2 d s :
  run_ads int_float_str W total i (l1 ++ l2) d s
  = let '(d1, s1) := run_ads int_float_str W total i l1 d s in
    run_ads int_float_str W total (i + length l1) l2 d1 s1.
Proof.
  revert i d s. induction l1 as [|link l1 IH]; intros i d s.
  - simpl. by rewrite Nat.add_0_r.
  - simpl app. rewrite !run_ads_cons.
    destruct (run_ad _ _ _ _ _ _ _) as [d1 s1].
    rewrite IH. simpl length.
    by replace (i + S (length l1))%nat with (S i + length l1)%nat by lia.
Qed.

(** One turn of the loop. *)
Lemma run_ad_eq (W : World html) total i link d s :
  run_ad int_float_str W total i link d s
  = let '(ad_data, s1) :=
      scrape_ad int_float_str W (SITE ++ link)
        (logged INFO (ScrapingAd i total (SITE ++ link)) s) in
    let d1 := match ad_data with Some r => d ++ [r] | None => d end in
    if decide (i mod 20 = 0)%nat then
      (d1, logged INFO (ProgressSaved i total)
             (logged INFO (Saved (output_file_on (today W (clock s1))) (length d1))
                (written (output_file_on (today W (clock s1))) d1 (ticked s1))))
    else (d1, s1).
Proof.
  unfold run_ad, bind, logger.
  destruct (scrape_ad _ _ _ _) as [ad s1].
  destruct (decide (i mod 20 = 0)%nat); reflexivity.
Qed.

Lemma run_ad_effect (W : World html) total i link d s :
  let '(d1, s1) := run_ad int_float_str W total i link d s in
  d `prefix_of` d1
  ∧ scraped_urls s ⊆ scraped_urls s1
  ∧ (∃ k, requests s1 = requests s ++ replicate k (SITE ++ link)
          ∧ (SITE ++ link ∈ scraped_urls s -> k = 0%nat))
  ∧ (∀ r, r ∈ d1 -> r ∈ d ∨ (dict_get "link" r = Some (SITE ++ link)
                              ∧ SITE ++ link ∉ scraped_urls s))
  ∧ ∃ f, writes s1
         = writes s ++ (if decide (i mod 20 = 0)%nat then [(f, d1)] else []).
Proof.
  rewrite run_ad_eq.
  pose proof (scrape_ad_effect W (SITE ++ link)
                (logged INFO (ScrapingAd i total (SITE ++ link)) s))
    as (Ef & Ew & Eu & k & Er & Hk).
  destruct (scrape_ad _ _ _ _) as [ad s1] eqn:Ead. simpl in Ef, Ew, Eu, Er, Hk.
  assert (d `prefix_of` match ad with Some r => d ++ [r] | None => d end) as Hp.
  { destruct ad; [by apply prefix_app_r|done]. }
  assert (∀ r, r ∈ match ad with Some r => d ++ [r] | None => d end ->
           r ∈ d ∨ (dict_get "link" r = Some (SITE ++ link)
                    ∧ SITE ++ link ∉ scraped_urls s)) as Hr.
  { destruct ad as [r0|]; [|by left].
    intros r [Hin|Hin]%elem_of_app; [by left|right].
    apply list_elem_of_singleton in Hin as ->.
    split; [by eapply scrape_ad_link|].
    by apply scrape_ad_inv in Ead as [Hn _]. }
  destruct (decide (i mod 20 = 0)%nat); simpl.
  - split; [done|]. split; [done|]. split; [by exists k|]. split; [done|].
    exists (output_file_on (today W (clock s1))). by rewrite Ew.
  - split; [done|]. split; [done|]. split; [by exists k|]. split; [done|].
    exists []. by rewrite app_nil_r.
Qed.

Lemma run_ads_effect (W : World html) total i links d s :
  let '(d', s') := run_ads int_float_str W total i links d s in
  d `prefix_of` d'
  ∧ scraped_urls s ⊆ scraped_urls s'
  ∧ (∃ new, requests s' = requests s ++ new
            ∧ ∀ u, u ∈ new ->
                (u ∉ scraped_urls s) ∧ ∃ link, link ∈ links ∧ u = SITE ++ link)
  ∧ (∀ r, r ∈ d' -> r ∈ d ∨ ∃ link, link ∈ links
                              ∧ dict_get "link" r = Some (SITE ++ link)
                              ∧ SITE ++ link ∉ scraped_urls s).
Proof.
  revert i d s. induction links as [|link links IH]; intros i d s.
  - simpl. repeat split; [done|done| |by left].
    exists []. split; [by rewrite app_nil_r|]. intros u Hu. inversion Hu.
  - rewrite run_ads_cons.
    pose proof (run_ad_effect W total i link d s) as H1.
    destruct (run_ad _ _ _ _ _ _ _) as [d1 s1].
    destruct H1 as (Hp1 & Hu1 & (k & Er1 & Hk1) & Hr1 & _).
    specialize (IH (S i) d1 s1).
    destruct (run_ads _ _ _ _ _ _ _) as [d' s'].
    destruct IH as (Hp & Hu & (new & Er & Hnew) & Hr).
    repeat split.
    + by etrans.
    + by etrans.
    + exists (replicate k (SITE ++ link) ++ new). split.
      { by rewrite Er, Er1, app_assoc. }
      intros u [Hu'|Hu']%elem_of_app.
      * apply elem_of_replicate in Hu' as [-> Hk]. split.
        -- intros Hin. by apply Hk1 in Hin.
        -- exists link. split; [left|done].
      * destruct (Hnew u Hu') as (Hn & l & Hl & ->).
        split; [intros Hin'; by apply Hn, Hu1|].
        exists l. split; [by right|done].
    + intros r Hin. destruct (Hr r Hin) as [Hd1|(l & Hl & Hlink & Hn)].
      * destruct (Hr1 r Hd1) as [?|[? ?]]; [by left|right].
        exists link. split; [left|done].
      * right. exists l. split; [by right|].
        split; [done|intros Hin'; by apply Hn, Hu1].
Qed.

Lemma run_ads_all_cached (W : World html) total i links d s :
  Forall (fun link => SITE ++ link ∈ scraped_urls s) links ->
  let '(d', s') := run_ads int_float_str W total i links d s in
  d' = d ∧ requests s' = requests s ∧ scraped_urls s' = scraped_urls s
  ∧ cache_file s' = cache_file s.
Proof.
  revert i s. induction links as [|link links IH]; intros i s Hall; [done|].
  apply Forall_cons in Hall as [Hin Hall].
  rewrite run_ads_cons, run_ad_eq, scrape_ad_cached by done.
  destruct (decide (i mod 20 = 0)%nat); cbv beta iota zeta;
    match goal with |- context [run_ads _ _ _ _ _ _ ?s1] =>
      specialize (IH (S i) s1 Hall); destruct (run_ads _ _ _ _ _ _ s1) end;
    done.
Qed.

(** The saves of the loop: one turn saves the batch it has reached when
    its number is a multiple of twenty; so there is none on a stretch
    without a multiple of twenty, and one at the end of a stretch of
    twenty that ends on one. *)
Lemma run_ad_saves (W : World html) total i link d s :
  let '(d1, s1) := run_ad int_float_str W total i link d s in
  ∃ f, writes s1
       = writes s ++ (if decide (i mod 20 = 0)%nat then [(f, d1)] else [])
       ∧ files s1
         = if decide (i mod 20 = 0)%nat then <[f := Csv d1]> (files s)
           else files s.
Proof.
  rewrite run_ad_eq.
  pose proof (scrape_ad_effect W (SITE ++ link)
                (logged INFO (ScrapingAd i total (SITE ++ link)) s))
    as (Ef & Ew & _).
  destruct (scrape_ad _ _ _ _) as [ad s1]. simpl in Ef, Ew.
  destruct (decide (i mod 20 = 0)%nat); simpl.
  - exists (output_file_on (today W (clock s1))). by rewrite Ew, Ef.
  - exists []. by rewrite app_nil_r.
Qed.

Lemma run_ads_no_save (W : World html) total i links d s :
  (∀ j, i <= j < i + length links -> j mod 20 ≠ 0)%nat ->
  writes (run_ads int_float_str W total i links d s).2 = writes s
  ∧ files (run_ads int_float_str W total i links d s).2 = files s.
Proof.
  revert i d s. induction links as [|link links IH]; intros i d s Hj; [done|].
  rewrite run_ads_cons.
  pose proof (run_ad_saves W total i link d s) as H1.
  destruct (run_ad _ _ _ _ _ _ _) as [d1 s1].
  destruct H1 as (f & Ew & Ef).
  rewrite decide_False in Ew by (apply Hj; simpl; lia).
  rewrite decide_False in Ef by (apply Hj; simpl; lia).
  rewrite app_nil_r in Ew. rewrite <- Ew, <- Ef. apply IH.
  intros j Hjj. apply Hj. simpl. lia.
Qed.

Lemma run_ads_twenty (W : World html) total i links d s :
  length links = 20%nat -> (i mod 20 = 1)%nat ->
  let '(d', s') := run_ads int_float_str W total i links d s in
  ∃ f, writes s' = writes s ++ [(f, d')]
       ∧ files s' = <[f := Csv d']> (files s).
Proof.
  intros Hlen Hi.
  destruct links as [|link l19 _] using rev_ind; [done|].
  rewrite length_app in Hlen. simpl in Hlen.
  rewrite run_ads_app.
  pose proof (run_ads_no_save W total i l19 d s) as Hno.
  destruct (run_ads _ _ _ _ l19 _ _) as [d1 s1]. cbn [snd] in Hno.
  rewrite run_ads_cons.
  pose proof (run_ad_saves W total (i + length l19) link d1 s1) as H1.
  destruct (run_ad _ _ _ _ _ _ _) as [d2 s2]. simpl.
  destruct H1 as (f & Ew2 & Ef2).
  assert ((i + length l19) mod 20 = 0)%nat as E0.
  { assert (length l19 = 19%nat) as -> by (clear -Hlen; lia).
    by rewrite Nat.Div0.add_mod, Hi. }
  rewrite decide_True in Ew2 by done. rewrite decide_True in Ef2 by done.
  destruct Hno as [Ew Ef].
  { intros j Hj E.
    pose proof (Nat.div_mod_eq j 20). pose proof (Nat.div_mod_eq i 20). lia. }
  exists f. by rewrite Ew2, Ef2, Ew, Ef.
Qed.

(** [run] is its four phases in turn: the load, the page loop, the ad
    loop, the final save. *)
Lemma run_phases (W : World html) base_url max_pages s :
  run int_float_str W base_url max_pages s
  = let '(existing_data, s1) := load_existing_data W s in
    let s2 :=
      match existing_data with
      | [] => s1
      | _ :: _ => logged INFO (LoadedExisting (length existing_data)) s1
      end in
    let '(all_links, s3) := run_pages W base_url (seq 1 max_pages) [] s2 in
    let '(all_data, s4) :=
      run_ads int_float_str W (length all_links) 1 all_links existing_data
        (logged INFO (FoundLinks (length all_links)) s3) in
    run_finish W all_data s4.
Proof.
  unfold run, bind.
  destruct (load_existing_data W s) as [[|r existing] s1]; reflexivity.
Qed.

(** *** Pagination *)

Lemma pages_logged_app l1 l2 :
  pages_logged (l1 ++ l2) = pages_logged l1 ++ pages_logged l2.
Proof. apply omap_app. Qed.

Lemma fetches_quietly_trans url s1 s2 s3 :
  fetches_quietly url s1 s2 -> fetches_quietly url s2 s3 ->
  fetches_quietly url s1 s3.
Proof.
  intros [H1 E1] [H2 E2]. split; [by eapply only_fetches_trans|congruence].
Qed.

Lemma make_request_quiet (W : World html) url rc s :
  fetches_quietly url s (make_request W url rc s).2.
Proof.
  split; [apply make_request_only_fetches|].
  remember (MAX_RETRIES - rc)%nat as n eqn:Hn. revert rc s Hn.
  induction n as [|n IH]; intros rc s Hn.
  - destruct (net W (clock s) url) as [text|e] eqn:E.
    + by rewrite (make_request_ok _ _ _ _ _ E).
    + rewrite (make_request_give_up _ _ _ _ _ E) by lia. simpl.
      rewrite pages_logged_app. simpl. by rewrite app_nil_r.
  - destruct (net W (clock s) url) as [text|e] eqn:E.
    + by rewrite (make_request_ok _ _ _ _ _ E).
    + rewrite (make_request_retry _ _ _ _ _ E) by lia.
      rewrite IH by lia. simpl. rewrite pages_logged_app. simpl.
      by rewrite app_nil_r.
Qed.

Lemma scrape_page_quiet (W : World html) url s :
  fetches_quietly url s (scrape_page W url s).2.
Proof.
  unfold scrape_page, bind.
  pose proof (make_request_quiet W url 0 s) as H.
  destruct (make_request W url 0 s) as [[text|] s1]; simpl in *; [|done].
  eapply fetches_quietly_trans; [done|].
  destruct (parser_error text) as [e|]; simpl; split;
    try apply only_fetches_logged;
    simpl; rewrite pages_logged_app; simpl; by rewrite app_nil_r.
Qed.

Lemma run_pages_cons (W : World html) base_url p rest acc s :
  run_pages W base_url (p :: rest) acc s
  = let '(links, s1) :=
      scrape_page W (page_url base_url p) (logged INFO (ScrapingPage p) s) in
    match links with
    | [] => (acc, logged INFO NoMoreLinks s1)
    | _ :: _ => run_pages W base_url rest (acc ++ links) s1
    end.
Proof.
  simpl. unfold bind at 1 2. unfold logger at 1.
  destruct (scrape_page _ _ _) as [[|link links] s1]; reflexivity.
Qed.

Lemma run_pages_spec (W : World html) base_url pages acc s :
  ∃ visited,
    paginates W base_url pages acc s visited
      (run_pages W base_url pages acc s).1 (run_pages W base_url pages acc s).2
    ∧ visited `prefix_of` pages
    ∧ pages_logged (log (run_pages W base_url pages acc s).2)
      = pages_logged (log s) ++ visited
    ∧ ∃ new, requests (run_pages W base_url pages acc s).2 = requests s ++ new
             ∧ ∀ u, u ∈ new -> ∃ p, p ∈ visited ∧ u = page_url base_url p.
Proof.
  revert acc s. induction pages as [|p rest IH]; intros acc s.
  - exists []. simpl. split; [constructor|]. split; [done|].
    split; [by rewrite app_nil_r|]. exists []. split; [by rewrite app_nil_r|].
    intros u Hu. inversion Hu.
  - rewrite run_pages_cons.
    pose proof (scrape_page_quiet W (page_url base_url p)
                  (logged INFO (ScrapingPage p) s)) as [(_&_&_&_&k&Er) El].
    destruct (scrape_page _ _ _) as [[|link links] s1] eqn:Esp;
      simpl in Er, El.
    + exists [p]. simpl. split; [by constructor|].
      split; [by apply prefix_cons, prefix_nil|].
      split.
      { rewrite !pages_logged_app, El, pages_logged_app. simpl.
        by rewrite app_nil_r. }
      exists (replicate k (page_url base_url p)). split; [done|].
      intros u [-> _]%elem_of_replicate. exists p. split; [left|done].
    + destruct (IH (acc ++ link :: links) s1) as (visited & Hpag & Hpre & Hlog & new & Hreq & Hnew).
      exists (p :: visited). split; [by econstructor|].
      split; [by apply prefix_cons|].
      split.
      { rewrite Hlog, El, pages_logged_app. simpl. by rewrite <- app_assoc. }
      exists (replicate k (page_url base_url p) ++ new). split.
      { by rewrite Hreq, Er, app_assoc. }
      intros u [[-> _]%elem_of_replicate|Hu]%elem_of_app.
      * exists p. split; [left|done].
      * destruct (Hnew u Hu) as (q & Hq & ->). exists q. split; [by right|done].
Qed.

(** *** The snapshot store *)


Lemma snapshot_names_spec s f :
  f ∈ snapshot_names s <-> is_Some (files s !! f) ∧ is_snapshot_name f = true.
Proof.
  unfold snapshot_names. rewrite list_elem_of_filter, list_elem_of_fmap.
  split.
  - intros [Hn ([g x] & -> & Hin%elem_of_map_to_list)]. split; [by eexists|done].
  - intros [[x Hx] Hn]. split; [done|]. exists (f, x). split; [done|].
    by apply elem_of_map_to_list.
Qed.



Lemma save_data_eq (W : World html) all_data s :
  save_data W all_data s
  = (tt, logged INFO (Saved (output_file_on (today W (clock s))) (length all_data))
           (written (output_file_on (today W (clock s))) all_data (ticked s))).
Proof. reflexivity. Qed.

Lemma prefix_of_seq (a n : nat) (l : list nat) :
  l `prefix_of` seq a n -> ∃ k, (k <= n)%nat ∧ l = seq a k.
Proof.
  intros [rest E]. exists (length l). 
  assert (length l <= n)%nat as Hle.
  { apply (f_equal length) in E. rewrite length_app, length_seq in E. lia. }
  split; [done|].
  replace n with (length l + (n - length l))%nat in E by lia.
  rewrite seq_app in E. apply app_inj_1 in E as [E _]; [done|].
  by rewrite length_seq.
Qed.

(** A cached URL is left alone by the whole ad loop. *)
Lemma run_ads_leaves_cached (W : World html) url s total i links all_data :
  url ∈ scraped_urls s ->
  let '(all_data', s') := run_ads int_float_str W total i links all_data s in
  (∃ new, requests s' = requests s ++ new ∧ url ∉ new)
  ∧ forall r, r ∈ all_data' -> r ∈ all_data ∨ dict_get "link" r ≠ Some url.
Proof.
  intros Hin.
  pose proof (run_ads_effect W total i links all_data s) as H.
  destruct (run_ads _ _ _ _ _ _ _) as [d' s'].
  destruct H as (_ & _ & (new & Er & Hnew) & Hr). split.
  - exists new. split; [done|]. intros Hu. by destruct (Hnew _ Hu) as [? _].
  - intros r Hr'. destruct (Hr r Hr') as [?|(l & _ & E & Hn)]; [by left|right].
    rewrite E. intros [= <-]. done.
Qed.

Lemma init_scraped_urls content dir :
  scraped_urls (init (Some content) dir)
  = list_to_set (map strip (TextIO.readlines content)).
Proof. reflexivity. Qed.

(** The parts of an address around its first em-dash. *)
Lemma split_emdash_two (before mid rest : str) :
  contains "—" before = false -> contains "—" mid = false ->
  rest = [] ∨ (∃ rest', rest = "—" ++ rest') ->
  ∃ parts, split "—" (before ++ "—" ++ mid ++ rest) = before :: mid :: parts.
Proof.
  change "—" with [8212]. intros Hb Hm Hrest.
  assert (8212 ∉ before) as Hb' by (rewrite <- contains_single; by rewrite Hb).
  assert (8212 ∉ mid) as Hm' by (rewrite <- contains_single; by rewrite Hm).
  unfold split. simpl app. rewrite split_go_single_cut by done. simpl.
  destruct Hrest as [->|[rest' ->]].
  - rewrite app_nil_r, split_go_single_last by done. by eexists.
  - simpl app. rewrite split_go_single_cut by done. by eexists.
Qed.

(** ** The claims *)

(** C1. A URL whose every attempt fails is tried four times, once and
    three retries; [make_request] then returns [None], having logged
    one warning a retry and the error with the URL and the cause of the
    last failure; nothing but the log and the trace of requests
    changes, and [scrape_ad] on such a URL returns [None] in turn. *)
Theorem make_request_gives_up_after_four_attempts
    (W : World html) (url : str) (s : state) (cause : nat -> str) :
  (forall t, net W t url = RequestException (cause t)) ->
  (make_request W url 0 s).1 = None
  ∧ requests (make_request W url 0 s).2 = requests s ++ [url; url; url; url]
  ∧ log (make_request W url 0 s).2
    = log s ++ [(WARNING, Retrying url (cause (clock s)) 1);
                (WARNING, Retrying url (cause (clock s + 1)%nat) 2);
                (WARNING, Retrying url (cause (clock s + 2)%nat) 4);
                (ERROR, FailedToRetrieve url MAX_RETRIES
                          (cause (clock s + 3)%nat))]
  ∧ scraped_urls (make_request W url 0 s).2 = scraped_urls s
  ∧ cache_file (make_request W url 0 s).2 = cache_file s
  ∧ files (make_request W url 0 s).2 = files s
  ∧ writes (make_request W url 0 s).2 = writes s
  ∧ (url ∉ scraped_urls s ->
     scrape_ad int_float_str W url s = (None, (make_request W url 0 s).2)).
Proof.
  intros Hfail.
  assert (url ∉ scraped_urls s ->
          scrape_ad int_float_str W url s = (None, (make_request W url 0 s).2))
    as Had.
  { intros Hnin. unfold scrape_ad, bind, get_state. simpl.
    rewrite decide_False by done.
    by rewrite (make_request_always_failing W url s cause Hfail). }
  revert Had. rewrite (make_request_always_failing W url s cause Hfail).
  simpl. rewrite <- !app_assoc. simpl. done.
Qed.

(** C2. A URL of the dedup cache is not fetched: [scrape_ad] returns
    [None] and only logs the skip.  Hence the ad loop, whatever its
    links, sends no request for that URL and adds no record for it; and
    on links that are all cached it sends no request at all and leaves
    the batch and the cache as they were. *)
Theorem scrape_ad_skips_cached_url (W : World html) (url : str) (s : state) :
  url ∈ scraped_urls s ->
  scrape_ad int_float_str W url s = (None, logged INFO (SkippingScraped url) s)
  ∧ (forall total i links all_data,
       let '(all_data', s') := run_ads int_float_str W total i links all_data s in
       (∃ new, requests s' = requests s ++ new ∧ url ∉ new)
       ∧ forall r, r ∈ all_data' -> r ∈ all_data ∨ dict_get "link" r ≠ Some url)
  ∧ (forall total i links all_data,
       Forall (fun link => SITE ++ link ∈ scraped_urls s) links ->
       let '(all_data', s') := run_ads int_float_str W total i links all_data s in
       all_data' = all_data ∧ requests s' = requests s
       ∧ scraped_urls s' = scraped_urls s ∧ cache_file s' = cache_file s).
Proof.
  intros Hin. split; [by apply scrape_ad_cached|]. split.
  - intros total i links all_data. by apply run_ads_leaves_cached.
  - intros total i links all_data Hall. by apply run_ads_all_cached.
Qed.

(** C3. Once the page of an ad is fetched, [scrape_ad] ends in one
    of three ways, and raises in none.  A text the parser rejects is
    logged, no record is returned and nothing is cached.  So it is for
    a URL that does not encode, after the parser took the text.
    Otherwise a record is returned and the URL cached: the record has
    the whole fixed list of columns, and a column whose anchor element
    (the label of a characteristic, or the element of a special field)
    is absent from the page holds the sentinel "N/A".  The two label
    lookups give "N/A" for an absent label; and every record that
    [scrape_ad] returns has the whole fixed list of columns. *)
Theorem absent_field_is_NA (W : World html) (url : str) (s s1 : state)
    (text : html) :
  url ∉ scraped_urls s ->
  make_request W url 0 s = (Some text, s1) ->
  (forall e,
     parser_error text = Some e ->
     scrape_ad int_float_str W url s
     = (None, logged ERROR (AdError url (ParserError e)) s1))
  ∧ (parser_error text = None ->
     generate_ad_id s url = None ->
     scrape_ad int_float_str W url s
     = (None, logged ERROR (AdError url UnicodeEncodeError) (ticked s1)))
  ∧ (parser_error text = None ->
     forall ad_id,
       generate_ad_id s url = Some ad_id ->
       ∃ r, scrape_ad int_float_str W url s
            = (Some r, cached url (ticked s1))
            ∧ keys r = columns
            ∧ forall col name c,
                (col, (name, c)) ∈ anchors ->
                tag_find (BeautifulSoup text) name c = None ->
                dict_get col r = Some NA)
  ∧ (forall key,
       tag_find (BeautifulSoup text) "span" (WithText key) = None ->
       get_text_value (BeautifulSoup text) key = NA
       ∧ get_value_chars (BeautifulSoup text) key = NA)
  ∧ forall r s',
      scrape_ad int_float_str W url s = (Some r, s') -> keys r = columns.
Proof.
  intros Hnin Hreq. split; [|split; [|split; [|split]]].
  - intros e Hparse. by apply scrape_ad_rejected with text.
  - intros Hparse Hid. unfold scrape_ad, bind, get_state. simpl.
    rewrite decide_False by done. rewrite Hreq, Hparse. unfold date_today.
    simpl. by rewrite Hid.
  - intros Hparse ad_id Hid. eexists.
    split; [by apply scrape_ad_success|]. split.
    { apply keys_extract_rest, keys_handle_address, keys_ad_data_init. }
    intros col name c Hin Habs. by apply (absent_anchor_NA col name c).
  - intros key Hkey. split;
      [by apply get_text_value_absent|by apply get_value_chars_absent].
  - intros r s' Had.
    apply scrape_ad_inv in Had as (_ & text' & s1' & ad_id & _ & _ & -> & _).
    apply keys_extract_rest, keys_handle_address, keys_ad_data_init.
Qed.

(** C4. Pagination takes the pages 1, 2, ... in turn and ends with the
    first page that yields no link, or after page [max_pages]: the pages
    visited are 1..k for some k <= max_pages, the run follows the
    pagination of the specification, only these pages are requested,
    and a page without links ends the loop at once, whatever pages are
    left. *)
Theorem run_pages_stops_at_first_empty_page
    (W : World html) (base_url : str) (max_pages : nat) (s : state) :
  (∃ k, (k <= max_pages)%nat
     ∧ paginates W base_url (seq 1 max_pages) [] s (seq 1 k)
         (run_pages W base_url (seq 1 max_pages) [] s).1
         (run_pages W base_url (seq 1 max_pages) [] s).2
     ∧ pages_logged (log (run_pages W base_url (seq 1 max_pages) [] s).2)
       = pages_logged (log s) ++ seq 1 k
     ∧ ∃ new, requests (run_pages W base_url (seq 1 max_pages) [] s).2
              = requests s ++ new
              ∧ forall u, u ∈ new -> ∃ p, (1 <= p <= k)%nat ∧ u = page_url base_url p)
  ∧ forall p rest acc s0 s1,
      scrape_page W (page_url base_url p) (logged INFO (ScrapingPage p) s0)
      = ([], s1) ->
      run_pages W base_url (p :: rest) acc s0 = (acc, logged INFO NoMoreLinks s1).
Proof.
  split.
  - destruct (run_pages_spec W base_url (seq 1 max_pages) [] s)
      as (visited & Hpag & Hpre & Hlog & new & Hreq & Hnew).
    apply prefix_of_seq in Hpre as (k & Hk & ->).
    exists k. split; [done|]. split; [done|]. split; [done|].
    exists new. split; [done|]. intros u Hu.
    destruct (Hnew u Hu) as (p & Hp & ->). exists p. split; [|done].
    apply elem_of_seq in Hp. lia.
  - intros p rest acc s0 s1 E. by rewrite run_pages_cons, E.
Qed.

(** C5, as the code has it. With 45 links and a batch saved every 20
    links, the loop saves after the 20th and after the 40th link and at
    no other turn; the end of the run saves once more if the batch is not
    empty, and not otherwise.  Every save writes the whole batch into the
    file of the day, and the batch of a save begins with the batch of
    the save before. *)
Theorem saves_of_45_links (W : World html) (links : list str)
    (all_data : list row) (s : state) :
  length links = 45%nat ->
  let '(d20, s20) := run_ads int_float_str W 45 1 (take 20 links) all_data s in
  let '(d40, s40) :=
    run_ads int_float_str W 45 21 (take 20 (drop 20 links)) d20 s20 in
  let '(d45, s45) := run_ads int_float_str W 45 41 (drop 40 links) d40 s40 in
  let final := output_file_on (today W (clock s45)) in
  run_ads int_float_str W 45 1 links all_data s = (d45, s45)
  ∧ (∃ f1 f2,
       writes s20 = writes s ++ [(f1, d20)]
       ∧ files s20 !! f1 = Some (Csv d20)
       ∧ writes s40 = writes s ++ [(f1, d20); (f2, d40)]
       ∧ files s40 !! f2 = Some (Csv d40)
       ∧ writes s45 = writes s40 ∧ files s45 = files s40)
  ∧ match d45 with
    | [] =>
      writes (run_finish W d45 s45).2 = writes s45
      ∧ files (run_finish W d45 s45).2 = files s45
    | _ :: _ =>
      writes (run_finish W d45 s45).2 = writes s45 ++ [(final, d45)]
      ∧ files (run_finish W d45 s45).2 !! final = Some (Csv d45)
    end
  ∧ all_data `prefix_of` d20 ∧ d20 `prefix_of` d40 ∧ d40 `prefix_of` d45.
Proof.
  intros Hlen.
  assert (links = take 20 links ++ take 20 (drop 20 links) ++ drop 40 links) as E.
  { rewrite <- (take_drop 20 links) at 1. f_equal.
    rewrite <- (take_drop 20 (drop 20 links)) at 1. f_equal.
    by rewrite drop_drop. }
  assert (length (take 20 links) = 20%nat) as L1 by (rewrite length_take; lia).
  assert (length (take 20 (drop 20 links)) = 20%nat) as L2
    by (rewrite length_take, length_drop; lia).
  assert (length (drop 40 links) = 5%nat) as L3 by (rewrite length_drop; lia).
  replace (run_ads int_float_str W 45 1 links all_data s)
    with (run_ads int_float_str W 45 1
            (take 20 links ++ take 20 (drop 20 links) ++ drop 40 links) all_data s)
    by (by rewrite <- E).
  rewrite run_ads_app, L1.
  pose proof (run_ads_twenty W 45 1 (take 20 links) all_data s L1 eq_refl) as H1.
  pose proof (run_ads_effect W 45 1 (take 20 links) all_data s) as P1.
  destruct (run_ads _ _ _ _ (take 20 links) _ _) as [d20 s20].
  rewrite run_ads_app, L2.
  pose proof (run_ads_twenty W 45 21 (take 20 (drop 20 links)) d20 s20 L2 eq_refl) as H2.
  pose proof (run_ads_effect W 45 21 (take 20 (drop 20 links)) d20 s20) as P2.
  change (1 + 20)%nat with 21%nat.
  destruct (run_ads _ _ _ _ (take 20 (drop 20 links)) _ _) as [d40 s40].
  pose proof (run_ads_no_save W 45 41 (drop 40 links) d40 s40) as H3.
  pose proof (run_ads_effect W 45 41 (drop 40 links) d40 s40) as P3.
  change (21 + 20)%nat with 41%nat.
  destruct (run_ads _ _ _ _ (drop 40 links) _ _) as [d45 s45].
  destruct H1 as (f1 & H1 & F1). destruct H2 as (f2 & H2 & F2).
  destruct P1 as [P1 _]. destruct P2 as [P2 _]. destruct P3 as [P3 _].
  cbn [snd] in H3. destruct H3 as [H3 F3].
  { rewrite L3. intros j Hj Hmod. pose proof (Nat.div_mod_eq j 20). lia. }
  split; [done|]. split.
  { exists f1, f2. split; [done|].
    split; [by rewrite F1, lookup_insert_eq|].
    split; [by rewrite H2, H1, <- app_assoc|].
    split; [by rewrite F2, lookup_insert_eq|done]. }
  split; [|done].
  destruct d45 as [|r d45]; [done|].
  unfold run_finish, bind. rewrite save_data_eq. simpl.
  split; [done|apply lookup_insert_eq].
Qed.

(** C6. The identifier of an ad is a function of its URL alone: the
    scraper object does not enter into it, it is the MD5 digest of the
    UTF-8 bytes of the URL, and the [ad_id] of every record of that URL
    is this value, in whatever run, world or state it was scraped. *)
Theorem generate_ad_id_depends_on_url_only (url : str) (self1 self2 : state) :
  generate_ad_id self1 url = generate_ad_id self2 url
  ∧ generate_ad_id self1 url
    = option_map Hash.hexdigest (option_map Hash.md5 (Hash.encode url))
  ∧ forall (W : World html) s r s',
      scrape_ad int_float_str W url s = (Some r, s') ->
      dict_get "ad_id" r = generate_ad_id self1 url.
Proof.
  split; [reflexivity|]. split; [reflexivity|].
  intros W s r s' Had.
  apply scrape_ad_inv in Had as (_ & text & s1 & ad_id & _ & Hid & -> & _).
  rewrite extract_rest_get_other by literals.
  rewrite handle_address_get_other by literals.
  unfold generate_ad_id in *. rewrite Hid. reflexivity.
Qed.

(** C7, as the code has it. When the text of the address element
    contains an em-dash, the district is the stripped text before the
    first em-dash and the location is the stripped text between the
    first em-dash and the next one, or the end of the text when there is
    no other; what follows a second em-dash is dropped.  When the
    element is there without an em-dash, both columns keep "N/A".  In no
    case is the address warning logged. *)
Theorem address_is_split_at_em_dashes (W : World html) (url : str)
    (s s1 s' : state) (text : html) (r : row) (address : tag) :
  make_request W url 0 s = (Some text, s1) ->
  scrape_ad int_float_str W url s = (Some r, s') ->
  tag_find (BeautifulSoup text) "span" (WithAttr "itemprop" "address")
  = Some address ->
  (forall before mid rest,
     tag_text address = before ++ "—" ++ mid ++ rest ->
     contains "—" before = false -> contains "—" mid = false ->
     rest = [] ∨ (∃ rest', rest = "—" ++ rest') ->
     dict_get "Дүүрэг" r = Some (strip before)
     ∧ dict_get "Байршил" r = Some (strip mid))
  ∧ (contains "—" (tag_text address) = false ->
     dict_get "Дүүрэг" r = Some NA ∧ dict_get "Байршил" r = Some NA)
  ∧ log s' = log s1.
Proof.
  intros Hreq Had Haddr.
  apply scrape_ad_inv in Had as (_ & text' & s1' & ad_id & Hreq' & _ & -> & -> & _).
  rewrite Hreq in Hreq'. injection Hreq' as <- <-.
  split; [|split; [|done]].
  - intros before mid rest Htext Hb Hm Hrest.
    destruct (split_emdash_two before mid rest Hb Hm Hrest) as [parts Hsplit].
    rewrite !extract_rest_get_other by literals.
    unfold handle_address. rewrite Haddr.
    assert (contains "—" (tag_text address) = true) as ->.
    { rewrite Htext. change "—" with [8212].
      apply contains_single. rewrite elem_of_app. right. left. }
    rewrite Htext, Hsplit. simpl. done.
  - intros Hno. rewrite !extract_rest_get_other by literals.
    unfold handle_address. rewrite Haddr, Hno. done.
Qed.


(** C9, as the code has it. Take a URL that the cache file gives back
    unchanged: no white space at either end and no line break in it;
    and a cache file that is absent, empty or ends a line.  When
    [scrape_ad] succeeds, the URL is in the cache file and in the set on
    return, and no file of the directory has been written: the record
    exists in memory only.  A scraper started on that cache file,
    whatever was appended to it since and whatever the directory holds,
    has the URL in its set, skips it without a request, and its ad loop
    neither requests it nor adds a record for it. *)
Theorem cached_before_saved_then_skipped_on_resume (W W' : World html)
    (url : str) (s s' : state) (r : row) :
  strip url = url -> 10 ∉ url -> 13 ∉ url ->
  default [] (cache_file s) = [] ∨ last (default [] (cache_file s)) = Some 10 ->
  scrape_ad int_float_str W url s = (Some r, s') ->
  cache_file s' = Some (default [] (cache_file s) ++ url ++ [10])
  ∧ url ∈ scraped_urls s'
  ∧ files s' = files s ∧ writes s' = writes s
  ∧ forall extra dir,
      let resumed :=
        init (Some (default [] (cache_file s) ++ url ++ [10] ++ extra)) dir in
      url ∈ scraped_urls resumed
      ∧ scrape_ad int_float_str W' url resumed
        = (None, logged INFO (SkippingScraped url) resumed)
      ∧ forall total i links all_data,
          let '(all_data', s3) :=
            run_ads int_float_str W' total i links all_data resumed in
          (∃ new, requests s3 = requests resumed ++ new ∧ url ∉ new)
          ∧ forall x, x ∈ all_data' ->
              x ∈ all_data ∨ dict_get "link" x ≠ Some url.
Proof.
  intros Hstrip H10 H13 Hold Had.
  pose proof (scrape_ad_effect W url s) as (Ef & Ew & _ & _).
  rewrite Had in Ef, Ew. simpl in Ef, Ew.
  apply scrape_ad_inv in Had as (_ & text & s1 & ad_id & Hreq & _ & _ & -> & _).
  pose proof (make_request_only_fetches W url 0 s) as (_ & Ec & _).
  rewrite Hreq in Ec. simpl in Ec.
  split; [simpl; by rewrite Ec|].
  split; [simpl; by apply elem_of_union_l, elem_of_singleton_2|].
  split; [done|]. split; [done|].
  intros extra dir resumed.
  assert (url ∈ scraped_urls resumed) as Hin.
  { unfold resumed. rewrite init_scraped_urls, elem_of_list_to_set.
    by apply cache_line_read. }
  split; [done|]. split; [by apply scrape_ad_cached|].
  intros total i links all_data. by apply run_ads_leaves_cached.
Qed.

(** C10. A listing page whose every attempt fails makes [scrape_page]
    return the empty list after four requests; the page loop then ends
    there, with the links gathered so far and no request for any later
    page, exactly as it ends on a page that was fetched and holds no ad
    link. *)
Theorem failed_listing_page_ends_pagination (W W' : World html)
    (base_url : str) (p : nat) (rest : list nat) (acc : list str) (s : state)
    (cause : nat -> str) (empty_page : html) :
  (forall t, net W t (page_url base_url p) = RequestException (cause t)) ->
  net W' (clock s) (page_url base_url p) = Response empty_page ->
  tag_find_all (BeautifulSoup empty_page) "a" (WithClass "mask") = [] ->
  (scrape_page W (page_url base_url p) (logged INFO (ScrapingPage p) s)).1 = []
  ∧ (run_pages W base_url (p :: rest) acc s).1 = acc
  ∧ requests (run_pages W base_url (p :: rest) acc s).2
    = requests s ++ replicate 4 (page_url base_url p)
  ∧ last (log (run_pages W base_url (p :: rest) acc s).2)
    = Some (INFO, NoMoreLinks)
  ∧ pages_logged (log (run_pages W base_url (p :: rest) acc s).2)
    = pages_logged (log s) ++ [p]
  ∧ (run_pages W' base_url (p :: rest) acc s).1 = acc
  ∧ last (log (run_pages W' base_url (p :: rest) acc s).2)
    = Some (INFO, NoMoreLinks)
  ∧ pages_logged (log (run_pages W' base_url (p :: rest) acc s).2)
    = pages_logged (log s) ++ [p].
Proof.
  intros Hfail Hok Hempty.
  assert (scrape_page W (page_url base_url p) (logged INFO (ScrapingPage p) s)
          = ([], (make_request W (page_url base_url p) 0
                    (logged INFO (ScrapingPage p) s)).2)) as E.
  { unfold scrape_page, bind.
    rewrite (make_request_always_failing W _ _ cause Hfail). done. }
  assert (∃ lv m,
            (m = FoundLinksOnPage 0 (page_url base_url p)
             ∨ ∃ e, m = PageError (page_url base_url p) e)
            ∧ scrape_page W' (page_url base_url p)
                (logged INFO (ScrapingPage p) s)
              = ([], logged lv m
                       (fetched (page_url base_url p)
                          (logged INFO (ScrapingPage p) s))))
    as (lv & m & Hm & E').
  { unfold scrape_page, bind.
    rewrite (make_request_ok W' _ 0 _ empty_page) by done.
    destruct (parser_error empty_page) as [e|].
    - eexists _, _. split; [right; by eexists|done].
    - rewrite Hempty. eexists _, _. split; [by left|done]. }
  rewrite !run_pages_cons, E, E'.
  rewrite (make_request_always_failing W _ _ cause Hfail).
  cbn [fst snd].
  split; [done|]. split; [done|]. split.
  { simpl. by rewrite <- !app_assoc. }
  split; [simpl; by rewrite last_snoc|]. split.
  { simpl. rewrite !pages_logged_app. simpl. by rewrite !app_nil_r. }
  split; [done|]. split; [simpl; by rewrite last_snoc|].
  destruct Hm as [->|[e ->]];
    simpl; rewrite !pages_logged_app; simpl; by rewrite !app_nil_r.
Qed.

End Methods.

(** ** The claims on the sample site *)

(** C1 on the site that is down: four requests for the ad, then [None]. *)
Lemma make_request_gives_up_witness :
  (forall t, net down t ad1 = RequestException "timed out")
  ∧ (make_request down ad1 0 fresh).1 = None
  ∧ requests (make_request down ad1 0 fresh).2 = [ad1; ad1; ad1; ad1].
Proof.
  split; [intros t; reflexivity|].
  pose proof (make_request_gives_up_after_four_attempts ifs down ad1 fresh
                (fun _ => "timed out") (fun t => eq_refl)) as (H1 & H2 & _).
  split; [exact H1|exact H2].
Defined.

(** C2 on a scraper whose cache file holds the first ad. *)
Lemma scrape_ad_skips_cached_url_witness :
  ad1 ∈ scraped_urls seen
  ∧ scrape_ad ifs (site addr) ad1 seen
    = (None, logged INFO (SkippingScraped ad1) seen).
Proof.
  assert (ad1 ∈ scraped_urls seen) as Hin by (vm_compute; reflexivity).
  split; [exact Hin|].
  exact (proj1 (scrape_ad_skips_cached_url ifs (site addr) ad1 seen Hin)).
Defined.

(** C3 on the sample ad, whose page has no balcony label. *)
Lemma absent_field_is_NA_witness :
  ∃ r, (scrape_ad ifs (site addr) ad1 fresh).1 = Some r
       ∧ dict_get "Тагт" r = Some NA.
Proof.
  destruct (absent_field_is_NA ifs (site addr) ad1 fresh
              (make_request (site addr) ad1 0 fresh).2 (ad_page addr))
    as (_ & _ & Hrec & _).
  - apply (bool_decide_unpack _). vm_compute. exact I.
  - vm_compute. reflexivity.
  - destruct (Hrec eq_refl "0e5e304352551f88d25fe9218c8dc20b")
      as (r & Had & _ & Habs).
    + vm_compute. reflexivity.
    + exists r. split; [by rewrite Had|].
      apply (Habs "Тагт" "span" (WithText "Тагт:")).
      * apply (bool_decide_unpack _). vm_compute. exact I.
      * vm_compute. reflexivity.
Defined.

(** C5 on the 45 links of the sample listing: two saves in the loop. *)
Lemma saves_of_45_links_witness :
  length links45 = 45%nat
  ∧ length (writes (run_ads ifs site45 45 1 links45 [] fresh).2) = 2%nat.
Proof.
  split; [reflexivity|].
  pose proof (saves_of_45_links ifs site45 links45 [] fresh eq_refl) as H.
  destruct (run_ads ifs site45 45 1 (take 20 links45) [] fresh) as [d20 s20].
  destruct (run_ads ifs site45 45 21 (take 20 (drop 20 links45)) d20 s20)
    as [d40 s40].
  destruct (run_ads ifs site45 45 41 (drop 40 links45) d40 s40) as [d45 s45].
  destruct H as (-> & (f1 & f2 & _ & _ & E40 & _ & E45 & _) & _).
  cbn [snd]. rewrite E45, E40. reflexivity.
Defined.

(** C6 on the first ad: the digest [hashlib] gives for its URL. *)
Lemma generate_ad_id_witness :
  dict_get "ad_id" (record_of (scrape_ad ifs (site addr) ad1 fresh))
  = Some "0e5e304352551f88d25fe9218c8dc20b".
Proof.
  rewrite (proj2 (proj2 (generate_ad_id_depends_on_url_only ifs ad1 fresh fresh))
             (site addr) fresh
             (record_of (scrape_ad ifs (site addr) ad1 fresh))
             (scrape_ad ifs (site addr) ad1 fresh).2).
  - vm_compute. reflexivity.
  - vm_compute. reflexivity.
Defined.

(** C4 from page 2 of the sample site, which has no link: pages 3 to 5
    are not visited. *)
Lemma run_pages_stops_witness :
  (run_pages (site addr) base_url [2; 3; 4; 5]%nat ["/adv/0/"] fresh).1 = ["/adv/0/"]
  ∧ pages_logged
      (log (run_pages (site addr) base_url [2; 3; 4; 5]%nat ["/adv/0/"] fresh).2)
    = [2%nat].
Proof.
  rewrite (proj2 (run_pages_stops_at_first_empty_page (site addr) base_url 5 fresh)
             2%nat [3; 4; 5]%nat ["/adv/0/"] fresh
             (scrape_page (site addr) (page_url base_url 2)
                (logged INFO (ScrapingPage 2) fresh)).2).
  - split; [reflexivity|]. vm_compute. reflexivity.
  - vm_compute. reflexivity.
Defined.

(** C7 on the address of the specification. *)
Lemma address_is_split_witness :
  dict_get "Дүүрэг" (record_of (scrape_ad ifs (site addr) ad1 fresh))
  = Some "Chingeltei"
  ∧ dict_get "Байршил" (record_of (scrape_ad ifs (site addr) ad1 fresh))
    = Some "64th khoroolol, unit 5".
Proof.
  pose proof (address_is_split_at_em_dashes ifs (site addr) ad1 fresh
            (make_request (site addr) ad1 0 fresh).2
            (scrape_ad ifs (site addr) ad1 fresh).2
            (ad_page addr)
            (record_of (scrape_ad ifs (site addr) ad1 fresh))
            (default [] (tag_find (BeautifulSoup (ad_page addr)) "span"
                           (WithAttr "itemprop" "address")))) as H.
  destruct H as [H _].
  - vm_compute. reflexivity.
  - vm_compute. reflexivity.
  - vm_compute. reflexivity.
  - apply (H "Chingeltei " "  64th khoroolol, unit 5" []).
    + vm_compute. reflexivity.
    + vm_compute. reflexivity.
    + vm_compute. reflexivity.
    + left. reflexivity.
Defined.


(** C9 on the first ad of the sample site. *)
Lemma cached_before_saved_witness :
  cache_file (scrape_ad ifs (site addr) ad1 fresh).2 = Some (ad1 ++ [10])
  ∧ writes (scrape_ad ifs (site addr) ad1 fresh).2 = []
  ∧ scrape_ad ifs (site addr) ad1 (init (Some (ad1 ++ [10])) ∅)
    = (None, logged INFO (SkippingScraped ad1) (init (Some (ad1 ++ [10])) ∅)).
Proof.
  pose proof (cached_before_saved_then_skipped_on_resume ifs (site addr) (site addr)
                ad1 fresh (scrape_ad ifs (site addr) ad1 fresh).2
                (record_of (scrape_ad ifs (site addr) ad1 fresh))) as H.
  destruct H as (H1 & _ & _ & H2 & H3).
  - vm_compute. reflexivity.
  - apply (bool_decide_unpack _). vm_compute. exact I.
  - apply (bool_decide_unpack _). vm_compute. exact I.
  - left. reflexivity.
  - vm_compute. reflexivity.
  - split; [exact H1|]. split; [exact H2|].
    destruct (H3 [] ∅) as (_ & H4 & _). exact H4.
Defined.

(** C10 from page 2: the site that is down and the sample site, whose
    page 2 is empty, end the page loop alike. *)
Lemma failed_listing_page_witness :
  (run_pages down base_url [2; 3; 4]%nat ["/adv/0/"] fresh).1 = ["/adv/0/"]
  ∧ requests (run_pages down base_url [2; 3; 4]%nat ["/adv/0/"] fresh).2
    = replicate 4 (page_url base_url 2)
  ∧ (run_pages (site addr) base_url [2; 3; 4]%nat ["/adv/0/"] fresh).1
    = ["/adv/0/"].
Proof.
  destruct (failed_listing_page_ends_pagination down (site addr) base_url
              2%nat [3; 4]%nat ["/adv/0/"] fresh (fun _ => "timed out") (listing []))
    as (_ & H1 & H2 & _ & _ & H3 & _).
  - intros t. reflexivity.
  - vm_compute. reflexivity.
  - vm_compute. reflexivity.
  - split; [exact H1|]. split; [exact H2|exact H3].
Defined.

(** C5 as stated fails: with 45 links found, no ad page answering and
    no earlier snapshot, a run saves twice, both times the empty batch. *)
Lemma three_saves_counterexample :
  links_found (log (run ifs site45 base_url 1 fresh).2) = [45%nat]
  ∧ writes (run ifs site45 base_url 1 fresh).2
    = [("unegui_sales_data_20261103.csv", []);
       ("unegui_sales_data_20261103.csv", [])]
  ∧ length (writes (run ifs site45 base_url 1 fresh).2) ≠ 3%nat.
Proof.
  split; [vm_compute; reflexivity|]. split; [vm_compute; reflexivity|].
  vm_compute. discriminate.
Qed.

(** C7 as stated fails: for the address "A — B — C" the location is
    "B", not the text after the em-dash. *)
Lemma location_after_em_dash_counterexample :
  tag_text (default [] (tag_find (BeautifulSoup (ad_page "A — B — C")) "span"
                          (WithAttr "itemprop" "address")))
  = "A " ++ "—" ++ " B — C"
  ∧ dict_get "Байршил" (record_of (scrape_ad ifs (site "A — B — C") ad1 fresh))
    = Some "B"
  ∧ dict_get "Байршил" (record_of (scrape_ad ifs (site "A — B — C") ad1 fresh))
    ≠ Some (strip " B — C").
Proof.
  split; [vm_compute; reflexivity|]. split; [vm_compute; reflexivity|].
  vm_compute. discriminate.
Qed.

(** C9, where the code departs from it: [save_scraped_url] writes the
    URL as it is and [load_scraped_urls] strips the line it reads.  The
    link of the listing ends with a space; the ad loop scrapes the ad
    and caches its URL, and is interrupted before any save; the cache
    file gives the URL back without the space, so the next run does not
    skip the ad: it fetches it again and saves its record. *)
Lemma refetched_on_resume_counterexample :
  let interrupted := run_ads ifs spaced 1 1 ["/adv/1/ "] [] fresh in
  let resumed := init (cache_file interrupted.2) (files interrupted.2) in
  let final := (run ifs spaced base_url 1 resumed).2 in
  map (dict_get "link") interrupted.1 = [Some ad1_spaced]
  ∧ cache_file interrupted.2 = Some (ad1_spaced ++ [10])
  ∧ writes interrupted.2 = []
  ∧ (ad1_spaced ∉ scraped_urls resumed)
  ∧ requests final = [base_url; ad1_spaced]
  ∧ map (fun w => map (dict_get "link") w.2) (writes final)
    = [[Some ad1_spaced]].
Proof.
  cbv zeta. split; [vm_compute; reflexivity|].
  split; [vm_compute; reflexivity|]. split; [vm_compute; reflexivity|].
  split; [apply (bool_decide_unpack _); vm_compute; exact I|].
  split; vm_compute; reflexivity.
Qed.

(** * Further properties of the code *)

(** [set_solver] clears hypotheses by name, and says so when one is
    not there. *)
Set Warnings "-clear-no-such-hyp".

(** ** Retries *)

Section Retries.

Context {html : Type}.

Lemma make_request_fails_then (W : World html) url rc s (cause : nat -> str) j :
  (rc + j <= MAX_RETRIES)%nat ->
  (forall i, (i < j)%nat -> net W (clock s + i) url = RequestException (cause i)) ->
  ∃ s1, make_request W url rc s = make_request W url (rc + j) s1
        ∧ requests s1 = requests s ++ replicate j url
        ∧ clock s1 = (clock s + j)%nat
        ∧ log s1
          = log s ++ map (fun i => (WARNING,
                                    Retrying url (cause i) (2 ^ N.of_nat (rc + i))))
                         (seq 0 j)
        ∧ scraped_urls s1 = scraped_urls s ∧ cache_file s1 = cache_file s
        ∧ files s1 = files s ∧ writes s1 = writes s.
Proof.
  revert rc s cause. induction j as [|j IH]; intros rc s cause Hle Hfail.
  - exists s. rewrite Nat.add_0_r, !app_nil_r. by rewrite Nat.add_0_r.
  - rewrite (make_request_retry W url rc s (cause 0%nat));
      [|by rewrite <- (Hfail 0%nat), Nat.add_0_r by lia|lia].
    destruct (IH (rc + 1)%nat
                (logged WARNING (Retrying url (cause 0%nat) (2 ^ N.of_nat rc))
                   (fetched url s)) (fun i => cause (S i)))
      as (s1 & E & Er & Ec & El & Eu & Ef & Efi & Ew).
    { lia. }
    { intros i Hi. simpl. rewrite <- (Hfail (S i)) by lia. f_equal. lia. }
    exists s1. split; [rewrite E; f_equal; lia|].
    simpl in *. split; [by rewrite Er, <- app_assoc|].
    split; [lia|]. split; [|done].
    rewrite El, <- app_assoc. f_equal. simpl.
    rewrite Nat.add_0_r. f_equal. rewrite <- seq_shift, map_map.
    apply map_ext. intros i. do 3 f_equal. lia.
Qed.

(** The trace of one call: [k] requests, the last of which decides. *)
Lemma make_request_trace (W : World html) url rc s :
  ∃ k, (1 <= k <= S (MAX_RETRIES - rc))%nat
       ∧ requests (make_request W url rc s).2 = requests s ++ replicate k url
       ∧ clock (make_request W url rc s).2 = (clock s + k)%nat
       ∧ (forall i, (S i < k)%nat ->
            ∃ e, net W (clock s + i) url = RequestException e)
       ∧ match (make_request W url rc s).1 with
         | Some text => net W (clock s + k - 1) url = Response text
         | None => k = S (MAX_RETRIES - rc)
                   ∧ ∃ e, net W (clock s + k - 1) url = RequestException e
         end.
Proof.
  remember (MAX_RETRIES - rc)%nat as n eqn:Hn. revert rc s Hn.
  induction n as [|n IH]; intros rc s Hn.
  - exists 1%nat. destruct (net W (clock s) url) as [text|e] eqn:E.
    + rewrite (make_request_ok _ _ _ _ _ E). simpl.
      replace (clock s + 1 - 1)%nat with (clock s) by lia.
      repeat split; try lia; try done; try (intros; lia).
    + rewrite (make_request_give_up _ _ _ _ _ E) by lia. simpl.
      replace (clock s + 1 - 1)%nat with (clock s) by lia.
      repeat split; try lia; try done; try (intros; lia); try (by exists e).
  - destruct (net W (clock s) url) as [text|e] eqn:E.
    + exists 1%nat. rewrite (make_request_ok _ _ _ _ _ E). simpl.
      replace (clock s + 1 - 1)%nat with (clock s) by lia.
      repeat split; try lia; try done; try (intros; lia).
    + rewrite (make_request_retry _ _ _ _ _ E) by lia.
      destruct (IH (rc + 1)%nat
                  (logged WARNING (Retrying url e (2 ^ N.of_nat rc)) (fetched url s)))
        as (k & Hk & Er & Ec & Hf & Hl); [lia|].
      exists (S k). simpl in *. split; [lia|].
      split; [by rewrite Er, <- app_assoc|]. split; [lia|]. split.
      * intros [|i] Hi; [rewrite Nat.add_0_r; by exists e|].
        destruct (Hf i) as [e' He']; [lia|]. exists e'.
        rewrite <- He'. f_equal. lia.
      * replace (clock s + S k - 1)%nat with (S (clock s) + k - 1)%nat by lia.
        destruct (make_request W url (rc + 1) _).1; [done|].
        destruct Hl as [-> Hl]. split; [lia|done].
Qed.

(** X1. When the first [j] attempts for a URL fail and the next one
    succeeds, with [j] at most [MAX_RETRIES], [make_request] returns the
    response of that attempt after [j + 1] requests, having logged one
    warning for each failure, with its cause and the backoff 2^i of the
    i-th retry; nothing but the log, the trace of requests and the clock
    changes. *)
Theorem make_request_returns_first_success (W : World html) (url : str)
    (s : state) (cause : nat -> str) (j : nat) (text : html) :
  (j <= MAX_RETRIES)%nat ->
  (forall i, (i < j)%nat -> net W (clock s + i) url = RequestException (cause i)) ->
  net W (clock s + j) url = Response text ->
  (make_request W url 0 s).1 = Some text
  ∧ requests (make_request W url 0 s).2 = requests s ++ replicate (S j) url
  ∧ log (make_request W url 0 s).2
    = log s ++ map (fun i => (WARNING, Retrying url (cause i) (2 ^ N.of_nat i)))
                   (seq 0 j)
  ∧ clock (make_request W url 0 s).2 = (clock s + S j)%nat
  ∧ scraped_urls (make_request W url 0 s).2 = scraped_urls s
  ∧ cache_file (make_request W url 0 s).2 = cache_file s
  ∧ files (make_request W url 0 s).2 = files s
  ∧ writes (make_request W url 0 s).2 = writes s.
Proof.
  intros Hj Hfail Hok.
  destruct (make_request_fails_then W url 0 s cause j Hj Hfail)
    as (s1 & E & Er & Ec & El & Eu & Ef & Efi & Ew).
  rewrite E. rewrite (make_request_ok W url _ s1 text) by (by rewrite Ec).
  simpl. rewrite Er, Ec, El, Eu, Ef, Efi, Ew.
  repeat split; try done.
  by rewrite <- app_assoc, replicate_cons_app.
Qed.

(** X2. Whatever the site answers, one call of [make_request] sends at
    least one and at most four requests, all for the same URL.  It
    returns [None] only after four failed attempts, and a response only
    when the last attempt gave it and every attempt before failed. *)
Theorem make_request_attempts_bounded (W : World html) (url : str) (s : state) :
  ∃ k, (1 <= k <= 4)%nat
       ∧ requests (make_request W url 0 s).2 = requests s ++ replicate k url
       ∧ ((make_request W url 0 s).1 = None ->
          k = 4%nat
          ∧ forall i, (i < 4)%nat ->
              ∃ e, net W (clock s + i) url = RequestException e)
       ∧ forall text, (make_request W url 0 s).1 = Some text ->
           net W (clock s + k - 1) url = Response text
           ∧ forall i, (S i < k)%nat ->
               ∃ e, net W (clock s + i) url = RequestException e.
Proof.
  destruct (make_request_trace W url 0 s) as (k & Hk & Er & Ec & Hf & Hl).
  exists k. change (S (MAX_RETRIES - 0)) with 4%nat in *.
  split; [done|]. split; [done|]. split.
  - intros E. rewrite E in Hl. destruct Hl as [-> [e He]]. split; [done|].
    intros i Hi. destruct (decide (i = 3%nat)) as [->|].
    + exists e. rewrite <- He. f_equal. lia.
    + apply Hf. lia.
  - intros text E. rewrite E in Hl. done.
Qed.

End Retries.

(** ** The cache file *)

Section Cache.

Import TextIO.

Lemma cache_lines_app l1 l2 : cache_lines (l1 ++ l2) = cache_lines l1 ++ cache_lines l2.
Proof. unfold cache_lines. by rewrite flat_map_app. Qed.

Lemma ends_line_app (c u : str) : ends_line (c ++ u ++ [10]).
Proof. right. by rewrite !app_assoc, last_snoc. Qed.

Lemma ends_line_cache_lines (c : str) us : ends_line c -> ends_line (c ++ cache_lines us).
Proof.
  revert c. induction us as [|u us IH]; intros c Hc; simpl.
  - by rewrite app_nil_r.
  - rewrite <- app_assoc, (app_assoc c). rewrite app_assoc. apply IH.
    rewrite <- app_assoc. apply ends_line_app.
Qed.

Lemma readlines_nil : readlines [] = [].
Proof. reflexivity. Qed.

Lemma readlines_ends_line (c rest : str) :
  ends_line c -> readlines (c ++ rest) = readlines c ++ readlines rest.
Proof. intros [->|H]; [done|by apply readlines_app]. Qed.

Lemma readlines_cache_lines (c : str) us :
  ends_line c -> Forall clean us ->
  map strip (readlines (c ++ cache_lines us)) = map strip (readlines c) ++ us.
Proof.
  intros Hc Hus. revert c Hc. induction Hus as [|u us (Hs & H10 & H13) Hus IH]; intros c Hc.
  - simpl. by rewrite !app_nil_r.
  - simpl. rewrite <- app_assoc, (app_assoc c), app_assoc.
    rewrite IH by (rewrite <- app_assoc; apply ends_line_app).
    rewrite <- app_assoc, (readlines_ends_line c) by done.
    rewrite readlines_line by done. rewrite map_app. simpl.
    rewrite strip_line by done. by rewrite <- app_assoc.
Qed.

Lemma reloaded_eq s :
  reloaded s = match cache_file s with
               | Some content => list_to_set (map strip (readlines content))
               | None => ∅
               end.
Proof. unfold reloaded. by destruct (cache_file s). Qed.

Lemma saves_effect (s : state) (urls : list str) :
  let s' := foldl (fun s url => (save_scraped_url url s).2) s urls in
  scraped_urls s' = list_to_set urls ∪ scraped_urls s
  ∧ default [] (cache_file s') = default [] (cache_file s) ++ cache_lines urls
  ∧ (urls ≠ [] -> is_Some (cache_file s'))
  ∧ (urls = [] -> s' = s).
Proof.
  revert s. induction urls as [|u urls IH]; intros s; simpl.
  - rewrite app_nil_r. repeat split; try done. set_solver.
  - destruct (IH (cached u s)) as (E1 & E2 & E3 & E4). simpl in *.
    rewrite E1, E2. repeat split; try done.
    + set_solver.
    + by rewrite <- !app_assoc.
    + intros _. destruct urls as [|u' urls']; [by rewrite E4|by apply E3].
Qed.

(** X3. Round trip of the cache file.  After [save_scraped_url] for a
    list of URLs that have no white space at either end and no line
    break, on a cache file that is absent, empty or ends a line, the set
    in memory has gained exactly these URLs, and so has the set
    [load_scraped_urls] reads from the file; a scraper whose set agreed
    with its file before agrees with it after. *)
Theorem saved_urls_are_reloaded (s : state) (urls : list str) :
  ends_line (default [] (cache_file s)) -> Forall clean urls ->
  let s' := foldl (fun s url => (save_scraped_url url s).2) s urls in
  scraped_urls s' = list_to_set urls ∪ scraped_urls s
  ∧ reloaded s' = list_to_set urls ∪ reloaded s
  ∧ (scraped_urls s = reloaded s -> scraped_urls s' = reloaded s').
Proof.
  intros Hc Hus s'.
  destruct (saves_effect s urls) as (E1 & E2 & E3 & E4). fold s' in E1, E2, E3, E4.
  assert (reloaded s' = list_to_set urls ∪ reloaded s) as Hr.
  { destruct urls as [|u urls'].
    - rewrite E4 by done. set_solver.
    - destruct E3 as [c' Hc']; [done|]. rewrite !reloaded_eq, Hc'.
      rewrite Hc' in E2. change (default [] (Some c')) with c' in E2. rewrite E2.
      rewrite readlines_cache_lines by done.
      rewrite list_to_set_app_L.
      destruct (cache_file s) as [c|]; simpl; set_solver. }
  split; [done|]. split; [done|]. intros Hs. by rewrite E1, Hr, Hs.
Qed.

Lemma reloaded_grows (s s' : state) (urls : list str) :
  ends_line (default [] (cache_file s)) -> Forall clean urls ->
  default [] (cache_file s') = default [] (cache_file s) ++ cache_lines urls ->
  (urls = [] -> cache_file s' = cache_file s) ->
  reloaded s' = list_to_set urls ∪ reloaded s.
Proof.
  intros Hc Hus E Hk. destruct urls as [|u urls'].
  - rewrite !reloaded_eq, Hk by done. set_solver.
  - rewrite !reloaded_eq. destruct (cache_file s') as [c'|].
    + change (default [] (Some c')) with c' in E. rewrite E.
      rewrite readlines_cache_lines by done. rewrite list_to_set_app_L.
      destruct (cache_file s) as [c|]; simpl; set_solver.
    + exfalso. simpl in E. symmetry in E. apply app_eq_nil in E as [_ E].
      apply app_eq_nil in E as [E _]. by apply app_eq_nil in E as [_ E].
Qed.

End Cache.

(** ** The cache and the batch *)

Section Ledger.

Context {html tag : Type} `{!Soup html tag}.
Variable int_float_str : str -> option str.

(** What [scrape_ad] has done on return: without a record, it has only
    fetched and logged; with a record, it has fetched, read the clock
    and cached the URL. *)
Lemma scrape_ad_cases (W : World html) url s :
  match (scrape_ad int_float_str W url s).1 with
  | None => only_fetches url s (scrape_ad int_float_str W url s).2
  | Some r =>
    (url ∉ scraped_urls s) ∧ dict_get "link" r = Some url
    ∧ ∃ s1, only_fetches url s s1
            ∧ (scrape_ad int_float_str W url s).2 = cached url s1
  end.
Proof.
  destruct (scrape_ad int_float_str W url s) as [[r|] s'] eqn:E; simpl.
  - destruct (scrape_ad_link _ _ _ _ _ _ E) as [Hl _].
    destruct (scrape_ad_inv _ _ _ _ _ _ E)
      as (Hn & text & s1 & ad_id & Em & _ & _ & -> & _).
    split; [done|]. split; [done|]. exists (ticked s1). split; [|done].
    eapply only_fetches_trans; [|apply only_fetches_ticked].
    pose proof (make_request_only_fetches W url 0 s) as Ho. by rewrite Em in Ho.
  - unfold scrape_ad, bind, get_state in E.
    destruct (decide (url ∈ scraped_urls s)).
    + injection E as <-. apply only_fetches_logged.
    + pose proof (make_request_only_fetches W url 0 s) as Ho.
      destruct (make_request W url 0 s) as [[text|] s1]; simpl in *.
      * destruct (parser_error text) as [e|].
        { injection E as <-.
          eapply only_fetches_trans; [apply Ho|]. apply only_fetches_logged. }
        destruct (generate_ad_id s url) as [ad_id|].
        -- destruct (handle_address _ _ _ _); simpl in E. discriminate.
        -- simpl in E. injection E as <-.
           eapply only_fetches_trans; [apply Ho|].
           eapply only_fetches_trans; [apply only_fetches_ticked|].
           apply only_fetches_logged.
      * by injection E as <-.
Qed.

(** X4. [scrape_ad] writes no snapshot, and it records the URL in the
    cache exactly when it returns a record: without a record, the set
    and the cache file are as before, so the ad is tried again by the
    next run; with a record, the URL was not in the set, it is the
    [link] of the record, and it has been added to the set and appended
    to the file as one line. *)
Theorem scrape_ad_caches_iff_record (W : World html) (url : str) (s : state) :
  files (scrape_ad int_float_str W url s).2 = files s
  ∧ writes (scrape_ad int_float_str W url s).2 = writes s
  ∧ match (scrape_ad int_float_str W url s).1 with
    | None =>
      scraped_urls (scrape_ad int_float_str W url s).2 = scraped_urls s
      ∧ cache_file (scrape_ad int_float_str W url s).2 = cache_file s
    | Some r =>
      (url ∉ scraped_urls s) ∧ link_of r = url
      ∧ scraped_urls (scrape_ad int_float_str W url s).2 = {[url]} ∪ scraped_urls s
      ∧ cache_file (scrape_ad int_float_str W url s).2
        = Some (default [] (cache_file s) ++ url ++ [10])
    end.
Proof.
  pose proof (scrape_ad_cases W url s) as Hc.
  destruct (scrape_ad int_float_str W url s).1 as [r|].
  - destruct Hc as (Hn & Hl & s1 & (Eu & Ec & Ef & Ew & _) & ->). simpl.
    unfold link_of. rewrite Hl, Eu, Ec. done.
  - destruct Hc as (Eu & Ec & Ef & Ew & _). done.
Qed.

Lemma run_ad_ledger (W : World html) total i link d s :
  ∃ new, (run_ad int_float_str W total i link d s).1 = d ++ new
    ∧ (new = [] ∨ ∃ r, new = [r] ∧ link_of r = SITE ++ link
                       ∧ SITE ++ link ∉ scraped_urls s)
    ∧ scraped_urls (run_ad int_float_str W total i link d s).2
      = list_to_set (map link_of new) ∪ scraped_urls s
    ∧ default [] (cache_file (run_ad int_float_str W total i link d s).2)
      = default [] (cache_file s) ++ cache_lines (map link_of new)
    ∧ (new = [] -> cache_file (run_ad int_float_str W total i link d s).2
                   = cache_file s).
Proof.
  rewrite run_ad_eq.
  pose proof (scrape_ad_cases W (SITE ++ link)
                (logged INFO (ScrapingAd i total (SITE ++ link)) s)) as Hc.
  destruct (scrape_ad int_float_str W (SITE ++ link) _) as [[r|] s1]; simpl in Hc.
  - destruct Hc as (Hn & Hl & s0 & (Eu & Ec & _) & ->).
    exists [r]. simpl in Eu, Ec.
    assert (link_of r = SITE ++ link) as Hr by (unfold link_of; by rewrite Hl).
    destruct (decide (i mod 20 = 0)%nat); cbn [fst snd];
      (split; [done|]); (split; [right; by exists r|]);
      cbn [map list_to_set scraped_urls cache_file cached written logged ticked];
      rewrite Hr, Eu, Ec; (split; [set_solver|]);
      (split; [cbn [default]; unfold cache_lines; simpl;
               by rewrite app_nil_r|done]).
  - destruct Hc as (Eu & Ec & _). exists []. simpl in Eu, Ec.
    destruct (decide (i mod 20 = 0)%nat); cbn [fst snd];
      rewrite app_nil_r; (split; [done|]); (split; [by left|]);
      cbn [map list_to_set scraped_urls cache_file cached written logged ticked];
      rewrite Eu, Ec; (split; [set_solver|]);
      (split; [unfold cache_lines; simpl; by rewrite app_nil_r|done]).
Qed.

Lemma run_ads_ledger (W : World html) total i links d s :
  ∃ new, (run_ads int_float_str W total i links d s).1 = d ++ new
    ∧ map link_of new `sublist_of` map (app SITE) links
    ∧ NoDup (map link_of new)
    ∧ (forall r, r ∈ new -> link_of r ∉ scraped_urls s)
    ∧ scraped_urls (run_ads int_float_str W total i links d s).2
      = list_to_set (map link_of new) ∪ scraped_urls s
    ∧ default [] (cache_file (run_ads int_float_str W total i links d s).2)
      = default [] (cache_file s) ++ cache_lines (map link_of new)
    ∧ (new = [] -> cache_file (run_ads int_float_str W total i links d s).2
                   = cache_file s).
Proof.
  revert i d s. induction links as [|link links IH]; intros i d s.
  - exists []. simpl. rewrite !app_nil_r. repeat split; try done.
    + constructor.
    + intros r Hr. by apply elem_of_nil in Hr.
    + set_solver.
  - rewrite run_ads_cons.
    destruct (run_ad_ledger W total i link d s) as (new1 & E1 & Hn1 & Eu1 & Ec1 & Ek1).
    destruct (run_ad int_float_str W total i link d s) as [d1 s1].
    cbv beta iota in *. cbn [fst snd] in *. subst d1.
    destruct (IH (S i) (d ++ new1) s1) as (new2 & E2 & Hsub & Hnd & Hnot & Eu2 & Ec2 & Ek2).
    exists (new1 ++ new2). rewrite E2, <- app_assoc. split; [done|].
    rewrite map_app, cache_lines_app, list_to_set_app_L.
    rewrite Eu2, Ec2, Eu1, Ec1.
    assert (forall r, r ∈ new2 -> link_of r ∉ list_to_set (C := gset str)
                                                 (map link_of new1)) as Hd.
    { intros r Hr Hin. apply (Hnot r Hr). rewrite Eu1. set_solver. }
    destruct Hn1 as [->|(r1 & -> & Hr1 & Hs1)];
      cbn [map app list_to_set cache_lines flat_map].
    + rewrite ?app_nil_r. repeat split; try done.
      * by apply sublist_cons.
      * intros r Hr. specialize (Hnot r Hr). rewrite Eu1 in Hnot. set_solver.
      * set_solver.
      * intros ->. rewrite app_nil_r in Ek2. rewrite Ek2, Ek1; done.
    + rewrite Hr1. repeat split.
      * by apply sublist_skip.
      * apply NoDup_cons. split; [|done].
        intros Hin. apply list_elem_of_fmap in Hin as (r & Er & Hr).
        apply (Hd r Hr). rewrite <- Er. cbn [map list_to_set]. set_solver.
      * intros r Hr. apply elem_of_cons in Hr as [->|Hr]; [by rewrite Hr1|].
        specialize (Hnot r Hr). rewrite Eu1 in Hnot. set_solver.
      * set_solver.
      * by rewrite <- !app_assoc.
      * done.
Qed.

Lemma run_ads_in_step (W : World html) total i links d s :
  ends_line (default [] (cache_file s)) ->
  Forall (fun link => clean (SITE ++ link)) links ->
  scraped_urls s = reloaded s ->
  scraped_urls (run_ads int_float_str W total i links d s).2
  = reloaded (run_ads int_float_str W total i links d s).2
  ∧ ends_line
      (default [] (cache_file (run_ads int_float_str W total i links d s).2)).
Proof.
  intros Hc Hl Hs.
  destruct (run_ads_ledger W total i links d s)
    as (new & _ & Hsub & _ & _ & Eu & Ec & Ek).
  assert (Forall clean (map link_of new)) as Hclean.
  { apply Forall_forall. intros u Hu.
    apply (λ H, elem_of_sublist _ _ _ H Hsub) in Hu.
    apply list_elem_of_fmap in Hu as (link & -> & Hin).
    by apply (proj1 (Forall_forall _ _) Hl). }
  split.
  - rewrite (reloaded_grows s _ (map link_of new)); try done.
    + by rewrite Eu, Hs.
    + intros E. apply Ek. by apply fmap_nil_inv in E.
  - rewrite Ec. by apply ends_line_cache_lines.
Qed.

(** X5. The ad loop may be interrupted after any number of links.
    When the cache file is absent, empty or ends with a newline at the
    start, the links give URLs that the cache file gives back unchanged,
    and the set agreed with the cache file at the start, then after the
    first [n] links a scraper created on the cache file left, in
    whatever directory, has exactly the set of the scraper that
    stopped; and the cache file left ends with a newline, or is absent
    or empty still. *)
Theorem interrupted_ad_loop_keeps_set_and_file_in_step (W : World html)
    (total i : nat) (links : list str) (all_data : list row) (s : state)
    (n : nat) (dir : gmap str file) :
  ends_line (default [] (cache_file s)) ->
  Forall (fun link => clean (SITE ++ link)) links ->
  scraped_urls s = reloaded s ->
  let s' := (run_ads int_float_str W total i (take n links) all_data s).2 in
  scraped_urls (init (cache_file s') dir) = scraped_urls s'
  ∧ ends_line (default [] (cache_file s')).
Proof.
  intros Hc Hl Hs s'.
  assert (Forall (fun link => clean (SITE ++ link)) (take n links)) as Hl'
    by (by apply Forall_take).
  destruct (run_ads_in_step W total i (take n links) all_data s Hc Hl' Hs)
    as [H1 H2].
  split; [|done]. fold s' in H1. rewrite H1. unfold reloaded.
  by destruct (cache_file s').
Qed.

End Ledger.

(** ** Snapshot names *)

Section Names.

Lemma startswith_app (p x : str) : startswith (p ++ x) p = true.
Proof. induction p as [|c p IH]; simpl; [done|]. by rewrite N.eqb_refl. Qed.

Lemma endswith_app (x p : str) : endswith (x ++ p) p = true.
Proof. unfold endswith. rewrite rev_app_distr. apply startswith_app. Qed.

Lemma is_snapshot_name_output_file_on (d : date) :
  is_snapshot_name (output_file_on d) = true.
Proof.
  unfold is_snapshot_name, output_file_on.
  rewrite startswith_app. rewrite app_assoc, endswith_app. done.
Qed.

End Names.

(** ** Saves *)

Section Saves.

Context {html tag : Type} `{!Soup html tag}.
Variable int_float_str : str -> option str.

Lemma saving_turn_count (n : nat) :
  length (filter (fun j => j mod 20 = 0)%nat (seq 1 n)) = (n / 20)%nat.
Proof.
  induction n as [|n IH]; [done|].
  rewrite seq_S, filter_app, length_app, IH.
  change (1 + n)%nat with (S n). rewrite filter_cons, filter_nil.
  pose proof (Nat.div_mod_eq n 20) as E1.
  pose proof (Nat.div_mod_eq (S n) 20) as E2.
  pose proof (Nat.mod_upper_bound n 20 ltac:(lia)) as B1.
  pose proof (Nat.mod_upper_bound (S n) 20 ltac:(lia)) as B2.
  destruct (decide (S n mod 20 = 0)%nat) as [E|E]; cbn [length]; lia.
Qed.

Lemma growing_weaken a b l : growing (a :: l) -> b `prefix_of` a -> growing (b :: l).
Proof.
  destruct l as [|c l]; [done|]. intros [H1 H2] Hb. split; [|done].
  by etrans.
Qed.

Lemma replay_app ws1 ws2 dir : replay (ws1 ++ ws2) dir = replay ws2 (replay ws1 dir).
Proof. unfold replay. by rewrite foldl_app. Qed.

Lemma run_ad_writes (W : World html) total i link d s :
  d `prefix_of` (run_ad int_float_str W total i link d s).1
  ∧ ∃ t, writes (run_ad int_float_str W total i link d s).2
         = writes s
           ++ (if decide (i mod 20 = 0)%nat
               then [(output_file_on (today W t),
                      (run_ad int_float_str W total i link d s).1)]
               else [])
       ∧ files (run_ad int_float_str W total i link d s).2
         = replay (if decide (i mod 20 = 0)%nat
                   then [(output_file_on (today W t),
                          (run_ad int_float_str W total i link d s).1)]
                   else []) (files s).
Proof.
  rewrite run_ad_eq.
  pose proof (scrape_ad_effect int_float_str W (SITE ++ link)
                (logged INFO (ScrapingAd i total (SITE ++ link)) s)) as He.
  destruct (scrape_ad int_float_str W (SITE ++ link) _) as [ad_data s1].
  cbv zeta in He. cbn [fst snd] in He. destruct He as (Ef & Ew & _).
  cbn [files writes logged] in Ef, Ew. cbv zeta.
  assert (d `prefix_of` match ad_data with Some r => d ++ [r] | None => d end) as Hp.
  { destruct ad_data; [by apply prefix_app_r|done]. }
  destruct (decide (i mod 20 = 0)%nat); cbn [fst snd]; (split; [done|]);
    exists (clock s1); cbn [files writes logged written ticked replay foldl fst snd];
    rewrite ?Ef, ?Ew, ?app_nil_r; done.
Qed.

Lemma run_ads_writes (W : World html) total i links d s :
  ∃ ws, writes (run_ads int_float_str W total i links d s).2 = writes s ++ ws
    ∧ files (run_ads int_float_str W total i links d s).2 = replay ws (files s)
    ∧ length ws
      = length (filter (fun j => j mod 20 = 0)%nat (seq i (length links)))
    ∧ Forall (fun w => ∃ t, w.1 = output_file_on (today W t)) ws
    ∧ growing (d :: ws.*2 ++ [(run_ads int_float_str W total i links d s).1]).
Proof.
  revert i d s. induction links as [|link links IH]; intros i d s.
  - exists []. simpl. rewrite app_nil_r. repeat split; try done.
  - rewrite run_ads_cons.
    destruct (run_ad_writes W total i link d s) as (Hp & t & Ew1 & Ef1).
    destruct (run_ad int_float_str W total i link d s) as [d1 s1].
    cbv beta iota in *. cbn [fst snd] in *.
    destruct (IH (S i) d1 s1) as (ws2 & Ew2 & Ef2 & Hlen & Hall & Hg).
    cbn [length seq]. rewrite filter_cons.
    destruct (decide (i mod 20 = 0)%nat) as [E|E].
    + exists ((output_file_on (today W t), d1) :: ws2).
      rewrite Ew2, Ew1, Ef2, Ef1, <- app_assoc. repeat split; try done.
      * cbn [length]. by rewrite Hlen.
      * constructor; [by exists t|done].
    + exists ws2. rewrite Ew2, Ew1, Ef2, Ef1, app_nil_r.
      repeat split; try done. by eapply growing_weaken.
Qed.

(** The batches written by the ad loop that numbers its links from 1:
    the [k]-th is the batch the loop holds after [20 * k] links. *)
Lemma run_ads_saved (W : World html) total links d s :
  (writes (run_ads int_float_str W total 1 links d s).2).*2
  = (writes s).*2
    ++ map (fun k => (run_ads int_float_str W total 1
                        (take (20 * k) links) d s).1)
         (seq 1 (length links / 20)).
Proof.
  induction links as [|x links IH] using rev_ind.
  { simpl. by rewrite app_nil_r. }
  assert (run_ads int_float_str W total 1 (links ++ [x]) d s
          = run_ad int_float_str W total (1 + length links) x
              (run_ads int_float_str W total 1 links d s).1
              (run_ads int_float_str W total 1 links d s).2) as E.
  { rewrite run_ads_app.
    destruct (run_ads int_float_str W total 1 links d s) as [d1 s1].
    rewrite run_ads_cons. by destruct (run_ad _ _ _ _ _ _ _). }
  rewrite E.
  destruct (run_ad_writes W total (1 + length links) x
              (run_ads int_float_str W total 1 links d s).1
              (run_ads int_float_str W total 1 links d s).2)
    as (_ & t & Ew & _).
  rewrite Ew, fmap_app, IH, <- app_assoc. f_equal.
  rewrite length_app. cbn [length].
  replace (length links + 1)%nat with (1 + length links)%nat by lia.
  pose proof (Nat.div_mod_eq (length links) 20) as D1.
  pose proof (Nat.div_mod_eq (1 + length links) 20) as D2.
  pose proof (Nat.mod_upper_bound (length links) 20 ltac:(lia)) as B1.
  pose proof (Nat.mod_upper_bound (1 + length links) 20 ltac:(lia)) as B2.
  assert (map (fun k => (run_ads int_float_str W total 1
                           (take (20 * k) (links ++ [x])) d s).1)
            (seq 1 (length links / 20))
          = map (fun k => (run_ads int_float_str W total 1
                             (take (20 * k) links) d s).1)
              (seq 1 (length links / 20))) as Hsame.
  { apply map_ext_in. intros k Hk. apply in_seq in Hk.
    by rewrite take_app_le by lia. }
  destruct (decide ((1 + length links) mod 20 = 0)%nat) as [Hz|Hz].
  - replace ((1 + length links) / 20)%nat with (S (length links / 20)) by lia.
    rewrite seq_S, map_app, Hsame. f_equal. cbn [map fmap list_fmap snd].
    rewrite take_ge by (rewrite length_app; cbn [length]; lia).
    by rewrite E.
  - replace ((1 + length links) / 20)%nat with (length links / 20)%nat by lia.
    by rewrite Hsame, app_nil_r.
Qed.

(** X6. In the ad loop of [run], which numbers the links from 1, the
    batch is saved once every twenty links, [length links / 20] times in
    all.  The [k]-th save writes the whole batch that the loop holds at
    that turn, after [20 * k] links; it goes to a snapshot name and
    replaces that file.  The batches saved grow: each begins with the
    one before, the first with the batch at the start, and the batch
    returned with the last. *)
Theorem ad_loop_saves_every_twentieth_link (W : World html) (total : nat)
    (links : list str) (all_data : list row) (s : state) :
  ∃ ws, writes (run_ads int_float_str W total 1 links all_data s).2
        = writes s ++ ws
    ∧ length ws = (length links / 20)%nat
    ∧ ws.*2
      = map (fun k => (run_ads int_float_str W total 1
                         (take (20 * k) links) all_data s).1)
          (seq 1 (length links / 20))
    ∧ Forall (fun w => is_snapshot_name w.1 = true) ws
    ∧ growing (all_data :: ws.*2
                 ++ [(run_ads int_float_str W total 1 links all_data s).1])
    ∧ files (run_ads int_float_str W total 1 links all_data s).2
      = replay ws (files s).
Proof.
  destruct (run_ads_writes W total 1 links all_data s)
    as (ws & Ew & Ef & Hlen & Hall & Hg).
  pose proof (run_ads_saved W total links all_data s) as Hsaved.
  rewrite Ew, fmap_app in Hsaved. apply app_inv_head in Hsaved.
  exists ws. rewrite saving_turn_count in Hlen. repeat split; try done.
  eapply Forall_impl; [exact Hall|]. intros w [t ->].
  apply is_snapshot_name_output_file_on.
Qed.

Lemma load_existing_data_frame (W : World html) s :
  ∃ extra, (load_existing_data W s).2
           = State (scraped_urls s) (cache_file s) (files s) (log s ++ extra)
                   (requests s) (writes s) (clock s).
Proof.
  unfold load_existing_data, bind, get_state.
  destruct (snapshot_names s) as [|f fs].
  - exists []. rewrite app_nil_r. by destruct s.
  - destruct (files s !! max_str f fs) as [[df|cause]|];
      [destruct (read_csv W df)| |]; eexists; reflexivity.
Qed.

Lemma run_pages_frame (W : World html) base_url pages acc s :
  scraped_urls (run_pages W base_url pages acc s).2 = scraped_urls s
  ∧ cache_file (run_pages W base_url pages acc s).2 = cache_file s
  ∧ files (run_pages W base_url pages acc s).2 = files s
  ∧ writes (run_pages W base_url pages acc s).2 = writes s.
Proof.
  revert acc s. induction pages as [|p pages IH]; intros acc s; [done|].
  rewrite run_pages_cons.
  destruct (scrape_page_quiet W (page_url base_url p)
              (logged INFO (ScrapingPage p) s)) as [(Eu & Ec & Ef & Ew & _) _].
  destruct (scrape_page W (page_url base_url p) _) as [[|l ls] s1];
    cbn [fst snd] in *.
  - done.
  - destruct (IH (acc ++ l :: ls) s1) as (Eu' & Ec' & Ef' & Ew').
    rewrite Eu', Ec', Ef', Ew'. done.
Qed.

Lemma run_finish_eq (W : World html) all_data s :
  (run_finish W all_data s).2
  = match all_data with
    | [] => logged WARNING NoData s
    | _ :: _ =>
      logged INFO (Completed (length all_data))
        (logged INFO (Saved (output_file_on (today W (clock s))) (length all_data))
           (written (output_file_on (today W (clock s))) all_data (ticked s)))
    end.
Proof. destruct all_data; [done|]. unfold run_finish, bind. by rewrite save_data_eq. Qed.

(** X7. Every snapshot [run] writes begins with the rows it loaded
    from the latest snapshot, and each with the one written before; all
    go to snapshot names, the directory at the end is the one at the
    start with these files replaced in turn, and when rows were loaded
    there is at least one write. *)
Theorem run_never_drops_loaded_rows (W : World html) (base_url : str)
    (max_pages : nat) (s : state) :
  ∃ ws, writes (run int_float_str W base_url max_pages s).2 = writes s ++ ws
    ∧ Forall (fun w => is_snapshot_name w.1 = true) ws
    ∧ growing ((load_existing_data W s).1 :: ws.*2)
    ∧ files (run int_float_str W base_url max_pages s).2 = replay ws (files s)
    ∧ ((load_existing_data W s).1 ≠ [] -> ws ≠ []).
Proof.
  rewrite run_phases.
  destruct (load_existing_data_frame W s) as [extra E1].
  destruct (load_existing_data W s) as [existing s1]. cbn [fst snd] in *.
  set (s2 := match existing with
             | [] => s1
             | _ :: _ => logged INFO (LoadedExisting (length existing)) s1
             end).
  assert (files s2 = files s ∧ writes s2 = writes s) as [Ef2 Ew2].
  { subst s2 s1. by destruct existing. }
  destruct (run_pages_frame W base_url (seq 1 max_pages) [] s2) as (_ & _ & Ef3 & Ew3).
  destruct (run_pages W base_url (seq 1 max_pages) [] s2) as [all_links s3].
  cbn [fst snd] in *.
  destruct (run_ads_writes W (length all_links) 1 all_links existing
              (logged INFO (FoundLinks (length all_links)) s3))
    as (ws & Ew4 & Ef4 & _ & Hall & Hg).
  destruct (run_ads_ledger int_float_str W (length all_links) 1 all_links existing
              (logged INFO (FoundLinks (length all_links)) s3))
    as (new & Ed & _).
  destruct (run_ads int_float_str W (length all_links) 1 all_links existing _)
    as [all_data s4].
  cbn [fst snd files writes logged] in *. rewrite run_finish_eq.
  assert (Forall (fun w : str * list row => is_snapshot_name w.1 = true) ws) as Hn.
  { eapply Forall_impl; [exact Hall|]. intros w [t ->].
    apply is_snapshot_name_output_file_on. }
  destruct all_data as [|r all_data'].
  - exists ws. cbn [files writes logged]. rewrite Ew4, Ef4, Ew3, Ef3, Ew2, Ef2.
    split; [done|]. split; [done|]. split; [|split; [done|]].
    + clear -Hg. revert Hg. generalize existing.
      induction ws as [|w ws IH]; intros e; simpl; [done|].
      intros [H1 H2]. split; [done|]. by apply IH.
    + intros Hne. symmetry in Ed. by apply app_eq_nil in Ed as [? _].
  - exists (ws ++ [(output_file_on (today W (clock s4)), r :: all_data')]).
    cbn [files writes logged written ticked].
    rewrite Ew4, Ef4, Ew3, Ef3, Ew2, Ef2, replay_app, <- app_assoc.
    split; [done|]. split; [|split; [|split; [done|]]].
    + apply Forall_app. split; [done|]. constructor; [|done].
      apply is_snapshot_name_output_file_on.
    + by rewrite fmap_app.
    + intros _ E. by apply app_eq_nil in E as [_ E].
Qed.

(** X8. At the end of [run] the snapshot and the cache agree.  The
    rows added to those loaded are for pairwise different URLs, none of
    which was in the set at the start; the set has gained exactly these
    URLs, and the cache file one line for each, in the order of the
    rows; and, unless there is no row at all, the last write is the
    loaded rows followed by the new ones, which is what its file
    holds. *)
Theorem run_saves_a_row_for_each_url_it_caches (W : World html)
    (base_url : str) (max_pages : nat) (s : state) :
  ∃ new,
    NoDup (map link_of new)
    ∧ (forall r, r ∈ new -> link_of r ∉ scraped_urls s)
    ∧ scraped_urls (run int_float_str W base_url max_pages s).2
      = list_to_set (map link_of new) ∪ scraped_urls s
    ∧ default [] (cache_file (run int_float_str W base_url max_pages s).2)
      = default [] (cache_file s) ++ cache_lines (map link_of new)
    ∧ ((load_existing_data W s).1 ++ new ≠ [] ->
       ∃ f, last (writes (run int_float_str W base_url max_pages s).2)
            = Some (f, (load_existing_data W s).1 ++ new)
            ∧ files (run int_float_str W base_url max_pages s).2 !! f
              = Some (Csv ((load_existing_data W s).1 ++ new))).
Proof.
  rewrite run_phases.
  destruct (load_existing_data_frame W s) as [extra E1].
  destruct (load_existing_data W s) as [existing s1]. cbn [fst snd] in *.
  set (s2 := match existing with
             | [] => s1
             | _ :: _ => logged INFO (LoadedExisting (length existing)) s1
             end).
  assert (scraped_urls s2 = scraped_urls s ∧ cache_file s2 = cache_file s)
    as [Eu2 Ec2].
  { subst s2 s1. by destruct existing. }
  destruct (run_pages_frame W base_url (seq 1 max_pages) [] s2) as (Eu3 & Ec3 & _).
  destruct (run_pages W base_url (seq 1 max_pages) [] s2) as [all_links s3].
  cbn [fst snd] in *.
  destruct (run_ads_ledger int_float_str W (length all_links) 1 all_links existing
              (logged INFO (FoundLinks (length all_links)) s3))
    as (new & Ed & _ & Hnd & Hnot & Eu4 & Ec4 & _).
  destruct (run_ads int_float_str W (length all_links) 1 all_links existing _)
    as [all_data s4].
  cbn [fst snd scraped_urls cache_file logged] in *. rewrite run_finish_eq.
  exists new. subst all_data. split; [done|]. split.
  { intros r Hr. rewrite <- Eu2, <- Eu3. by apply Hnot. }
  destruct (existing ++ new) as [|r rest] eqn:E;
    cbn [scraped_urls cache_file files writes logged written ticked];
    rewrite Eu4, Ec4, Eu3, Ec3, Eu2, Ec2; (split; [done|]); (split; [done|]).
  - done.
  - intros _. eexists. rewrite last_snoc. split; [done|].
    apply lookup_insert_eq.
Qed.

End Saves.

(** ** Requests *)

Section Requests.

Context {html tag : Type} `{!Soup html tag}.
Variable int_float_str : str -> option str.

Lemma requests_for_cons k counts u urls :
  requests_for (k :: counts) (u :: urls)
  = replicate k u ++ requests_for counts urls.
Proof. reflexivity. Qed.

Lemma requests_for_nil urls : requests_for [] urls = [].
Proof. reflexivity. Qed.

Lemma elem_of_requests_for u counts urls :
  u ∈ requests_for counts urls ->
  ∃ i k, counts !! i = Some (S k) ∧ urls !! i = Some u.
Proof.
  revert urls. induction counts as [|k counts IH]; intros urls Hin.
  { rewrite requests_for_nil in Hin. by apply elem_of_nil in Hin. }
  destruct urls as [|v urls].
  { unfold requests_for in Hin. simpl in Hin. by apply elem_of_nil in Hin. }
  rewrite requests_for_cons in Hin. apply elem_of_app in Hin as [Hin|Hin].
  - apply elem_of_replicate in Hin as [-> Hk].
    destruct k as [|k]; [done|]. by exists 0%nat, k.
  - destruct (IH urls Hin) as (i & k' & Hc & Hu). by exists (S i), k'.
Qed.

Lemma length_requests_for counts urls :
  Forall (fun k => k <= 4)%nat counts ->
  (length (requests_for counts urls) <= 4 * length urls)%nat.
Proof.
  intros Hall. revert urls.
  induction Hall as [|k counts Hk _ IH]; intros [|u urls];
    try (cbn [length]; rewrite ?requests_for_nil; cbn [length]; lia).
  { unfold requests_for. destruct counts; cbn; lia. }
  rewrite requests_for_cons, length_app, length_replicate.
  specialize (IH urls). cbn [length]. lia.
Qed.

Lemma scrape_page_trace (W : World html) url s :
  (∃ k, (1 <= k <= 4)%nat
        ∧ requests (scrape_page W url s).2 = requests s ++ replicate k url)
  ∧ forall link, link ∈ (scrape_page W url s).1 -> advertised W url link.
Proof.
  unfold scrape_page, bind.
  destruct (make_request_trace W url 0 s) as (k & Hk & Er & _ & _ & Hl).
  destruct (make_request W url 0 s) as [[text|] s1]; cbn [fst snd] in *.
  - destruct (parser_error text) as [e|] eqn:Hparse.
    { split; [by exists k|]. intros link Hin. by apply elem_of_nil in Hin. }
    split; [by exists k|]. intros link Hin.
    apply list_elem_of_omap in Hin as (a & Ha & Hh).
    by exists (clock s + k - 1)%nat, text, a.
  - split; [by exists k|]. intros link Hin. by apply elem_of_nil in Hin.
Qed.

Lemma run_pages_trace (W : World html) base_url pages acc s :
  (∃ counts,
      requests (run_pages W base_url pages acc s).2
      = requests s ++ requests_for counts (map (page_url base_url) pages)
      ∧ (length counts <= length pages)%nat
      ∧ Forall (fun k => 1 <= k <= 4)%nat counts)
  ∧ forall link, link ∈ (run_pages W base_url pages acc s).1 ->
      link ∈ acc ∨ ∃ p, p ∈ pages ∧ advertised W (page_url base_url p) link.
Proof.
  revert acc s. induction pages as [|p pages IH]; intros acc s.
  - split; [|by left]. exists []. simpl. rewrite app_nil_r.
    repeat split; try done.
  - rewrite run_pages_cons.
    destruct (scrape_page_trace W (page_url base_url p)
                (logged INFO (ScrapingPage p) s)) as [(k & Hk & Er) Hadv].
    destruct (scrape_page W (page_url base_url p) _) as [[|l ls] s1];
      cbn [fst snd requests logged] in *.
    + split; [|by left]. exists [k]. cbn [map].
      rewrite requests_for_cons, requests_for_nil, app_nil_r.
      split; [done|]. cbn [length]. split; [lia|]. by constructor.
    + destruct (IH (acc ++ l :: ls) s1) as [(counts & En & Hlen & Hall) Hlinks].
      split.
      * exists (k :: counts). cbn [map].
        rewrite requests_for_cons, En, Er, <- app_assoc. split; [done|].
        cbn [length]. split; [lia|]. by constructor.
      * intros link Hin. destruct (Hlinks link Hin) as [Hacc|(q & Hq & Ha)].
        -- apply elem_of_app in Hacc as [Hacc|Hacc]; [by left|].
           right. exists p. split; [apply elem_of_cons; by left|]. by apply Hadv.
        -- right. exists q. split; [apply elem_of_cons; by right|done].
Qed.

Lemma scrape_ad_budget (W : World html) url s :
  ∃ k, (k <= 4)%nat
       ∧ requests (scrape_ad int_float_str W url s).2
         = requests s ++ replicate k url
       ∧ (url ∈ scraped_urls s -> k = 0%nat).
Proof.
  unfold scrape_ad, bind, get_state.
  destruct (decide (url ∈ scraped_urls s)) as [Hin|Hin].
  - exists 0%nat. simpl. rewrite app_nil_r. split; [lia|done].
  - destruct (make_request_trace W url 0 s) as (k & Hk & Er & _).
    exists k. split; [simpl in Hk; lia|]. split; [|done].
    destruct (make_request W url 0 s) as [[text|] s1]; cbn [fst snd] in *; [|done].
    destruct (parser_error text) as [e|]; [done|].
    destruct (generate_ad_id s url) as [ad_id|]; [|done].
    pose proof (handle_address_state (BeautifulSoup text) url
                  (ad_data_init (BeautifulSoup text) url
                     (strftime_dmY (today W (clock s1))) ad_id) (ticked s1)) as Hs.
    unfold date_today. cbn [fst snd].
    destruct (handle_address _ _ _ _) as [d0 s0]. simpl in Hs. subst s0. done.
Qed.

Lemma run_ad_budget (W : World html) total i link d s :
  ∃ k, (k <= 4)%nat
       ∧ requests (run_ad int_float_str W total i link d s).2
         = requests s ++ replicate k (SITE ++ link)
       ∧ (SITE ++ link ∈ scraped_urls s -> k = 0%nat)
       ∧ scraped_urls s ⊆ scraped_urls (run_ad int_float_str W total i link d s).2.
Proof.
  pose proof (run_ad_effect int_float_str W total i link d s) as He.
  rewrite run_ad_eq in *.
  destruct (scrape_ad_budget W (SITE ++ link)
              (logged INFO (ScrapingAd i total (SITE ++ link)) s))
    as (k & Hk & Er & H0).
  destruct (scrape_ad int_float_str W (SITE ++ link) _) as [ad_data s1].
  cbn [fst snd requests logged scraped_urls] in Er, H0. cbv zeta in *.
  exists k. split; [done|].
  destruct (decide (i mod 20 = 0)%nat); cbv beta iota in *;
    destruct He as (_ & Hsub & _);
    cbn [snd requests logged written ticked scraped_urls] in *; done.
Qed.

Lemma run_ads_budget (W : World html) total i links d s :
  ∃ counts,
    requests (run_ads int_float_str W total i links d s).2
    = requests s ++ requests_for counts (map (app SITE) links)
    ∧ Forall2 (fun k link =>
                 (k <= 4)%nat ∧ (SITE ++ link ∈ scraped_urls s -> k = 0%nat))
        counts links.
Proof.
  revert i d s. induction links as [|link links IH]; intros i d s.
  - exists []. simpl. rewrite app_nil_r. split; [done|constructor].
  - rewrite run_ads_cons.
    destruct (run_ad_budget W total i link d s) as (k & Hk & Er & H0 & Hsub).
    destruct (run_ad int_float_str W total i link d s) as [d1 s1].
    cbn [fst snd] in *.
    destruct (IH (S i) d1 s1) as (counts & En & Hall).
    exists (k :: counts). cbn [map].
    rewrite requests_for_cons, En, Er, <- app_assoc. split; [done|].
    constructor; [done|].
    eapply Forall2_impl; [exact Hall|].
    intros k' link' [Hk' H0']. split; [done|].
    intros Hin. apply H0'. by apply Hsub.
Qed.

Lemma run_requests (W : World html) base_url max_pages s :
  ∃ (page_counts : list nat) (all_links : list str) (ad_counts : list nat),
    requests (run int_float_str W base_url max_pages s).2
    = requests s
      ++ requests_for page_counts (map (page_url base_url) (seq 1 max_pages))
      ++ requests_for ad_counts (map (app SITE) all_links)
    ∧ (length page_counts <= max_pages)%nat
    ∧ Forall (fun k => 1 <= k <= 4)%nat page_counts
    ∧ Forall2 (fun k link =>
                 (k <= 4)%nat ∧ (SITE ++ link ∈ scraped_urls s -> k = 0%nat))
        ad_counts all_links
    ∧ Forall (fun link =>
                ∃ p, (1 <= p <= max_pages)%nat
                     ∧ advertised W (page_url base_url p) link) all_links.
Proof.
  rewrite run_phases.
  destruct (load_existing_data_frame W s) as [extra E1].
  destruct (load_existing_data W s) as [existing s1]. cbn [fst snd] in *.
  set (s2 := match existing with
             | [] => s1
             | _ :: _ => logged INFO (LoadedExisting (length existing)) s1
             end).
  assert (scraped_urls s2 = scraped_urls s ∧ requests s2 = requests s)
    as [Eu2 Er2].
  { subst s2 s1. by destruct existing. }
  destruct (run_pages_frame W base_url (seq 1 max_pages) [] s2) as (Eu3 & _).
  destruct (run_pages_trace W base_url (seq 1 max_pages) [] s2)
    as [(page_counts & Er3 & Hlen & Hpages) Hlinks].
  destruct (run_pages W base_url (seq 1 max_pages) [] s2) as [all_links s3].
  cbn [fst snd] in *.
  destruct (run_ads_budget W (length all_links) 1 all_links
              existing (logged INFO (FoundLinks (length all_links)) s3))
    as (ad_counts & Er4 & Hads).
  destruct (run_ads int_float_str W (length all_links) 1 all_links existing _)
    as [all_data s4].
  cbn [fst snd requests scraped_urls logged] in Er4, Hads.
  exists page_counts, all_links, ad_counts. split.
  { rewrite run_finish_eq.
    destruct all_data; cbn [requests logged written ticked];
      by rewrite Er4, Er3, Er2, <- app_assoc. }
  rewrite length_seq in Hlen. split; [done|]. split; [done|]. split.
  - eapply Forall2_impl; [exact Hads|]. intros k link [Hk H0].
    split; [done|]. by rewrite <- Eu2, <- Eu3.
  - apply Forall_forall. intros link Hin.
    destruct (Hlinks link Hin) as [Hnil|(p & Hp & Ha)];
      [by apply elem_of_nil in Hnil|].
    exists p. apply elem_of_seq in Hp. split; [lia|done].
Qed.

(** X9. The requests of [run] are those for listing pages, then those
    for ads.  The listing pages requested are the pages 1, 2, ... of the
    base URL up to some page no greater than [max_pages], one after the
    other, each between one and four times.  The ad requests go through
    the links collected, in their order: the URL of a link is the site
    origin followed by the link, it is requested at most four times, and
    not at all if it was in the set at the start; and every link
    collected is one that an ad anchor of such a listing page carried. *)
Theorem run_requests_listing_pages_and_advertised_ads (W : World html)
    (base_url : str) (max_pages : nat) (s : state) :
  ∃ (page_counts : list nat) (all_links : list str) (ad_counts : list nat),
    requests (run int_float_str W base_url max_pages s).2
    = requests s
      ++ requests_for page_counts (map (page_url base_url) (seq 1 max_pages))
      ++ requests_for ad_counts (map (app SITE) all_links)
    ∧ (length page_counts <= max_pages)%nat
    ∧ Forall (fun k => 1 <= k <= 4)%nat page_counts
    ∧ Forall2 (fun k link =>
                 (k <= 4)%nat ∧ (SITE ++ link ∈ scraped_urls s -> k = 0%nat))
        ad_counts all_links
    ∧ Forall (fun link =>
                ∃ p, (1 <= p <= max_pages)%nat
                     ∧ advertised W (page_url base_url p) link) all_links.
Proof. apply run_requests. Qed.

(** X10. The ad loop goes through the links in their order and sends,
    for each, at most four requests for the site origin followed by the
    link, and none if that URL was in the set at the start; so it sends
    at most four times as many requests as there are links.  It adds at
    most one record for each link; the new records come in the order of
    their links, no two of them for the same URL and none for a URL that
    was in the set at the start. *)
Theorem ad_loop_budget (W : World html) (total i : nat) (links : list str)
    (all_data : list row) (s : state) :
  ∃ counts new,
    requests (run_ads int_float_str W total i links all_data s).2
    = requests s ++ requests_for counts (map (app SITE) links)
    ∧ Forall2 (fun k link =>
                 (k <= 4)%nat ∧ (SITE ++ link ∈ scraped_urls s -> k = 0%nat))
        counts links
    ∧ (length (requests_for counts (map (app SITE) links))
       <= 4 * length links)%nat
    ∧ (run_ads int_float_str W total i links all_data s).1 = all_data ++ new
    ∧ (length new <= length links)%nat
    ∧ map link_of new `sublist_of` map (app SITE) links
    ∧ NoDup (map link_of new)
    ∧ forall r, r ∈ new -> link_of r ∉ scraped_urls s.
Proof.
  destruct (run_ads_budget W total i links all_data s) as (counts & Er & Hall).
  destruct (run_ads_ledger int_float_str W total i links all_data s)
    as (new & Ed & Hsub & Hnd & Hnot & _).
  exists counts, new. split; [done|]. split; [done|]. split.
  { rewrite <- (length_map (app SITE) links). apply length_requests_for.
    clear -Hall. induction Hall as [|k link ? ? [Hk _] _ IH]; by constructor. }
  repeat split; try done.
  apply sublist_length in Hsub. by rewrite !length_map in Hsub.
Qed.

End Requests.

(** ** More facts on strings *)

Section Stripping.

Lemma lstrip_idemp (s : str) : lstrip (lstrip s) = lstrip s.
Proof.
  induction s as [|c s IH]; [done|]. simpl.
  destruct (isspace c) eqn:E; [done|]. simpl. by rewrite E.
Qed.

Lemma lstrip_snoc (a : str) (c : N) :
  isspace c = false -> lstrip (a ++ [c]) = lstrip a ++ [c].
Proof.
  intros Hc. induction a as [|d a IH]; simpl; [by rewrite Hc|].
  by destruct (isspace d).
Qed.

Lemma rstrip_idemp (s : str) : rstrip (rstrip s) = rstrip s.
Proof. unfold rstrip. by rewrite rev_involutive, lstrip_idemp. Qed.

Lemma lstrip_rstrip (s : str) : lstrip s = s -> lstrip (rstrip s) = rstrip s.
Proof.
  intros Hs. apply lstrip_fixed in Hs. destruct s as [|c t]; [done|].
  unfold rstrip. simpl rev. rewrite lstrip_snoc by done.
  rewrite rev_app_distr. simpl. by rewrite Hs.
Qed.

Lemma strip_idemp (s : str) : strip (strip s) = strip s.
Proof.
  unfold strip. rewrite (lstrip_rstrip (lstrip s)) by apply lstrip_idemp.
  apply rstrip_idemp.
Qed.

Lemma strip_NA : strip NA = NA.
Proof. reflexivity. Qed.

Lemma replace_single (c : N) (s : str) :
  replace [c] [] s = filter (fun d => d ≠ c) s.
Proof.
  unfold replace. induction s as [|d s IH]; [done|].
  cbn [replace_go]. rewrite startswith_single, filter_cons. cbn [length pred app].
  destruct (N.eqb_spec c d) as [->|Hne].
  - rewrite decide_False by (intros H; by apply H). exact IH.
  - rewrite decide_True by done. by rewrite IH.
Qed.

Lemma replace_single_absent (c : N) (s : str) : c ∉ replace [c] [] s.
Proof. rewrite replace_single. intros H. apply list_elem_of_filter in H as [H _]. by apply H. Qed.

End Stripping.

(** ** The values of a record *)

Section Values.

Context {html tag : Type} `{!Soup html tag}.
Variable int_float_str : str -> option str.

Lemma get_text_value_stripped (soup : tag) key :
  strip (get_text_value soup key) = get_text_value soup key.
Proof.
  unfold get_text_value.
  repeat match goal with
  | |- context [match ?x with Some _ => _ | None => _ end] => destruct x
  end; by rewrite ?strip_idemp.
Qed.

Lemma get_value_chars_stripped (soup : tag) key :
  strip (get_value_chars soup key) = get_value_chars soup key.
Proof.
  unfold get_value_chars.
  repeat match goal with
  | |- context [match ?x with Some _ => _ | None => _ end] => destruct x
  end; by rewrite ?strip_idemp.
Qed.

Ltac rest_column :=
  unfold extract_rest;
  repeat match goal with
  | |- context [tag_find ?a ?b ?c] => destruct (tag_find a b c)
  | |- context [last ?l] => destruct (last l)
  end;
  repeat first [ rewrite dict_get_set_eq
               | rewrite dict_get_set_ne by literals ];
  reflexivity.

Lemma extract_rest_views soup d :
  dict_get "Үзсэн" (extract_rest int_float_str soup d)
  = match tag_find soup "span" (WithClass "counter-views") with
    | Some e => Some (replace " " [] (strip (tag_text e)))
    | None => dict_get "Үзсэн" d
    end.
Proof. rest_column. Qed.

Lemma extract_rest_title soup d :
  dict_get "Зарыг гарчиг" (extract_rest int_float_str soup d)
  = match tag_find soup "h1" (WithClass "title-announcement") with
    | Some e => Some (replace [10] [] (strip (tag_text e)))
    | None => dict_get "Зарыг гарчиг" d
    end.
Proof. rest_column. Qed.

Lemma extract_rest_description soup d :
  dict_get "Зарын тайлбар" (extract_rest int_float_str soup d)
  = match tag_find soup "div" (WithClass "announcement-description") with
    | Some e => Some (replace [10] [] (strip (tag_text e)))
    | None => dict_get "Зарын тайлбар" d
    end.
Proof. rest_column. Qed.

Lemma extract_rest_rooms soup d :
  dict_get "ӨрөөнийТоо" (extract_rest int_float_str soup d)
  = match tag_find soup "div" (WithClass "wrap js-single-item__location") with
    | Some location_div =>
      match last (tag_find_all location_div "span" AnyTag) with
      | Some span => Some (strip (tag_text span))
      | None => dict_get "ӨрөөнийТоо" d
      end
    | None => dict_get "ӨрөөнийТоо" d
    end.
Proof. rest_column. Qed.

Lemma ad_data_init_labels soup url scraped_date ad_id col v :
  col ∈ take 12 columns ->
  dict_get col (ad_data_init soup url scraped_date ad_id) = Some v ->
  strip v = v.
Proof.
  intros Hin Hv. unfold columns in Hin. simpl take in Hin.
  repeat (apply elem_of_cons in Hin as [->|Hin];
          [injection Hv as <-;
           first [apply get_text_value_stripped | apply get_value_chars_stripped]|]).
  inversion Hin.
Qed.

Lemma handle_address_stripped k soup url d s v :
  k = "Дүүрэг" ∨ k = "Байршил" ->
  dict_get k d = Some NA ->
  dict_get k (handle_address soup url d s).1 = Some v -> strip v = v.
Proof.
  intros Hk Hd. unfold handle_address.
  destruct (tag_find _ _ _); [|cbn [fst ret]; by rewrite Hd; intros [= <-]].
  destruct (contains _ _); [|cbn [fst ret]; by rewrite Hd; intros [= <-]].
  destruct (_ !! 0%nat) as [p0|];
    [|cbn [fst ret bind logger]; by rewrite Hd; intros [= <-]].
  destruct (_ !! 1%nat) as [p1|]; cbn [fst ret bind logger];
    destruct Hk as [->| ->];
    repeat first [ rewrite dict_get_set_eq
                 | rewrite dict_get_set_ne by literals ];
    rewrite ?Hd; intros [= <-]; by rewrite ?strip_idemp.
Qed.

(** X11. In a record, the values of the twelve characteristics, the
    district, the location and the room count are free of white space
    at both ends; the view count holds no space, and the title and the
    description hold no line feed. *)
Theorem record_values_are_normalised (W : World html) (url : str)
    (s s' : state) (r : row) :
  scrape_ad int_float_str W url s = (Some r, s') ->
  (forall col v, col ∈ stripped_columns -> dict_get col r = Some v ->
                 strip v = v)
  ∧ (forall v, dict_get "Үзсэн" r = Some v -> 32 ∉ v)
  ∧ (forall v, dict_get "Зарыг гарчиг" r = Some v -> 10 ∉ v)
  ∧ (forall v, dict_get "Зарын тайлбар" r = Some v -> 10 ∉ v).
Proof.
  intros E.
  destruct (scrape_ad_inv _ _ _ _ _ _ E) as (_ & text & s1 & ad_id & _ & _ & -> & _).
  set (soup := BeautifulSoup text).
  set (d0 := ad_data_init soup url (strftime_dmY (today W (clock s1))) ad_id).
  split; [|split; [|split]].
  - intros col v Hin Hv. unfold stripped_columns in Hin.
    apply elem_of_app in Hin as [Hin|Hin].
    + rewrite <- (take_drop 12 (take 14 columns)) in Hin.
      apply elem_of_app in Hin as [Hin|Hin].
      * rewrite take_take in Hin. change (12 `min` 14)%nat with 12%nat in Hin.
        assert ("Дүүрэг" ≠ col ∧ "Байршил" ≠ col ∧ "Үзсэн" ≠ col
                ∧ "Үнэ" ≠ col ∧ "ӨрөөнийТоо" ≠ col
                ∧ "Зарыг гарчиг" ≠ col ∧ "Зарын тайлбар" ≠ col
                ∧ "Нийтэлсэн" ≠ col) as (?&?&?&?&?&?&?&?).
        { pose proof Hin as Hin'. unfold columns in Hin'. simpl take in Hin'.
          repeat (apply elem_of_cons in Hin' as [->|Hin'];
                  [repeat split; literals|]).
          inversion Hin'. }
        rewrite extract_rest_get_other in Hv by done.
        rewrite handle_address_get_other in Hv by done.
        by eapply ad_data_init_labels.
      * unfold columns in Hin. simpl in Hin.
        repeat (apply elem_of_cons in Hin as [->|Hin];
                [rewrite extract_rest_get_other in Hv by literals;
                 eapply handle_address_stripped; [| |exact Hv];
                 [auto|reflexivity]|]).
        inversion Hin.
    + apply list_elem_of_singleton in Hin as ->.
      rewrite extract_rest_rooms in Hv.
      rewrite handle_address_get_other in Hv by literals.
      destruct (tag_find soup "div" _) as [location_div|];
        [destruct (last _)|]; injection Hv as <-;
        by rewrite ?strip_idemp.
  - intros v. rewrite extract_rest_views.
    rewrite handle_address_get_other by literals.
    destruct (tag_find soup "span" _); intros [= <-];
      [apply replace_single_absent|literals].
  - intros v. rewrite extract_rest_title.
    rewrite handle_address_get_other by literals.
    destruct (tag_find soup "h1" _); intros [= <-];
      [apply replace_single_absent|literals].
  - intros v. rewrite extract_rest_description.
    rewrite handle_address_get_other by literals.
    destruct (tag_find soup "div" _); intros [= <-];
      [apply replace_single_absent|literals].
Qed.

End Values.

(** ** The digest *)

Section Digest.

Lemma encode_char_Some (c : N) : is_Some (Hash.encode_char c) <-> encodable c.
Proof.
  unfold Hash.encode_char, encodable.
  repeat match goal with
  | |- context [?a <? ?b] => destruct (N.ltb_spec a b)
  | |- context [?a <=? ?b] => destruct (N.leb_spec a b)
  end; simpl; split; intros Hx; try (by eexists); try lia;
    try (by destruct Hx as [? [=]]).
Qed.

Lemma encode_Some (s : str) : is_Some (Hash.encode s) <-> Forall encodable s.
Proof.
  induction s as [|c s IH]; simpl.
  - split; [constructor|by eexists].
  - rewrite Forall_cons, <- IH, <- encode_char_Some.
    destruct (Hash.encode_char c), (Hash.encode s); split;
      try (intros [? [=]]); try (intros [[? [=]] [? [=]]]);
      try (intros [[? [=]] _]); try (intros [_ [? [=]]]);
      try (split; by eexists); try by eexists.
Qed.

Lemma le_bytes_spec (n : nat) (x : N) :
  length (Hash.le_bytes n x) = n ∧ Forall (fun b => b < 256) (Hash.le_bytes n x).
Proof.
  unfold Hash.le_bytes. rewrite length_map, length_seq. split; [done|].
  apply Forall_fmap, Forall_forall. intros i _. simpl.
  apply N.mod_lt. lia.
Qed.

Lemma md5_spec (msg : list N) :
  length (Hash.md5 msg) = 16%nat ∧ Forall (fun b => b < 256) (Hash.md5 msg).
Proof.
  unfold Hash.md5. destruct (Hash.md5_blocks _ _ _) as [a b c d].
  rewrite !length_app, !Forall_app.
  pose proof (le_bytes_spec 4 a) as [-> ?]. pose proof (le_bytes_spec 4 b) as [-> ?].
  pose proof (le_bytes_spec 4 c) as [-> ?]. pose proof (le_bytes_spec 4 d) as [-> ?].
  done.
Qed.

Lemma hex_digit_spec (n : N) : n < 16 -> is_hex (Hash.hex_digit n).
Proof.
  intros Hn. unfold Hash.hex_digit, is_hex.
  destruct (N.ltb_spec n 10); lia.
Qed.

Lemma hexdigest_spec (bs : list N) :
  Forall (fun b => b < 256) bs ->
  length (Hash.hexdigest bs) = (2 * length bs)%nat
  ∧ Forall is_hex (Hash.hexdigest bs).
Proof.
  unfold Hash.hexdigest. induction 1 as [|b bs Hb _ [IH1 IH2]]; [done|].
  cbn [flat_map app length]. rewrite IH1. split; [lia|].
  constructor; [|constructor; [|done]]; apply hex_digit_spec.
  - apply N.Div0.div_lt_upper_bound. lia.
  - apply N.mod_lt. lia.
Qed.

End Digest.

(** ** The identifier of an ad *)

Section AdId.

Context {html tag : Type} `{!Soup html tag}.
Variable int_float_str : str -> option str.

(** X12. [generate_ad_id] raises exactly when the URL holds a
    surrogate (or a value that is no code point); otherwise the
    identifier has 32 characters, all of them lower-case hexadecimal
    digits.  So has the [ad_id] of every record, whose URL therefore
    encodes; and when [scrape_ad] returns no record, the URL is not
    cached. *)
Theorem ad_id_is_32_hex_digits (self : state) (url : str) :
  (is_Some (generate_ad_id self url) <-> Forall encodable url)
  ∧ (forall ad_id, generate_ad_id self url = Some ad_id ->
       length ad_id = 32%nat ∧ Forall is_hex ad_id)
  ∧ forall (W : World html) s,
      match (scrape_ad int_float_str W url s).1 with
      | Some r =>
        Forall encodable url
        ∧ ∃ ad_id, dict_get "ad_id" r = Some ad_id
                   ∧ length ad_id = 32%nat ∧ Forall is_hex ad_id
      | None =>
        scraped_urls (scrape_ad int_float_str W url s).2 = scraped_urls s
        ∧ cache_file (scrape_ad int_float_str W url s).2 = cache_file s
      end.
Proof.
  assert (forall ad_id, generate_ad_id self url = Some ad_id ->
            length ad_id = 32%nat ∧ Forall is_hex ad_id) as Hfmt.
  { intros ad_id E. unfold generate_ad_id in E.
    destruct (Hash.encode url) as [bs|]; [|done]. injection E as <-.
    destruct (md5_spec bs) as [Hl Hb].
    destruct (hexdigest_spec _ Hb) as [Hl' Hh]. rewrite Hl' , Hl. done. }
  assert (is_Some (generate_ad_id self url) <-> Forall encodable url) as Henc.
  { rewrite <- encode_Some. unfold generate_ad_id.
    destruct (Hash.encode url); split; intros [? [=]]; by eexists. }
  split; [done|]. split; [done|]. intros W s.
  pose proof (scrape_ad_cases int_float_str W url s) as Hc.
  destruct (scrape_ad int_float_str W url s) as [[r|] s'] eqn:E; cbn [fst snd] in *.
  - destruct (scrape_ad_inv _ _ _ _ _ _ E)
      as (_ & text & s1 & ad_id & _ & Eid & -> & _).
    split; [apply Henc; by eexists|]. exists ad_id. split; [|by apply Hfmt].
    rewrite extract_rest_get_other by literals.
    by rewrite handle_address_get_other by literals.
  - by destruct Hc as (Eu & Ec & _).
Qed.

End AdId.

(** ** The order of names *)

Section Order.

Lemma str_ltb_irrefl (a : str) : str_ltb a a = false.
Proof.
  induction a as [|x a IH]; [done|]. simpl.
  by rewrite N.ltb_irrefl, N.eqb_refl, IH.
Qed.

Lemma str_ltb_trans (a b c : str) :
  str_ltb a b = true -> str_ltb b c = true -> str_ltb a c = true.
Proof.
  revert b c. induction a as [|x a IH]; intros [|y b] [|z c]; simpl; try done.
  intros H1 H2.
  apply orb_true_iff in H1 as [H1|H1]; apply orb_true_iff in H2 as [H2|H2];
    apply orb_true_iff.
  - left. apply N.ltb_lt in H1, H2. apply N.ltb_lt. lia.
  - apply andb_true_iff in H2 as [H2 _]. apply N.eqb_eq in H2 as <-. by left.
  - apply andb_true_iff in H1 as [H1 _]. apply N.eqb_eq in H1 as <-. by left.
  - apply andb_true_iff in H1 as [H1 H1']. apply andb_true_iff in H2 as [H2 H2'].
    apply N.eqb_eq in H1 as <-. rewrite H2. right. simpl. by eapply IH.
Qed.

Lemma str_ltb_asym (a b : str) : str_ltb a b = true -> str_ltb b a = false.
Proof.
  intros H. destruct (str_ltb b a) eqn:E; [|done].
  pose proof (str_ltb_trans _ _ _ H E) as Hc. by rewrite str_ltb_irrefl in Hc.
Qed.

Lemma str_ltb_total (a b : str) :
  str_ltb a b = false -> str_ltb b a = false -> a = b.
Proof.
  revert b. induction a as [|x a IH]; intros [|y b]; simpl; try done.
  intros H1 H2.
  apply orb_false_iff in H1 as [H1 H1']. apply orb_false_iff in H2 as [H2 H2'].
  apply N.ltb_ge in H1, H2. assert (x = y) as -> by lia.
  rewrite N.eqb_refl in H1', H2'. simpl in *. f_equal. by apply IH.
Qed.

Lemma max_str_greatest (f m : str) (l : list str) :
  f ∈ m :: l -> (forall g, g ∈ m :: l -> str_ltb f g = false) -> max_str m l = f.
Proof.
  unfold max_str. revert m. induction l as [|x l IH]; intros m Hin Hmax.
  - by apply list_elem_of_singleton in Hin.
  - simpl. apply IH.
    + destruct (str_ltb m x) eqn:E.
      * apply elem_of_cons in Hin as [->|Hin]; [|done].
        rewrite Hmax in E; [done|]. apply elem_of_cons. right. apply elem_of_cons. by left.
      * apply elem_of_cons in Hin as [->|Hin]; [apply elem_of_cons; by left|].
        apply elem_of_cons in Hin as [->|Hin]; [|apply elem_of_cons; by right].
        apply elem_of_cons. left. apply str_ltb_total; [|done].
        apply Hmax. apply elem_of_cons. by left.
    + intros g Hg. apply Hmax. destruct (str_ltb m x).
      * apply elem_of_cons. right. done.
      * apply elem_of_cons in Hg as [->|Hg]; [apply elem_of_cons; by left|].
        apply elem_of_cons. right. apply elem_of_cons. by right.
Qed.

Lemma str_ltb_app_same (p a b : str) : str_ltb (p ++ a) (p ++ b) = str_ltb a b.
Proof.
  induction p as [|x p IH]; [done|]. simpl.
  by rewrite N.ltb_irrefl, N.eqb_refl, IH.
Qed.

Lemma str_ltb_app_lt (a a' b b' : str) :
  length a = length a' -> str_ltb a a' = true -> str_ltb (a ++ b) (a' ++ b') = true.
Proof.
  revert a'. induction a as [|x a IH]; intros [|y a']; simpl; try done.
  intros [= Hl] H. apply orb_true_iff in H as [H|H]; apply orb_true_iff; [by left|].
  apply andb_true_iff in H as [H1 H2]. right. rewrite H1. simpl. by apply IH.
Qed.

Lemma fields_increase_at (width : nat) (lo count : N) :
  fields_increase width lo count = true ->
  forall k, k < count -> increases_at width (lo + k) = true.
Proof.
  unfold fields_increase. induction count as [|count IH] using N.peano_ind.
  - intros _ k Hk. lia.
  - rewrite N.peano_rect_succ. intros Hc k Hk.
    apply andb_true_iff in Hc as [Hc1 Hc2].
    destruct (decide (k = count)) as [->|Hne]; [done|]. apply IH; [done|lia].
Qed.

Lemma field_lt (width : nat) (lo count x y : N) :
  fields_increase width lo count = true ->
  lo <= x -> x < y -> y <= lo + count ->
  length (field width x) = width ∧ length (field width y) = width
  ∧ str_ltb (field width x) (field width y) = true.
Proof.
  intros Hc Hx. pose proof (fields_increase_at _ _ _ Hc) as Hstep.
  assert (forall n, lo <= n -> n < lo + count ->
            length (field width n) = width
            ∧ length (field width (N.succ n)) = width
            ∧ str_ltb (field width n) (field width (N.succ n)) = true) as Hs.
  { intros n H1 H2. specialize (Hstep (n - lo)).
    replace (lo + (n - lo)) with n in Hstep by lia.
    rewrite <- N.add_1_r.
    specialize (Hstep ltac:(lia)). unfold increases_at in Hstep.
    apply andb_true_iff in Hstep as [Hstep H3].
    apply andb_true_iff in Hstep as [L1 L2].
    apply Nat.eqb_eq in L1, L2. done. }
  induction y as [|y IH] using N.peano_ind; [lia|]. intros Hxy Hy.
  destruct (decide (x = y)) as [->|Hne]; [apply Hs; lia|].
  destruct IH as (H1 & H2 & H3); [lia|lia|].
  destruct (Hs y) as (_ & H4 & H5); [lia|lia|].
  split; [done|]. split; [done|]. by eapply str_ltb_trans.
Qed.

Lemma years_increase : fields_increase 4 1000 8999 = true.
Proof. vm_compute. reflexivity. Qed.

Lemma months_and_days_increase : fields_increase 2 1 30 = true.
Proof. vm_compute. reflexivity. Qed.

End Order.

(** ** The snapshot store, again *)

Section Store.

Context {html : Type}.

Lemma output_file_on_lt (d1 d2 : date) :
  valid_date d1 -> valid_date d2 -> date_lt d1 d2 ->
  str_ltb (output_file_on d1) (output_file_on d2) = true.
Proof.
  intros (Hy1 & Hm1 & Hd1) (Hy2 & Hm2 & Hd2) Hlt.
  unfold output_file_on. rewrite str_ltb_app_same. unfold strftime_Ymd.
  change (zero_pad 4 (str_of_N ?n)) with (field 4 n).
  change (zero_pad 2 (str_of_N ?n)) with (field 2 n).
  rewrite <- !app_assoc.
  destruct Hlt as [Hy|[Ey [Hm|[Em Hd]]]].
  - destruct (field_lt 4 1000 8999 (year d1) (year d2) years_increase)
      as (L1 & L2 & Hlt); [lia..|].
    apply str_ltb_app_lt; [by rewrite L1, L2|done].
  - rewrite Ey, str_ltb_app_same.
    destruct (field_lt 2 1 30 (month d1) (month d2) months_and_days_increase)
      as (L1 & L2 & Hlt); [lia..|].
    apply str_ltb_app_lt; [by rewrite L1, L2|done].
  - rewrite Ey, Em, !str_ltb_app_same.
    destruct (field_lt 2 1 30 (day d1) (day d2) months_and_days_increase)
      as (L1 & L2 & Hlt); [lia..|].
    apply str_ltb_app_lt; [by rewrite L1, L2|done].
Qed.

Lemma load_greatest (W : World html) (s : state) (f : str)
    (rows : list row) :
  is_snapshot_name f = true ->
  files s !! f = Some (Csv rows) ->
  (forall g, is_Some (files s !! g) -> is_snapshot_name g = true ->
             str_ltb f g = false) ->
  load_existing_data W s
  = match read_csv W rows with
    | inr df => (df, logged INFO (LoadedFrom f (length df)) s)
    | inl cause => ([], logged WARNING (CouldNotLoad (ReadError cause)) s)
    end.
Proof.
  intros Hn Hf Hmax. unfold load_existing_data, bind, get_state.
  assert (f ∈ snapshot_names s) as Hin.
  { apply snapshot_names_spec. split; [by eexists|done]. }
  destruct (snapshot_names s) as [|g gs] eqn:E; [by apply elem_of_nil in Hin|].
  rewrite (max_str_greatest f g gs Hin).
  - rewrite Hf. by destruct (read_csv W rows).
  - intros h Hh. rewrite <- E in Hh. apply snapshot_names_spec in Hh as [H1 H2].
    by apply Hmax.
Qed.

(** X14. Names follow the calendar: for days with a four-digit year,
    the snapshot of an earlier day has a smaller name.  So in a
    directory whose snapshots are those of such days,
    [load_existing_data] reads the snapshot of the latest day: it
    returns what [read_csv] makes of that file and logs its name, or
    logs the failure of [read_csv] on that file. *)
Theorem latest_snapshot_is_of_the_latest_day (W : World html) (s : state)
    (d : date) (rows : list row) :
  valid_date d ->
  files s !! output_file_on d = Some (Csv rows) ->
  (forall g, is_Some (files s !! g) -> is_snapshot_name g = true ->
             ∃ d', valid_date d' ∧ g = output_file_on d' ∧ ¬ date_lt d d') ->
  (forall d', valid_date d' -> date_lt d' d ->
              str_ltb (output_file_on d') (output_file_on d) = true)
  ∧ load_existing_data W s
    = match read_csv W rows with
      | inr df =>
        (df, logged INFO (LoadedFrom (output_file_on d) (length df)) s)
      | inl cause =>
        ([], logged WARNING (CouldNotLoad (ReadError cause)) s)
      end.
Proof.
  intros Hd Hf Hall. split.
  { intros d' Hd' Hlt. by apply output_file_on_lt. }
  apply load_greatest; [apply is_snapshot_name_output_file_on|done|].
  intros g Hg Hn. destruct (Hall g Hg Hn) as (d' & Hd' & -> & Hnlt).
  destruct d as [y m dd], d' as [y' m' dd'].
  destruct (decide (y' = y ∧ m' = m ∧ dd' = dd)) as [(-> & -> & ->)|Hne];
    [apply str_ltb_irrefl|].
  apply str_ltb_asym, output_file_on_lt; try done.
  unfold date_lt in *. simpl in *. lia.
Qed.

End Store.

(** ** The location columns of the dashboard *)

Section Location.

Import Dashboard.

Lemma split_single_length (c : N) (s : str) :
  (1 < length (split [c] s))%nat <-> c ∈ s.
Proof.
  split.
  - intros Hl. destruct (decide (c ∈ s)) as [|Hn]; [done|].
    unfold split in Hl. rewrite (split_go_single_last c s []) in Hl by done.
    simpl in Hl. lia.
  - intros Hin. apply list_elem_of_split_l in Hin as (a & rest & -> & Hn).
    destruct (split_single_first c a rest Hn) as (parts & -> & ->).
    pose proof (split_go_not_nil [c] 0 [] rest) as Hne. unfold split.
    destruct (split_go [c] 0 [] rest); [done|]. simpl. lia.
Qed.

Lemma split_single_last (c : N) (a b : str) :
  c ∉ b -> last (split [c] (a ++ c :: b)) = Some b.
Proof.
  revert b. induction a as [a IH] using (induction_ltof1 _ (@length N)).
  unfold ltof in IH. intros b Hb.
  destruct (decide (c ∈ a)) as [Hin|Hn].
  - apply list_elem_of_split_l in Hin as (a1 & a2 & -> & Hn1).
    rewrite <- app_assoc. cbn [app].
    destruct (split_single_first c a1 (a2 ++ c :: b) Hn1) as (parts & -> & ->).
    pose proof (IH a2 ltac:(rewrite length_app; simpl; lia) b Hb) as Hl.
    destruct (split [c] (a2 ++ c :: b)) as [|p ps] eqn:E; [done|].
    by rewrite last_cons, Hl.
  - destruct (split_single_first c a b Hn) as (parts & -> & ->).
    unfold split. rewrite (split_go_single_last c b []) by done. done.
Qed.

(** X15. The location columns of the dashboard.
    [extract_primary_district] never raises and gives the district of
    [extract_location_details]; the sub-district and the clean
    sub-district are there together, exactly when the text holds a
    comma.  The district is the stripped text before the first comma and
    the sub-district the stripped text between the first comma and the
    next, while the clean sub-district is the stripped text after the
    last comma. *)
Theorem location_columns_of_the_dashboard (location : option str) :
  extract_primary_district location
  = inr (extract_location_details location).1
  ∧ (is_Some (extract_location_details location).2
     <-> is_Some (clean_sub_district location))
  ∧ forall text, location = Some text ->
      (is_Some (clean_sub_district location) <-> 44 ∈ text)
      ∧ (44 ∉ text ->
         extract_location_details location = (Some (strip text), None))
      ∧ (forall a b rest,
           text = a ++ "," ++ b ++ rest -> 44 ∉ a -> 44 ∉ b ->
           rest = [] ∨ (∃ rest', rest = "," ++ rest') ->
           extract_location_details location
           = (Some (strip a), Some (strip b)))
      ∧ (forall a c,
           text = a ++ "," ++ c -> 44 ∉ c ->
           clean_sub_district location = Some (strip c)).
Proof.
  destruct location as [text|].
  2: { split; [done|]. split; [|done]. split; by intros [? [=]]. }
  unfold extract_primary_district, extract_location_details, clean_sub_district.
  pose proof (split_go_not_nil "," 0 [] text) as Hne. fold (split "," text) in Hne.
  pose proof (split_single_length 44 text) as Hlen.
  assert ((1 < length (split "," text))%nat ->
          is_Some (strip <$> last (split "," text))) as Hlast.
  { intros _. destruct (split "," text) as [|p ps]; [done|].
    rewrite last_cons. destruct (last ps); by eexists. }
  split; [|split].
  - destruct (split "," text) as [|p ps]; done.
  - cbn [snd]. destruct (decide (1 < length (split "," text))%nat) as [Hl|Hl].
    + split; intros _; [by apply Hlast|].
      destruct (split "," text) as [|p0 [|p1 ps]]; simpl in Hl; try lia.
      by eexists.
    + split; by intros [? [=]].
  - intros ? [= <-]. split; [|split; [|split]].
    + destruct (decide (1 < length (split "," text))%nat) as [Hl|Hl].
      * split; intros _; [by apply Hlen|by apply Hlast].
      * split; [by intros [? [=]]|]. intros Hin. by apply Hlen in Hin.
    + intros Hn. unfold split. rewrite (split_go_single_last 44 text []) by done.
      reflexivity.
    + intros a b rest -> Ha Hb Hrest.
      destruct (split_single_first 44 a (b ++ rest) Ha) as (parts & E & ->).
      change ("," ++ b ++ rest) with (44 :: (b ++ rest)). rewrite E.
      destruct Hrest as [->|[rest' ->]].
      * rewrite app_nil_r. unfold split.
        rewrite (split_go_single_last 44 b []) by done. reflexivity.
      * destruct (split_single_first 44 b rest' Hb) as (parts & E2 & ->).
        change ("," ++ rest') with (44 :: rest'). rewrite E2.
        pose proof (split_go_not_nil "," 0 [] rest') as Hr.
        fold (split "," rest') in Hr.
        destruct (split "," rest'); [done|]. reflexivity.
    + intros a c -> Hc.
      rewrite decide_True by (apply Hlen; set_solver).
      change ("," ++ c) with (44 :: c). by rewrite split_single_last.
Qed.

End Location.

(** ** A second run *)

Section Rerun.

Context {html tag : Type} `{!Soup html tag}.
Variable int_float_str : str -> option str.

Lemma init_requests cache dir : requests (init cache dir) = [].
Proof. by destruct cache. Qed.

(** X16. A second run.  Take a complete [run] on a site whose links
    give URLs that the cache file gives back unchanged, started with a
    cache file that is absent, empty or ends with a newline, and with a
    set that agreed with that file.  A scraper created on the files
    left has the set of the first one, and the cache file left ends
    with a newline, or is absent or empty still; the [run] of the
    second scraper, whatever the site answers then, requests listing
    pages of the base URL and no ad whose URL the first scraper held at
    its end. *)
Theorem rerun_requests_no_cached_ad (W W' : World html) (base_url : str)
    (max_pages : nat) (s : state) :
  ends_line (default [] (cache_file s)) ->
  scraped_urls s = reloaded s ->
  (forall p link, (1 <= p <= max_pages)%nat ->
     advertised W (page_url base_url p) link -> clean (SITE ++ link)) ->
  let s1 := (run int_float_str W base_url max_pages s).2 in
  let resumed := init (cache_file s1) (files s1) in
  scraped_urls resumed = scraped_urls s1
  ∧ ends_line (default [] (cache_file s1))
  ∧ ∃ pages ads,
      requests (run int_float_str W' base_url max_pages resumed).2 = pages ++ ads
      ∧ (forall u, u ∈ pages ->
           ∃ p, (1 <= p <= max_pages)%nat ∧ u = page_url base_url p)
      ∧ forall u, u ∈ ads -> u ∉ scraped_urls s1.
Proof.
  intros Hc Hs Hclean s1 resumed.
  assert (scraped_urls s1 = reloaded s1
          ∧ ends_line (default [] (cache_file s1))) as [Hstep Hends].
  { subst s1. rewrite run_phases.
    destruct (load_existing_data_frame W s) as [extra E1].
    destruct (load_existing_data W s) as [existing s0]. cbn [fst snd] in *.
    set (s2 := match existing with
               | [] => s0
               | _ :: _ => logged INFO (LoadedExisting (length existing)) s0
               end).
    assert (scraped_urls s2 = scraped_urls s ∧ cache_file s2 = cache_file s)
      as [Eu2 Ec2].
    { subst s2 s0. by destruct existing. }
    destruct (run_pages_frame W base_url (seq 1 max_pages) [] s2)
      as (Eu3 & Ec3 & _).
    destruct (run_pages_trace W base_url (seq 1 max_pages) [] s2)
      as [_ Hlinks].
    destruct (run_pages W base_url (seq 1 max_pages) [] s2) as [all_links s3].
    cbn [fst snd] in *.
    destruct (run_ads_in_step int_float_str W (length all_links) 1 all_links existing
                (logged INFO (FoundLinks (length all_links)) s3)) as [H1 H2].
    { cbn [cache_file logged]. by rewrite Ec3, Ec2. }
    { apply Forall_forall. intros link Hin.
      destruct (Hlinks link Hin) as [Hnil|(p & Hp & Ha)];
        [by apply elem_of_nil in Hnil|].
      apply (Hclean p); [|done]. apply elem_of_seq in Hp. lia. }
    { unfold reloaded in *. cbn [scraped_urls cache_file files logged].
      rewrite Eu3, Ec3, Eu2, Ec2, Hs. by destruct (cache_file s). }
    destruct (run_ads int_float_str W (length all_links) 1 all_links existing _)
      as [all_data s4].
    cbn [fst snd] in *. rewrite run_finish_eq. unfold reloaded in *.
    destruct all_data;
      cbn [scraped_urls cache_file files logged written ticked];
      (split; [|done]); rewrite H1; by destruct (cache_file s4). }
  split; [by rewrite Hstep|]. split; [done|].
  destruct (run_requests int_float_str W' base_url max_pages resumed)
    as (page_counts & all_links & ad_counts & Er & _ & _ & Hads & _).
  exists (requests_for page_counts (map (page_url base_url) (seq 1 max_pages))),
    (requests_for ad_counts (map (app SITE) all_links)).
  subst resumed. rewrite init_requests in Er.
  split; [exact Er|]. split.
  - intros u Hu. apply elem_of_requests_for in Hu as (i & k & _ & Hu).
    rewrite list_lookup_fmap in Hu.
    destruct (seq 1 max_pages !! i) as [p|] eqn:Hp; [|done].
    injection Hu as <-. apply lookup_seq in Hp as [-> Hi].
    exists (1 + i)%nat. split; [lia|done].
  - intros u Hu. apply elem_of_requests_for in Hu as (i & k & Hk & Hu).
    rewrite list_lookup_fmap in Hu.
    destruct (all_links !! i) as [link|] eqn:Hl; [|done].
    injection Hu as <-.
    destruct (Forall2_lookup_lr _ _ _ _ _ _ Hads Hk Hl) as [_ H0].
    rewrite Hstep. unfold reloaded. intros Hin. by specialize (H0 Hin).
Qed.

End Rerun.

(** ** Page numbers *)

Section Numbers.

Lemma digits_fuel_acc (fuel : nat) (n : N) (acc : str) :
  digits_fuel fuel n acc = digits_fuel fuel n [] ++ acc.
Proof.
  revert n acc. induction fuel as [|fuel IH]; intros n acc; [done|].
  cbn [digits_fuel]. destruct (n <? 10); [done|].
  rewrite (IH _ (_ :: acc)), (IH _ [_]), <- app_assoc. done.
Qed.

Lemma number_snoc (ds : str) (d : N) : number (ds ++ [d]) = 10 * number ds + (d - 48).
Proof. unfold number. by rewrite fold_left_app. Qed.

Lemma digits_fuel_number (fuel : nat) (n : N) :
  n < 2 ^ N.of_nat fuel ->
  number (digits_fuel fuel n []) = n
  ∧ forallb is_digit (digits_fuel fuel n []) = true.
Proof.
  revert n. induction fuel as [|fuel IH]; intros n Hn.
  - change (2 ^ N.of_nat 0) with 1 in Hn. assert (n = 0) as -> by lia. done.
  - cbn [digits_fuel].
    pose proof (N.mod_lt n 10 ltac:(lia)) as Hm.
    assert (is_digit (48 + n mod 10) = true) as Hd.
    { clear -Hm. unfold is_digit. revert Hm. generalize (n mod 10). intros m Hm.
      apply andb_true_iff. split; apply N.leb_le; lia. }
    destruct (N.ltb_spec n 10) as [Hlt|Hge].
    + unfold number. cbn [fold_left forallb]. rewrite Hd.
      split; [|done]. rewrite N.mod_small by done. clear. lia.
    + rewrite digits_fuel_acc.
      destruct (IH (n / 10)) as [E1 E2].
      { apply N.Div0.div_lt_upper_bound.
        rewrite Nat2N.inj_succ, N.pow_succ_r' in Hn.
        revert Hn. generalize (2 ^ N.of_nat fuel). clear. intros P HP. lia. }
      rewrite number_snoc, E1, forallb_app, E2. cbn [forallb]. rewrite Hd.
      split; [|done]. pose proof (N.div_mod n 10 ltac:(lia)) as Hdm.
      revert Hdm. generalize (n / 10) (n mod 10). clear. intros q m Hdm. lia.
Qed.

Lemma str_of_N_number (n : N) :
  number (str_of_N n) = n ∧ forallb is_digit (str_of_N n) = true.
Proof.
  unfold str_of_N. apply digits_fuel_number.
  rewrite Nat2N.inj_succ, N2Nat.id.
  destruct (decide (n = 0)) as [->|Hne]; [done|].
  apply N.log2_spec. lia.
Qed.

Lemma str_of_N_inj (n m : N) : str_of_N n = str_of_N m -> n = m.
Proof.
  intros E. rewrite <- (proj1 (str_of_N_number n)), <- (proj1 (str_of_N_number m)).
  by rewrite E.
Qed.

(** X17. The URLs of different listing pages differ, so the pages
    1..k are fetched at k different addresses; and the page number
    printed into the URL of a page other than the first reads back as
    that number. *)
Theorem page_urls_are_distinct (base_url : str) :
  (forall p q, page_url base_url p = page_url base_url q -> p = q)
  ∧ (forall k, NoDup (map (page_url base_url) (seq 1 k)))
  ∧ forall p, p ≠ 1%nat ->
      number (drop (length (base_url ++ "?page=")) (page_url base_url p))
      = N.of_nat p.
Proof.
  assert (forall p q, page_url base_url p = page_url base_url q -> p = q) as Hinj.
  { intros p q. unfold page_url.
    destruct (decide (p = 1%nat)) as [->|Hp], (decide (q = 1%nat)) as [->|Hq];
      try done; intros E.
    - apply (f_equal length) in E. rewrite !length_app in E. simpl in E. lia.
    - apply (f_equal length) in E. rewrite !length_app in E. simpl in E. lia.
    - apply app_inv_head in E. apply app_inv_head in E.
      apply str_of_N_inj in E. lia. }
  split; [done|]. split.
  - intros k. apply NoDup_fmap_2; [exact Hinj|apply NoDup_seq].
  - intros p Hp. unfold page_url. rewrite decide_False by done.
    rewrite app_assoc, drop_app_length. apply str_of_N_number.
Qed.

End Numbers.

(** ** Rows not saved yet *)

Section Unsaved.

Context {html tag : Type} `{!Soup html tag}.
Variable int_float_str : str -> option str.

(** The batch of the last of the writes [ws], or [disk] when there is
    none. *)
Lemma run_ads_unsaved (W : World html) total i links d s disk unsaved :
  (1 <= i)%nat ->
  d = disk ++ unsaved ->
  (length unsaved <= (i - 1) mod 20)%nat ->
  ∃ ws unsaved',
    writes (run_ads int_float_str W total i links d s).2 = writes s ++ ws
    ∧ (run_ads int_float_str W total i links d s).1
      = default disk (snd <$> last ws) ++ unsaved'
    ∧ (length unsaved' <= (i - 1 + length links) mod 20)%nat.
Proof.
  revert i d s disk unsaved.
  induction links as [|link links IH]; intros i d s disk unsaved Hi Hd Hlen.
  - exists [], unsaved. simpl. rewrite app_nil_r, Nat.add_0_r. done.
  - rewrite run_ads_cons.
    destruct (run_ad_writes int_float_str W total i link d s) as (Hp & t & Ew1 & _).
    destruct (run_ad_ledger int_float_str W total i link d s) as (new & Ed & Hnew & _).
    destruct (run_ad int_float_str W total i link d s) as [d1 s1].
    cbv beta iota in *. cbn [fst snd] in *.
    assert (length new <= 1)%nat as Hn1.
    { destruct Hnew as [->|(r & -> & _)]; simpl; lia. }
    pose proof (Nat.div_mod_eq (i - 1) 20) as D1.
    pose proof (Nat.div_mod_eq i 20) as D2.
    pose proof (Nat.mod_upper_bound (i - 1) 20 ltac:(lia)) as B1.
    pose proof (Nat.mod_upper_bound i 20 ltac:(lia)) as B2.
    destruct (decide (i mod 20 = 0)%nat) as [E|E].
    + destruct (IH (S i) d1 s1 d1 []) as (ws & u' & Ew & Ed' & Hl').
      { lia. } { by rewrite app_nil_r. }
      { simpl. lia. }
      exists ((output_file_on (today W t), d1) :: ws), u'.
      rewrite Ew, Ew1, <- app_assoc. split; [done|].
      replace (i - 1 + length (link :: links))%nat
        with (S i - 1 + length links)%nat by (cbn [length]; lia).
      split; [|done]. rewrite Ed'. f_equal.
      destruct ws as [|w ws] using rev_ind; [done|].
      by rewrite app_comm_cons, !last_snoc.
    + destruct (IH (S i) d1 s1 disk (unsaved ++ new)) as (ws & u' & Ew & Ed' & Hl').
      { lia. } { by rewrite Ed, Hd, <- app_assoc. }
      { rewrite length_app. replace (S i - 1)%nat with i by lia. lia. }
      exists ws, u'. rewrite Ew, Ew1, app_nil_r. split; [done|].
      replace (i - 1 + length (link :: links))%nat
        with (S i - 1 + length links)%nat by (cbn [length]; lia).
      done.
Qed.

(** X18. At every point of the ad loop fewer than twenty rows are
    in memory only: after any number of links, numbered from 1, the
    batch is the batch of the last save, or the batch at the start when
    nothing was saved yet, followed by at most [length links mod 20]
    rows. *)
Theorem unsaved_rows_are_fewer_than_twenty (W : World html) (total : nat)
    (links : list str) (all_data : list row) (s : state) :
  ∃ ws unsaved,
    writes (run_ads int_float_str W total 1 links all_data s).2 = writes s ++ ws
    ∧ (run_ads int_float_str W total 1 links all_data s).1
      = default all_data (snd <$> last ws) ++ unsaved
    ∧ (length unsaved <= length links mod 20)%nat
    ∧ (length unsaved < 20)%nat.
Proof.
  destruct (run_ads_unsaved W total 1 links all_data s all_data [])
    as (ws & unsaved & Ew & Ed & Hl); [lia|by rewrite app_nil_r|simpl; lia|].
  exists ws, unsaved. change (1 - 1 + length links)%nat with (length links) in Hl.
  pose proof (Nat.mod_upper_bound (length links) 20 ltac:(lia)).
  repeat split; try done. lia.
Qed.

End Unsaved.

(** ** The further properties on the sample site *)

(** X1 on the site whose first two answers are failures: the third
    request is answered. *)
Lemma make_request_returns_first_success_witness :
  (make_request flaky ad1 0 fresh).1 = Some (ad_page addr)
  ∧ requests (make_request flaky ad1 0 fresh).2 = [ad1; ad1; ad1].
Proof.
  destruct (make_request_returns_first_success flaky ad1 fresh
              (fun _ => "timed out") 2 (ad_page addr)) as (H1 & H2 & _).
  - unfold MAX_RETRIES. lia.
  - intros i Hi. destruct i as [|[|i]]; [reflexivity|reflexivity|lia].
  - vm_compute. reflexivity.
  - split; [exact H1|exact H2].
Defined.

(** X3 on the two ads of the sample site, saved by a scraper that
    starts without a cache file. *)
Lemma saved_urls_are_reloaded_witness :
  reloaded (foldl (fun s url => (save_scraped_url url s).2) fresh [ad1; ad2])
  = list_to_set [ad1; ad2] ∪ reloaded fresh.
Proof.
  refine (proj1 (proj2 (saved_urls_are_reloaded fresh [ad1; ad2] _ _))).
  - left. reflexivity.
  - repeat constructor; try (vm_compute; reflexivity);
      apply (bool_decide_unpack _); vm_compute; exact I.
Defined.

(** X5 on the sample site, the ad loop being stopped after the first of
    its two links. *)
Lemma interrupted_ad_loop_witness :
  scraped_urls
    (init (cache_file
             (run_ads ifs (site addr) 2 1 (take 1 ["/adv/1/"; "/adv/2/"]) []
                fresh).2) ∅)
  = scraped_urls
      (run_ads ifs (site addr) 2 1 (take 1 ["/adv/1/"; "/adv/2/"]) [] fresh).2.
Proof.
  refine (proj1 (interrupted_ad_loop_keeps_set_and_file_in_step ifs (site addr)
                   2 1 ["/adv/1/"; "/adv/2/"] [] fresh 1 ∅ _ _ _)).
  - left. reflexivity.
  - repeat constructor; try (vm_compute; reflexivity);
      apply (bool_decide_unpack _); vm_compute; exact I.
  - vm_compute. reflexivity.
Defined.

(** X11 on the record of the first ad, whose floor material is written
    between spaces on the page. *)
Lemma record_values_are_normalised_witness :
  dict_get "Шал" (record_of (scrape_ad ifs (site addr) ad1 fresh))
  = Some "Паркет"
  ∧ strip "Паркет" = "Паркет".
Proof.
  assert (dict_get "Шал" (record_of (scrape_ad ifs (site addr) ad1 fresh))
          = Some "Паркет") as Hget by (vm_compute; reflexivity).
  split; [exact Hget|].
  refine (proj1 (record_values_are_normalised ifs (site addr) ad1 fresh
                   (scrape_ad ifs (site addr) ad1 fresh).2
                   (record_of (scrape_ad ifs (site addr) ad1 fresh)) _)
            "Шал" "Паркет" _ Hget).
  - vm_compute. reflexivity.
  - apply (bool_decide_unpack _). vm_compute. exact I.
Defined.

(** X14 in a directory with the snapshots of 2 and 3 November 2026. *)
Lemma latest_snapshot_witness :
  (load_existing_data down two_days).1 = [[("link", ad1)]; [("link", ad2)]].
Proof.
  destruct (latest_snapshot_is_of_the_latest_day down two_days (Date 2026 11 3)
              [[("link", ad1)]; [("link", ad2)]]) as [_ H];
    [| | |rewrite H; reflexivity].
  - unfold valid_date. simpl. lia.
  - unfold two_days. cbn [files].
    rewrite lookup_insert_ne by (apply (bool_decide_unpack _); vm_compute; exact I).
    apply lookup_singleton_eq.
  - intros g Hg _. unfold two_days in Hg. cbn [files] in Hg.
    apply lookup_insert_is_Some in Hg as [<-|[_ Hg]].
    + exists (Date 2026 11 2). split; [unfold valid_date; simpl; lia|].
      split; [vm_compute; reflexivity|]. unfold date_lt. simpl. lia.
    + destruct Hg as [x Hx]. apply lookup_singleton_Some in Hx as [<- _].
      exists (Date 2026 11 3). split; [unfold valid_date; simpl; lia|].
      split; [vm_compute; reflexivity|]. unfold date_lt. simpl. lia.
Defined.

(** X16 on the sample site: a scraper created after the first run has
    the set of the first. *)
Lemma rerun_witness :
  scraped_urls
    (init (cache_file (run ifs (site addr) base_url 2 fresh).2)
          (files (run ifs (site addr) base_url 2 fresh).2))
  = scraped_urls (run ifs (site addr) base_url 2 fresh).2.
Proof.
  refine (proj1 (rerun_requests_no_cached_ad ifs (site addr) (site addr)
                   base_url 2 fresh _ _ _)).
  - left. reflexivity.
  - vm_compute. reflexivity.
  - intros p link Hp (t & text & a & Hnet & Ha & Hh & _).
    assert (p = 1 ∨ p = 2)%nat as [-> | ->] by lia.
    + vm_compute in Hnet. injection Hnet as <-.
      vm_compute in Ha.
      repeat (apply elem_of_cons in Ha as [->|Ha];
              [vm_compute in Hh; injection Hh as <-;
               repeat split; try (vm_compute; reflexivity);
               apply (bool_decide_unpack _); vm_compute; exact I|]).
      inversion Ha.
    + vm_compute in Hnet. injection Hnet as <-.
      vm_compute in Ha. inversion Ha.
Defined.
